(** * Foundry VTT REST relay: request/response correlation

    A shallow embedding of the relay server's correlation core (the route
    helper [createApiRoute], the response handlers installed by
    [setupMessageHandlers], [safeResponse] and [sanitizeResponse], the
    roll and chat routers) and of the chat and roll collectors of the
    Foundry-side module ([scripts/module.js]), with the properties the
    specification states about them.  The second part covers more of the
    code: the cleanup of headless sessions, the message handlers and the
    WebSocket manager of the module, and the relay and the module taken
    together.

    Modelling conventions.
    - A JSON value is the inductive [json]; a JSON object is a finite map
      from property names to values ([gmap string json]), so property
      assignment is map insertion and the order of keys is not observable.
      A parsed message may have a property named [__proto__] like any
      other.  An assignment [obj[key] = value] with that name creates no
      property: it sets the prototype of [obj] when the value is an object,
      an array or [null].  Where the relay assigns keys of a message
      ([removeSensitiveKeys], the generic result handler) the model follows
      this: a written JSON body is what [JSON.stringify] writes, the own
      properties, and an object whose prototype was set is modelled by the
      properties that reads and [for ... in] find in it.
    - A JavaScript value that may be [undefined] is an [option json];
      [None] is [undefined].  Numbers are integers ([Z]).
    - [Date.now()] is an input: every handler runs at one instant of a
      millisecond clock, and timers fire in the order of their due times.
    - An Express response object is a handle ([nat]); the state records
      what has been written to each handle, and [headersSent] is "something
      has been written".  Header values are recorded as they are given.
    - Platform and collaborator functions that are not part of the
      repository sources ([parseFloat], [JSON.parse], base64 decoding, the
      check of a header value by [setHeader], the JSDOM pass, the HTML
      template) are fields of the [Platform] class;
      they return, and do not throw other than as their types say. *)

From Stdlib Require Import Ascii.
From stdpp Require Import gmap strings list fin_maps pretty sorting.

Open Scope string_scope.

(** ** JSON values *)

#[warnings="-register-all"]
Inductive json : Type :=
| JNull
| JBool (b : bool)
| JNum (n : Z)
| JStr (s : string)
| JArr (items : list json)
| JObj (fields : gmap string json).

(** A JavaScript value: [None] is [undefined]. *)
Abbreviation jsval := (option json).

(** A JSON object (message, request body, query). *)
Abbreviation object := (gmap string json).

(** The double-quote character, for header values. *)
Definition dquote : string := String (Ascii.ascii_of_nat 34) EmptyString.

(** JavaScript truthiness: [undefined], [null], [false], [0] and the empty
    string are falsy. *)
Definition truthy (v : jsval) : bool :=
  match v with
  | None => false
  | Some JNull => false
  | Some (JBool b) => b
  | Some (JNum n) => negb (n =? 0)%Z
  | Some (JStr s) => negb (bool_decide (s = ""))
  | Some (JArr _) => true
  | Some (JObj _) => true
  end.

(** [a || b] and [a && b] on JavaScript values. *)
Definition js_or (a b : jsval) : jsval := if truthy a then a else b.
Definition js_and (a b : jsval) : jsval := if truthy a then b else a.

(** [v === "s"] for a string literal. *)
Definition is_string (v : jsval) (s : string) : bool :=
  match v with
  | Some (JStr x) => bool_decide (x = s)
  | _ => false
  end.

(** Property read [v.k] / [v[k]] for the data properties of an object;
    a non-object has none of the names read by the relay. *)
Definition prop (v : jsval) (k : string) : jsval :=
  match v with
  | Some (JObj m) => m !! k
  | _ => None
  end.

(** [{ k1: v1, ..., kn: vn }] with possibly [undefined] values; a key whose
    value is [undefined] is not serialised, so it is left out. *)
Fixpoint obj_of (kvs : list (string * jsval)) : object :=
  match kvs with
  | [] => ∅
  | (k, Some v) :: rest => <[k := v]> (obj_of rest)
  | (_, None) :: rest => obj_of rest
  end.

(** Decimal rendering of a list of strings joined by a separator. *)
Fixpoint join (sep : string) (l : list string) : string :=
  match l with
  | [] => ""
  | [x] => x
  | x :: rest => x +:+ sep +:+ join sep rest
  end.

(** [String(v)]: the string conversion used by template literals and by
    the boolean coercion. *)
Fixpoint js_String (j : json) : string :=
  match j with
  | JNull => "null"
  | JBool true => "true"
  | JBool false => "false"
  | JNum n => pretty n
  | JStr s => s
  | JArr l =>
      join "," (map (λ x, match x with JNull => "" | _ => js_String x end) l)
  | JObj _ => "[object Object]"
  end.

Definition js_String_val (v : jsval) : string :=
  match v with
  | None => "undefined"
  | Some j => js_String j
  end.

(** ASCII lower-casing ([toLowerCase] on the characters that matter for the
    comparison with "true" and "false"). *)
Definition lower_ascii (c : Ascii.ascii) : Ascii.ascii :=
  let n := Ascii.nat_of_ascii c in
  if (65 <=? n)%nat && (n <=? 90)%nat then Ascii.ascii_of_nat (n + 32) else c.

Fixpoint toLowerCase (s : string) : string :=
  match s with
  | EmptyString => EmptyString
  | String c rest => String (lower_ascii c) (toLowerCase rest)
  end.

(** ** Sanitising response bodies (routes/shared.ts) *)

Definition sensitive (key : string) : bool :=
  bool_decide (key = "privateKey")
  || bool_decide (key = "apiKey")
  || bool_decide (key = "password").

(** The key [__proto__]: [obj[key] = value] calls the setter of
    [Object.prototype] and creates no property. *)
Definition sets_prototype (key : string) : bool := bool_decide (key = "__proto__").

(** [removeSensitiveKeys]: atoms are returned as they are, arrays are
    mapped, and an object is rebuilt from the keys that are none of the
    three sensitive names ([key !== 'privateKey' && key !== 'apiKey' &&
    key !== 'password']), with the recursion applied to each value.  The
    result is given as [res.json] writes it: [newObj[key] = ...] for the key
    [__proto__] sets the prototype of [newObj] and adds no property, so
    that key and what is below it are not in the written body. *)
Fixpoint removeSensitiveKeys (obj : json) : json :=
  match obj with
  | JArr items => JArr (map removeSensitiveKeys items)
  | JObj fields =>
      JObj (map_imap
              (λ key v, if sensitive key then None
                        else if sets_prototype key then None
                        else Some (removeSensitiveKeys v)) fields)
  | _ => obj
  end.

Definition sanitizeResponse (response : jsval) : jsval :=
  match response with
  | None => None
  | Some JNull => Some JNull
  | Some (JBool b) => Some (JBool b)
  | Some (JNum n) => Some (JNum n)
  | Some (JStr s) => Some (JStr s)
  | Some r => Some (removeSensitiveKeys r)
  end.

(** ** HTTP responses *)

Inductive body : Type :=
| BJson (j : jsval)            (* res.json(data) *)
| BHtml (html : string)        (* res.send(fullHtml) *)
| BBytes (bytes : list N).     (* res.end(buffer) *)

Record http_response : Type := mkResponse {
  r_status : Z;
  r_headers : list (string * json);   (* headers set by the handler *)
  r_body : body
}.

(** The response handles: what has been written to each Express [res]. *)
Abbreviation responses_t := (gmap nat http_response).

(** [safeResponse(res, statusCode, data)]: nothing is written when the
    headers have been sent already; otherwise the sanitised data is
    written as JSON with the status code. *)
Definition safeResponse (res : nat) (statusCode : Z) (data : jsval)
    (rs : responses_t) : responses_t :=
  match rs !! res with
  | Some _ => rs
  | None =>
      let sanitizedData := sanitizeResponse data in
      <[res := mkResponse statusCode [] (BJson sanitizedData)]> rs
  end.

(** Paths into a JSON value, to state what sanitising keeps. *)
Inductive seg : Type :=
| Key (k : string)
| Idx (i : nat).

Fixpoint get_path (p : list seg) (j : json) : option json :=
  match p with
  | [] => Some j
  | Key k :: p' =>
      match j with
      | JObj m => m !! k ≫= get_path p'
      | _ => None
      end
  | Idx i :: p' =>
      match j with
      | JArr l => l !! i ≫= get_path p'
      | _ => None
      end
  end.

Definition seg_sensitive (s : seg) : bool :=
  match s with
  | Key k => sensitive k
  | Idx _ => false
  end.

(** No sensitive key occurs at any depth of [j]. *)
Definition no_sensitive_key (j : json) : Prop :=
  ∀ p, is_Some (get_path p j) → forallb (λ s, negb (seg_sensitive s)) p = true.

Definition seg_proto (s : seg) : bool :=
  match s with
  | Key k => sets_prototype k
  | Idx _ => false
  end.

(** No key [__proto__] occurs at any depth of [j]. *)
Definition no_proto_key (j : json) : Prop :=
  ∀ p, is_Some (get_path p j) → forallb (λ s, negb (seg_proto s)) p = true.


(** ** The relay state *)

(** [PendingRequest] (routes/shared.ts).  [initialScale] and [activeTab]
    are [number | null | undefined]: [None] is [undefined], [Some None] is
    [null]. *)
Record PendingRequest : Type := mkPending {
  pr_res : nat;
  pr_type : string;
  pr_clientId : jsval;
  pr_uuid : option string;
  pr_path : option string;
  pr_query : option string;
  pr_filter : option string;
  pr_timestamp : Z;
  pr_format : option string;
  pr_initialScale : option (option Z);
  pr_activeTab : option (option Z);
  pr_darkMode : option bool
}.

(** The fields a route may add through [buildPendingRequest]. *)
Record PendingExtras : Type := mkExtras {
  x_uuid : option string;
  x_path : option string;
  x_query : option string;
  x_filter : option string;
  x_format : option string;
  x_initialScale : option (option Z);
  x_activeTab : option (option Z);
  x_darkMode : option bool
}.

Definition noExtras : PendingExtras :=
  mkExtras None None None None None None None None.

(** Modelled from the spec: a peer session ([core/Client] is not among the
    sources).  It has an identity, a metadata snapshot, and [send], which
    returns a boolean success; [c_open] is whether a write succeeds. *)
Record Client : Type := mkClient {
  c_id : string;
  c_systemId : jsval;
  c_open : bool
}.

Record state : Type := mkState {
  pendingRequests : gmap string PendingRequest;
  clients : gmap string Client;          (* the local client table *)
  responses : gmap nat http_response;    (* written HTTP responses *)
  outbox : list (string * object)        (* frames sent to peers, oldest first *)
}.

Definition set_pending (f : gmap string PendingRequest → gmap string PendingRequest)
    (st : state) : state :=
  mkState (f (pendingRequests st)) (clients st) (responses st) (outbox st).

Definition set_responses (f : responses_t → responses_t) (st : state) : state :=
  mkState (pendingRequests st) (clients st) (f (responses st)) (outbox st).

(** [ClientManager.getClient(clientId)].
    Modelled from the spec: the lookup of the target client ID in the
    local client table; anything that is not a registered ID has no
    client. *)
Definition getClient (clientId : jsval) (st : state) : option Client :=
  match clientId with
  | Some (JStr c) => clients st !! c
  | _ => None
  end.

(** [client.send(message)]: the frame is written when the socket accepts
    it. *)
Definition client_send (c : Client) (message : object) (st : state) : bool * state :=
  if c_open c
  then (true, mkState (pendingRequests st) (clients st) (responses st)
                      (outbox st ++ [(c_id c, message)]))
  else (false, st).

(** Functions of the platform and of collaborators outside the sources. *)
Class Platform : Type := {
  (** [parseFloat(s)]; [None] is [NaN]. *)
  parseFloat : string → option Z;
  (** [JSON.parse(s)]; [None] is a thrown [SyntaxError]. *)
  JSON_parse : string → option json;
  (** [Buffer.from(s, 'base64')]. *)
  base64_decode : string → list N;
  (** The check of a header value by [res.setHeader(name, value)]: [true]
      when the value has a character that a header must not hold, and
      [setHeader] throws [ERR_INVALID_CHAR]. *)
  checkInvalidHeaderChar : json → bool;
  (** The JSDOM pass that activates the tab with the given index; it
      falls back to the HTML it was given. *)
  activateTab : Z → jsval → jsval;
  (** [returnHtmlTemplate(uuid, html, css, systemId, darkMode,
      includeInteractiveJS, activeTab, initialScale, pending)]. *)
  returnHtmlTemplate :
    jsval → jsval → jsval → jsval → bool → bool → Z → Z → PendingRequest → string
}.

(** ** Route helper: [createApiRoute] (routes/route-helpers.ts) *)

Inductive source : Type := FromBody | FromQuery | FromParams.

Inductive paramType : Type := TString | TNumber | TBoolean | TArray | TObject.

(** [ParamDef]; [p_from] is the list of sources ([from] is one source or an
    array of sources, and one source stands for the one-element array). *)
Record ParamDef : Type := mkParam {
  p_name : string;
  p_from : list source;
  p_type : option paramType
}.

Record Request : Type := mkRequest {
  req_body : option object;
  req_query : option object;
  req_params : option object
}.

Record ApiRouteConfig : Type := mkConfig {
  cfg_type : string;
  cfg_requiredParams : list ParamDef;
  cfg_optionalParams : list ParamDef;
  cfg_timeout : option Z;
  cfg_validateParams : option (object → Request → option object);
  cfg_buildPayload : option (object → Request → object);
  cfg_buildPendingRequest : option (object → PendingExtras)
}.

Definition req_source (req : Request) (s : source) : option object :=
  match s with
  | FromBody => req_body req
  | FromQuery => req_query req
  | FromParams => req_params req
  end.

(** The inner loop: [value = req[source]?.[p.name]], stopping at the first
    source where the value is not [undefined]. *)
Fixpoint firstDefined (req : Request) (name : string) (sources : list source) : jsval :=
  match sources with
  | [] => None
  | s :: rest =>
      match req_source req s ≫= (λ o, o !! name) with
      | Some value => Some value
      | None => firstDefined req name rest
      end
  end.

(** [params[k] = v], where assigning [undefined] leaves the name without a
    value. *)
Definition params_set (k : string) (v : jsval) (params : object) : object :=
  match v with
  | Some x => <[k := x]> params
  | None => delete k params
  end.

Definition extractParams (req : Request) (defs : list ParamDef) : object :=
  foldl (λ params p, params_set (p_name p) (firstDefined req (p_name p) (p_from p)) params)
        ∅ defs.

(** One case of the [switch (p.type)]: the coerced value, or the
    validation error. *)
Definition coerce `{Platform} (ty : paramType) (name : string) (value : json)
    : string + json :=
  match ty with
  | TNumber =>
      match value with
      | JNum n => inr (JNum n)
      | _ =>
          match parseFloat (js_String value) with
          | Some z => inr (JNum z)
          | None => inl ("'" +:+ name +:+ "' must be a valid number.")
          end
      end
  | TBoolean =>
      match value with
      | JBool b => inr (JBool b)
      | _ =>
          if bool_decide (toLowerCase (js_String value) = "true") then inr (JBool true)
          else if bool_decide (toLowerCase (js_String value) = "false") then inr (JBool false)
          else inl ("'" +:+ name +:+ "' must be a valid boolean.")
      end
  | TArray =>
      match value with
      | JArr l => inr (JArr l)
      | JStr s =>
          match JSON_parse s with
          | Some (JArr l) => inr (JArr l)
          | Some _ => inl ("'" +:+ name +:+ "' must be an array.")
          | None => inl ("'" +:+ name +:+ "' must be a valid array.")
          end
      | _ => inl ("'" +:+ name +:+ "' must be an array.")
      end
  | TString =>
      match value with
      | JStr s => inr (JStr s)
      | _ => inl ("'" +:+ name +:+ "' must be a string.")
      end
  | TObject =>
      match value with
      | JObj m => inr (JObj m)
      | _ => inl ("'" +:+ name +:+ "' must be an object.")
      end
  end.

(** The type validation and coercion loop; the first validation error
    ends the request. *)
Fixpoint coerceParams `{Platform} (defs : list ParamDef) (params : object)
    : string + object :=
  match defs with
  | [] => inr params
  | p :: rest =>
      match params !! p_name p with
      | None | Some JNull => coerceParams rest params
      | Some value =>
          match p_type p with
          | None => coerceParams rest params
          | Some ty =>
              match coerce ty (p_name p) value with
              | inl validationError => inl validationError
              | inr coercedValue =>
                  coerceParams rest (<[p_name p := coercedValue]> params)
              end
          end
      end
  end.

(** The first required parameter that is [undefined] or [null]. *)
Fixpoint missingRequired (required : list ParamDef) (params : object) : option string :=
  match required with
  | [] => None
  | p :: rest =>
      match params !! p_name p with
      | None | Some JNull => Some (p_name p)
      | Some _ => missingRequired rest params
      end
  end.

(** [{...v}]: the own enumerable properties of [v]; the indices for an
    array or a string, nothing for the other values. *)
Fixpoint chars (s : string) : list json :=
  match s with
  | EmptyString => []
  | String c rest => JStr (String c EmptyString) :: chars rest
  end.

Definition indexed (l : list json) : object :=
  list_to_map (imap (λ i x, (pretty i, x)) l).

Definition spread (v : jsval) : object :=
  match v with
  | Some (JObj m) => m
  | Some (JArr l) => indexed l
  | Some (JStr s) => indexed (chars s)
  | _ => ∅
  end.

(** [`${config.type}_${Date.now()}`] *)
Definition requestId_of (type : string) (now : Z) : string :=
  type +:+ "_" +:+ pretty now.

(** [config.timeout || 10000] *)
Definition timeoutDuration (config : ApiRouteConfig) : Z :=
  match cfg_timeout config with
  | Some t => if (t =? 0)%Z then 10000%Z else t
  | None => 10000%Z
  end.

(** The registered waiter: [{res, type, clientId, timestamp,
    ...buildPendingRequest(params)}]. *)
Definition pendingRequestData (config : ApiRouteConfig) (res : nat)
    (clientId : jsval) (now : Z) (params : object) : PendingRequest :=
  let x := match cfg_buildPendingRequest config with
           | Some build => build params
           | None => noExtras
           end in
  mkPending res (cfg_type config) clientId
            (x_uuid x) (x_path x) (x_query x) (x_filter x) now
            (x_format x) (x_initialScale x) (x_activeTab x) (x_darkMode x).

(** The frame sent to the peer:
    [{type: config.type, requestId, ...payload, data: {...payload.data}}]
    where [payload] is the payload source without [clientId] and [type]. *)
Definition relayMessage (config : ApiRouteConfig) (requestId : string)
    (payloadSource : object) : object :=
  let payload := delete "clientId" (delete "type" payloadSource) in
  <["data" := JObj (spread (payload !! "data"))]>
    (payload ∪ <["requestId" := JStr requestId]> {["type" := JStr (cfg_type config)]}).

(** A timer armed by [setTimeout]: the delay, and the request ID and
    response handle its callback closes over. *)
Record timer : Type := mkTimer {
  t_delay : Z;
  t_requestId : string;
  t_res : nat
}.

(** The parameter pipeline of the handler, up to the point where the
    target client is looked up: extraction, coercion, custom validation
    and the required-parameter check.  [inl] is the body of the 400
    response. *)
Definition processParams `{Platform} (config : ApiRouteConfig) (req : Request)
    : object + object :=
  let allParamDefs := (cfg_requiredParams config ++ cfg_optionalParams config)%list in
  let params := extractParams req allParamDefs in
  match coerceParams allParamDefs params with
  | inl validationError => inl {["error" := JStr validationError]}
  | inr params =>
      match cfg_validateParams config ≫= (λ validate, validate params req) with
      | Some validationResult => inl validationResult
      | None =>
          match missingRequired (cfg_requiredParams config) params with
          | Some name => inl {["error" := JStr ("'" +:+ name +:+ "' is required")]}
          | None => inr params
          end
      end
  end.

(** The Express handler returned by [createApiRoute(config)], run for the
    request [req] with response handle [res] at clock reading [now].  It
    returns the new state and the timer it armed, if any. *)
Definition createApiRoute `{Platform} (config : ApiRouteConfig) (req : Request)
    (res : nat) (now : Z) (st : state) : state * option timer :=
  match processParams config req with
  | inl errorBody =>
      (set_responses (safeResponse res 400 (Some (JObj errorBody))) st, None)
  | inr params =>
      let clientId := params !! "clientId" in
      match getClient clientId st with
      | None =>
          (set_responses
             (safeResponse res 404 (Some (JObj {["error" := JStr "Invalid client ID"]}))) st,
           None)
      | Some client =>
          let requestId := requestId_of (cfg_type config) now in
          let st1 :=
            set_pending (insert requestId (pendingRequestData config res clientId now params)) st in
          let payloadSource :=
            match cfg_buildPayload config with
            | Some build => build params req
            | None => params
            end in
          let '(sent, st2) := client_send client (relayMessage config requestId payloadSource) st1 in
          if sent
          then (st2, Some (mkTimer (timeoutDuration config) requestId res))
          else
            (set_responses
               (safeResponse res 500
                  (Some (JObj {["error" := JStr "Failed to send request to Foundry client"]})))
               (set_pending (delete requestId) st2),
             None)
      end
  end.

(** The callback armed by [setTimeout] in the handler. *)
Definition timeoutCallback (requestId : string) (res : nat) (st : state) : state :=
  match pendingRequests st !! requestId with
  | Some _ =>
      set_responses
        (safeResponse res 408 (Some (JObj {["error" := JStr "Request timed out"]})))
        (set_pending (delete requestId) st)
  | None => st
  end.

(** ** The routers (routes/api/roll.ts, routes/api/chat.ts) *)

Definition rolls_buildPayload (params : object) (_ : Request) : object :=
  let payload : object := ∅ in
  let payload := match params !! "limit" with
                 | Some limit => if truthy (Some limit) then <["limit" := limit]> payload
                                 else payload
                 | None => payload
                 end in
  if truthy (params !! "clear") || truthy (params !! "refresh")
  then <["refresh" := JBool true]> (<["clear" := JBool true]> payload)
  else payload.

Definition route_rolls : ApiRouteConfig :=
  mkConfig "rolls"
    [mkParam "clientId" [FromQuery] (Some TString)]
    [mkParam "limit" [FromQuery] (Some TNumber);
     mkParam "clear" [FromQuery] (Some TBoolean);
     mkParam "refresh" [FromQuery] (Some TBoolean)]
    None None (Some rolls_buildPayload) None.

Definition route_lastroll : ApiRouteConfig :=
  mkConfig "last-roll"
    [mkParam "clientId" [FromQuery] (Some TString)]
    [] None None None None.

Definition route_roll : ApiRouteConfig :=
  mkConfig "roll"
    [mkParam "clientId" [FromQuery] (Some TString);
     mkParam "formula" [FromBody] (Some TString)]
    [mkParam "flavor" [FromBody] (Some TString);
     mkParam "createChatMessage" [FromBody] (Some TBoolean);
     mkParam "speaker" [FromBody] (Some TString);
     mkParam "whisper" [FromBody] (Some TArray)]
    None None None None.

Definition route_chat : ApiRouteConfig :=
  mkConfig "chat"
    [mkParam "clientId" [FromBody] (Some TString);
     mkParam "message" [FromBody] (Some TObject);
     mkParam "message.message" [FromBody] (Some TString);
     mkParam "message.speaker" [FromBody] (Some TString);
     mkParam "message.type" [FromBody] (Some TString)]
    [mkParam "message.timestamp" [FromBody] (Some TNumber);
     mkParam "message.whisper" [FromBody] (Some TBoolean);
     mkParam "message.blind" [FromBody] (Some TBoolean);
     mkParam "message.roll" [FromBody] (Some TObject)]
    None None None None.

Definition route_chat_messages : ApiRouteConfig :=
  mkConfig "chat-messages"
    [mkParam "clientId" [FromQuery] (Some TString)]
    [mkParam "limit" [FromQuery] (Some TNumber);
     mkParam "sort" [FromQuery] (Some TString);
     mkParam "order" [FromQuery] (Some TString);
     mkParam "user" [FromQuery] (Some TString);
     mkParam "type" [FromQuery] (Some TString)]
    None None None None.

(** The relay endpoints defined by the two routers: method, path, route. *)
Definition endpoints : list (string * string * ApiRouteConfig) :=
  [("GET", "/rolls", route_rolls);
   ("GET", "/lastroll", route_lastroll);
   ("POST", "/roll", route_roll);
   ("POST", "/chat", route_chat);
   ("GET", "/messages", route_chat_messages)].

(** ** Response handlers: [setupMessageHandlers] (routes/api.ts) *)

Definition PENDING_REQUEST_TYPES : list string :=
  ["search"; "entity"; "structure"; "contents"; "create"; "update"; "delete";
   "rolls"; "last-roll"; "roll"; "get-sheet"; "macro-execute"; "macros";
   "encounters"; "start-encounter"; "next-turn"; "next-round"; "last-turn"; "last-round";
   "end-encounter"; "add-to-encounter"; "remove-from-encounter"; "kill"; "decrease";
   "increase"; "give"; "remove"; "execute-js";
   "select"; "selected"; "file-system"; "upload-file"; "download-file";
   "get-actor-details"; "modify-item-charges"; "use-ability"; "use-feature"; "use-spell";
   "use-item"; "modify-experience"; "add-item"; "remove-item";
   "get-folder"; "create-folder"; "delete-folder"; "chat-messages"; "chat"].

Definition REQUEST_TYPES_WITH_SPECIAL_RESPONSE_HANDLERS : list string :=
  ["actor-sheet"; "download-file"].

(** [data.requestId && pendingRequests.has(data.requestId)], then
    [pendingRequests.get(data.requestId)]: the keys of the table are
    strings, so only a non-empty string finds an entry. *)
Definition lookupPending (data : object) (st : state) : option (string * PendingRequest) :=
  if truthy (data !! "requestId")
  then match data !! "requestId" with
       | Some (JStr requestId) =>
           match pendingRequests st !! requestId with
           | Some pending => Some (requestId, pending)
           | None => None
           end
       | _ => None
       end
  else None.

(** [response[key] = value] on an object whose own properties are data
    properties: the key [__proto__] creates no property. *)
Definition assign (key : string) (value : json) (response : object) : object :=
  if sets_prototype key then response else <[key := value]> response.

(** The properties an object inherits after [response.__proto__ = value]:
    those of [value] when it is an object, its elements under their indices
    when it is an array, and none otherwise ([null] leaves the object
    without prototype, any other value is ignored by the setter). *)
Definition inherited (value : jsval) : object :=
  match value with
  | Some (JObj fields) => fields
  | Some (JArr items) => indexed items
  | _ => ∅
  end.

(** The body built by the generic handler: [{requestId, clientId}], then
    every entry of the message except [requestId] assigned over it.  The
    result is the object as [response.error] and the [for ... in] of
    [removeSensitiveKeys] find it: its own properties, and behind them the
    properties it inherits when the message has a [__proto__] entry. *)
Definition resultResponse (client : Client) (pending : PendingRequest) (data : object)
    : object :=
  map_fold (λ key value response,
              if bool_decide (key = "requestId") then response
              else assign key value response)
           (obj_of [("requestId", data !! "requestId");
                    ("clientId", js_or (pr_clientId pending) (Some (JStr (c_id client))))])
           data
  ∪ inherited (data !! "__proto__").

(** The handler registered for [`${type}-result`]. *)
Definition resultHandler (client : Client) (data : object) (st : state) : state :=
  match lookupPending data st with
  | Some (requestId, pending) =>
      let response := resultResponse client pending data in
      let st1 :=
        if truthy (response !! "error")
        then set_responses (safeResponse (pr_res pending) 400 (Some (JObj response))) st
        else set_responses (safeResponse (pr_res pending) 200 (Some (JObj response))) st in
      set_pending (delete requestId) st1
  | None => st
  end.

(** [pending.uuid === responseUuid] *)
Definition uuid_matches (uuid : option string) (responseUuid : jsval) : bool :=
  match uuid, responseUuid with
  | None, None => true
  | Some u, Some (JStr r) => bool_decide (u = r)
  | _, _ => false
  end.

(** [pending.activeTab !== null ? Number(pending.activeTab) : null] *)
Inductive tabIndex : Type := TabNull | TabNaN | TabNum (n : Z).

Definition activeTabIndex_of (activeTab : option (option Z)) : tabIndex :=
  match activeTab with
  | Some None => TabNull
  | None => TabNaN
  | Some (Some n) => TabNum n
  end.

(** [res.send(body)] and the header writes throw once the headers have been
    sent; [None] is the thrown error. *)
Definition res_write (res : nat) (r : http_response) (rs : responses_t)
    : option responses_t :=
  match rs !! res with
  | Some _ => None
  | None => Some (<[res := r]> rs)
  end.

(** The handler registered for [get-sheet-response].  Its body runs in a
    [try]; an exception leaves the state as it was at the throw. *)
Definition getSheetResponseHandler `{Platform} (client : Client) (data : object)
    (st : state) : state :=
  let dd := data !! "data" in
  let responseUuid := js_or (data !! "uuid") (js_and dd (prop dd "uuid")) in
  (* the debug record calls [data.data.html.substring]; this throws for a
     truthy HTML value that is not a string *)
  let debugThrows :=
    truthy dd && truthy (prop dd "html")
    && match prop dd "html" with Some (JStr _) => false | _ => true end in
  if debugThrows then st else
  match lookupPending data st with
  | None => st
  | Some (requestId, pending) =>
      if bool_decide (pr_type pending = "get-sheet")
         && uuid_matches (pr_uuid pending) responseUuid
      then
        let dataError := js_or (data !! "error") (js_and dd (prop dd "error")) in
        if truthy dataError then
          let errorMsg := js_or dataError (Some (JStr "Unknown error")) in
          set_pending (delete requestId)
            (set_responses
               (safeResponse (pr_res pending) 404
                  (Some (JObj (obj_of [("requestId", data !! "requestId");
                                       ("clientId", pr_clientId pending);
                                       ("uuid", JStr <$> pr_uuid pending);
                                       ("error", errorMsg)]))))
               st)
        else
          let html := js_or (js_or (data !! "html") (js_and dd (prop dd "html")))
                            (Some (JStr "")) in
          let css := js_or (js_or (data !! "css") (js_and dd (prop dd "css")))
                           (Some (JStr "")) in
          let gameSystemId := js_or (c_systemId client) (Some (JStr "unknown")) in
          if bool_decide (pr_format pending = Some "json") then
            set_pending (delete requestId)
              (set_responses
                 (safeResponse (pr_res pending) 200
                    (Some (JObj (obj_of [("requestId", data !! "requestId");
                                         ("clientId", pr_clientId pending);
                                         ("uuid", JStr <$> pr_uuid pending);
                                         ("html", html);
                                         ("css", css)]))))
                 st)
          else
            let initialScale : option Z :=
              match pr_initialScale pending with
              | Some (Some n) => if (n =? 0)%Z then None else Some n
              | _ => None
              end in
            let activeTabIndex := activeTabIndex_of (pr_activeTab pending) in
            let html := match activeTabIndex with
                        | TabNum n => activateTab n html
                        | _ => html
                        end in
            let darkModeEnabled := default false (pr_darkMode pending) in
            let includeInteractiveJS :=
              bool_decide (initialScale = None)
              && match activeTabIndex with TabNull => true | _ => false end in
            let fullHtml :=
              returnHtmlTemplate responseUuid html css gameSystemId darkModeEnabled
                includeInteractiveJS
                (match activeTabIndex with TabNum n => n | _ => 0%Z end)
                (default 0%Z initialScale) pending in
            match res_write (pr_res pending) (mkResponse 200 [] (BHtml fullHtml))
                            (responses st) with
            | Some rs => set_pending (delete requestId) (set_responses (λ _, rs) st)
            | None => st
            end
      else st
  end.

(** [s.split(',')[1]]: the text between the first and the second comma;
    [None] when there is no comma. *)
Fixpoint upToComma (s : string) : string :=
  match s with
  | EmptyString => EmptyString
  | String c rest =>
      if bool_decide (c = ","%char) then EmptyString else String c (upToComma rest)
  end.

Fixpoint splitSecond (s : string) : option string :=
  match s with
  | EmptyString => None
  | String c rest =>
      if bool_decide (c = ","%char) then Some (upToComma rest) else splitSecond rest
  end.

(** [request.format || 'binary'] *)
Definition downloadFormat (request : PendingRequest) : string :=
  match pr_format request with
  | Some f => if bool_decide (f = "") then "binary" else f
  | None => "binary"
  end.

(** The decoded file: [Buffer.from(data.fileData.split(',')[1], 'base64')];
    [None] when the expression throws ([fileData] is not a string, or has no
    comma). *)
Definition decodedFile `{Platform} (data : object) : option (list N) :=
  match data !! "fileData" with
  | Some (JStr fileData) => base64_decode <$> splitSecond fileData
  | _ => None
  end.

(** The handler registered for [download-file-result].  An exception
    ([fileData] without [split] or without a comma, a header value that
    [setHeader] refuses, headers that have been sent) leaves the state as
    it was at the throw: the waiter deleted and nothing written. *)
Definition downloadFileResultHandler `{Platform} (client : Client) (data : object)
    (st : state) : state :=
  match lookupPending data st with
  | None => st
  | Some (requestId, request) =>
      let st1 := set_pending (delete requestId) st in
      if truthy (data !! "error") then
        set_responses
          (safeResponse (pr_res request) 500
             (Some (JObj (obj_of [("clientId", Some (JStr (c_id client)));
                                  ("requestId", data !! "requestId");
                                  ("error", data !! "error")]))))
          st1
      else
        let format := downloadFormat request in
        if bool_decide (format = "binary") || bool_decide (format = "raw") then
          match decodedFile data with
          | None => st1
          | Some buffer =>
              let headers :=
                [("Content-Type",
                  default JNull (js_or (data !! "mimeType")
                                       (Some (JStr "application/octet-stream"))));
                 ("Content-Disposition",
                  JStr ("attachment; filename=" +:+ dquote
                        +:+ js_String_val (data !! "filename") +:+ dquote));
                 ("Content-Length", JNum (Z.of_nat (length buffer)))] in
              if existsb (λ header, checkInvalidHeaderChar header.2) headers
              then st1
              else
                match res_write (pr_res request) (mkResponse 200 headers (BBytes buffer))
                                (responses st1) with
                | Some rs => set_responses (λ _, rs) st1
                | None => st1
                end
          end
        else
          match decodedFile data with
          | None => st1
          | Some buffer =>
              set_responses
                (safeResponse (pr_res request) 200
                   (Some (JObj (obj_of [("clientId", Some (JStr (c_id client)));
                                        ("requestId", data !! "requestId");
                                        ("success", Some (JBool true));
                                        ("path", data !! "path");
                                        ("filename", data !! "filename");
                                        ("mimeType", data !! "mimeType");
                                        ("fileData", data !! "fileData");
                                        ("size", Some (JNum (Z.of_nat (length buffer))))]))))
                st1
          end
  end.

(** The periodic sweep: every entry older than 30 seconds is deleted. *)
Definition sweepPending (now : Z) (st : state) : state :=
  set_pending (filter (λ kv, ¬ (now - pr_timestamp kv.2 > 30000)%Z)) st.

(** The period of the sweep, [setInterval(..., 10000)]. *)
Definition SWEEP_INTERVAL : Z := 10000.

(** The handlers installed by [setupMessageHandlers], by message type. *)
Inductive handler : Type :=
| ResultHandler (type : string)
| SheetHandler
| DownloadHandler.

Definition messageHandlers : list (string * handler) :=
  (map (λ type, (type +:+ "-result", ResultHandler type))
       (filter (λ type, type ∉ REQUEST_TYPES_WITH_SPECIAL_RESPONSE_HANDLERS)
               PENDING_REQUEST_TYPES)
   ++ [("get-sheet-response", SheetHandler);
       ("download-file-result", DownloadHandler)])%list.

Definition handlerFor (messageType : string) : option handler :=
  match list_find (λ h, h.1 = messageType) messageHandlers with
  | Some (_, (_, h)) => Some h
  | None => None
  end.

(** Modelled from the spec: the inbound dispatch of [ClientManager] (not
    among the sources): a message is routed by its [type] to the handler
    registered for that type; a message of any other type reaches no
    handler of the correlator. *)
Definition handleMessage `{Platform} (client : Client) (data : object) (st : state)
    : state :=
  match data !! "type" with
  | Some (JStr messageType) =>
      match handlerFor messageType with
      | Some (ResultHandler _) => resultHandler client data st
      | Some SheetHandler => getSheetResponseHandler client data st
      | Some DownloadHandler => downloadFileResultHandler client data st
      | None => st
      end
  | _ => st
  end.

(** ** Events of the relay *)

Inductive event : Type :=
| EvRequest (config : ApiRouteConfig) (req : Request) (res : nat) (now : Z)
| EvMessage (client : Client) (data : object)
| EvTimeout (requestId : string) (res : nat)
| EvSweep (now : Z).

Definition step `{Platform} (st : state) (ev : event) : state :=
  match ev with
  | EvRequest config req res now => (createApiRoute config req res now st).1
  | EvMessage client data => handleMessage client data st
  | EvTimeout requestId res => timeoutCallback requestId res st
  | EvSweep now => sweepPending now st
  end.

Definition run `{Platform} (st : state) (evs : list event) : state :=
  foldl step st evs.

(** ** The event loop: timers and the clock

    Handlers run at one instant; between two inputs the clock advances and
    the due timers fire in the order of their due times (first armed first
    among equals). *)

Inductive task : Type :=
| TimeoutTask (requestId : string) (res : nat)   (* a [setTimeout] callback *)
| SweepTask.                                     (* the [setInterval] sweep *)

Record world : Type := mkWorld {
  w_clock : Z;
  w_relay : state;
  w_agenda : list (Z * task);   (* armed timers, by due time *)
  w_nextRes : nat               (* the next fresh response handle *)
}.

Fixpoint schedule (due : Z) (t : task) (agenda : list (Z * task)) : list (Z * task) :=
  match agenda with
  | [] => [(due, t)]
  | (d, t') :: rest =>
      if (d <=? due)%Z then (d, t') :: schedule due t rest
      else (due, t) :: (d, t') :: rest
  end.

(** Running the task that is due at [d]; the sweep is armed again one
    interval later. *)
Definition runTask (d : Z) (t : task) (relay : state) (agenda : list (Z * task))
    : state * list (Z * task) :=
  match t with
  | TimeoutTask requestId res => (timeoutCallback requestId res relay, agenda)
  | SweepTask => (sweepPending d relay, schedule (d + SWEEP_INTERVAL) SweepTask agenda)
  end.

(** Advancing the clock to [target], firing what is due on the way. *)
Fixpoint advance (fuel : nat) (target : Z) (w : world) : option world :=
  match w_agenda w with
  | (d, t) :: rest =>
      if (d <=? target)%Z then
        match fuel with
        | O => None
        | S fuel' =>
            let '(relay, agenda) := runTask d t (w_relay w) rest in
            advance fuel' target (mkWorld d relay agenda (w_nextRes w))
        end
      else Some (mkWorld target (w_relay w) (w_agenda w) (w_nextRes w))
  | [] => Some (mkWorld target (w_relay w) [] (w_nextRes w))
  end.

(** How often the timer [(d, t)] fires up to [target]: a timeout once, when
    it is due; the sweep once at its due time and once per interval after
    that. *)
Definition firings (target : Z) (entry : Z * task) : nat :=
  if (entry.1 <=? target)%Z then
    match entry.2 with
    | TimeoutTask _ _ => 1
    | SweepTask => Z.to_nat ((target - entry.1) / SWEEP_INTERVAL) + 1
    end
  else 0.

Definition tasksDue (target : Z) (agenda : list (Z * task)) : nat :=
  sum_list (firings target <$> agenda).

Inductive input : Type :=
| InRequest (config : ApiRouteConfig) (req : Request)   (* an HTTP request arrives *)
| InMessage (client : Client) (data : object)           (* a peer frame arrives *)
| InWait (dt : Z).                                      (* [dt] milliseconds pass *)

Definition world_step `{Platform} (w : world) (i : input) : option world :=
  match i with
  | InRequest config req =>
      let res := w_nextRes w in
      let '(relay, armed) := createApiRoute config req res (w_clock w) (w_relay w) in
      let agenda :=
        match armed with
        | Some t => schedule (w_clock w + t_delay t)
                             (TimeoutTask (t_requestId t) (t_res t)) (w_agenda w)
        | None => w_agenda w
        end in
      Some (mkWorld (w_clock w) relay agenda (S res))
  | InMessage client data =>
      Some (mkWorld (w_clock w) (handleMessage client data (w_relay w))
                    (w_agenda w) (w_nextRes w))
  | InWait dt =>
      advance (tasksDue (w_clock w + dt) (w_agenda w)) (w_clock w + dt) w
  end.

Fixpoint world_run `{Platform} (w : world) (inputs : list input) : option world :=
  match inputs with
  | [] => Some w
  | i :: rest => world_step w i ≫= (λ w', world_run w' rest)
  end.

(** The relay as started at clock reading [t0]: no waiter, no response, the
    given client table, and the sweep armed by [setupMessageHandlers]. *)
Definition startRelay (t0 : Z) (clients : gmap string Client) : world :=
  mkWorld t0 (mkState ∅ clients ∅ []) [((t0 + SWEEP_INTERVAL)%Z, SweepTask)] 0.

(** ** The Foundry-side module (scripts/module.js) *)

Module Peer.

Definition MAX_ROLLS_STORED : Z := 20.
Definition MAX_CHAT_MESSAGES_STORED : Z := 100.

(** The parts of a Foundry chat message document read by the two
    [createChatMessage] hooks. *)
Record Die : Type := mkDie {
  die_faces : jsval;
  die_results : list (jsval * jsval)      (* result, active *)
}.

Record Roll : Type := mkRoll {
  roll_total : jsval;
  roll_formula : jsval;
  roll_isCritical : jsval;
  roll_isFumble : jsval;
  roll_dice : option (list Die)
}.

Record Message : Type := mkMessage {
  msg_id : string;
  msg_isRoll : bool;
  msg_rolls : option (list Roll);
  msg_user : option (jsval * jsval);      (* id, name *)
  msg_content : jsval;
  msg_flavor : jsval;
  msg_type : jsval;
  msg_speaker : jsval;
  msg_whisper : jsval;
  msg_blind : jsval
}.

(** A stored chat message. *)
Record chatData : Type := mkChatData {
  cd_id : string;
  cd_messageId : string;
  cd_user : jsval * jsval;
  cd_content : jsval;
  cd_flavor : jsval;
  cd_type : jsval;
  cd_timestamp : Z;
  cd_speaker : jsval;
  cd_whisper : jsval;
  cd_blind : jsval
}.

(** A stored roll. *)
Record rollData : Type := mkRollData {
  rd_id : string;
  rd_messageId : string;
  rd_user : jsval * jsval;
  rd_speaker : jsval;
  rd_flavor : jsval;
  rd_rollTotal : jsval;
  rd_formula : jsval;
  rd_isCritical : jsval;
  rd_isFumble : jsval;
  rd_dice : option (list Die);
  rd_timestamp : Z
}.

(** The module's storage and the frames it has sent to the relay. *)
Inductive frame : Type :=
| RollDataFrame (data : rollData)
| ChatMessagesResult (requestId : jsval) (messages : list chatData) (total : nat)
| RollsResult (requestId : jsval) (data : list rollData)
| LastRollResult (requestId : jsval) (data : option rollData).

Record storage : Type := mkStorage {
  recentRolls : list rollData;
  recentChatMessages : list chatData;
  sent : list frame
}.


(** [message.user?.id], [message.user?.name] *)
Definition userOf (message : Message) : jsval * jsval :=
  match msg_user message with
  | Some (id, name) => (id, name)
  | None => (None, None)
  end.

(** [list[existingIndex] = x] when [findIndex] finds the id, [unshift]
    otherwise. *)
Definition store {A} (id_of : A → string) (x : A) (l : list A) : list A :=
  match list_find (λ m, id_of m = id_of x) l with
  | Some (existingIndex, _) => <[existingIndex := x]> l
  | None => x :: l
  end.

(** [if (list.length > max) list.length = max]; assigning a negative
    length throws and leaves the list as it is. *)
Definition truncateTo {A} (max : Z) (l : list A) : list A :=
  if (Z.of_nat (length l) >? max)%Z
  then if (max <? 0)%Z then l else take (Z.to_nat max) l
  else l.

(** [game.settings.get(moduleId, SETTINGS.MAX_CHAT_MESSAGES_STORED) ||
    MAX_CHAT_MESSAGES_STORED] *)
Definition effectiveMax (maxSetting : Z) : Z :=
  if (maxSetting =? 0)%Z then MAX_CHAT_MESSAGES_STORED else maxSetting.

(** The [chatData] object built by the chat hook at clock reading [now]. *)
Definition chatDataOf (message : Message) (now : Z) : chatData :=
  mkChatData (msg_id message) (msg_id message) (userOf message)
    (msg_content message)
    (js_or (msg_flavor message) (Some (JStr "")))
    (js_or (msg_type message) (Some (JStr "player-chat")))
    now
    (msg_speaker message)
    (js_or (msg_whisper message) (Some (JArr [])))
    (js_or (msg_blind message) (Some (JBool false))).

(** The [rollData] object built by the roll hook from [message.rolls[0]]. *)
Definition rollDataOf (message : Message) (roll : Roll) (now : Z) : rollData :=
  mkRollData (msg_id message) (msg_id message) (userOf message)
    (msg_speaker message)
    (js_or (msg_flavor message) (Some (JStr "")))
    (roll_total roll) (roll_formula roll)
    (js_or (roll_isCritical roll) (Some (JBool false)))
    (js_or (roll_isFumble roll) (Some (JBool false)))
    (roll_dice roll)
    now.

(** The chat collection hook.  [maxSetting] is the value of the
    [maxChatMessagesStored] setting. *)
Definition collectChat (message : Message) (now : Z) (maxSetting : Z) (s : storage)
    : storage :=
  if msg_isRoll message then s else
  let maxStored := effectiveMax maxSetting in
  mkStorage (recentRolls s)
            (truncateTo maxStored
               (store cd_id (chatDataOf message now) (recentChatMessages s)))
            (sent s).

(** The roll collection hook; [connected] is [socketManager?.isConnected()]. *)
Definition collectRoll (message : Message) (now : Z) (connected : bool) (s : storage)
    : storage :=
  match msg_rolls message with
  | Some (roll :: _) =>
      if msg_isRoll message then
        let data := rollDataOf message roll now in
        mkStorage (truncateTo MAX_ROLLS_STORED (store rd_id data (recentRolls s)))
                  (recentChatMessages s)
                  (if connected then (sent s ++ [RollDataFrame data])%list else sent s)
      else s
  | _ => s
  end.

(** Both hooks are registered on [createChatMessage] and run in the order
    of their registration. *)
Definition createChatMessage (message : Message) (now : Z) (maxSetting : Z)
    (connected : bool) (s : storage) : storage :=
  collectRoll message now connected (collectChat message now maxSetting s).


(** [list.slice(0, limit)] for an integer [limit]. *)
Definition slice0 {A} (limit : Z) (l : list A) : list A :=
  if (limit <? 0)%Z
  then take (Z.to_nat (Z.max (Z.of_nat (length l) + limit) 0)) l
  else take (Z.to_nat limit) l.

(** [Array.prototype.sort] with a comparator: a stable sort.  [x] is put
    before the first element it does not have to follow. *)
Fixpoint insertBy {A} (cmp : A → A → Z) (x : A) (l : list A) : list A :=
  match l with
  | [] => [x]
  | y :: rest => if (cmp x y >? 0)%Z then y :: insertBy cmp x rest else x :: y :: rest
  end.

Definition sortBy {A} (cmp : A → A → Z) (l : list A) : list A :=
  foldr (insertBy cmp) [] l.

(** A request frame from the relay; [limit] is a number or absent (the
    relay coerces it with type [number]). *)
Record request : Type := mkRequestFrame {
  q_requestId : jsval;
  q_limit : option Z;
  q_sort : jsval;
  q_order : jsval
}.

(** [a || b] for an optional number. *)
Definition num_or (a : option Z) (b : Z) : Z :=
  match a with
  | Some n => if (n =? 0)%Z then b else n
  | None => b
  end.

(** The [chat-messages] handler; [limitSetting] is the value of the
    [chatMessagesLimit] setting. *)
Definition chatMessagesHandler (data : request) (limitSetting : Z) (s : storage)
    : frame :=
  let limit := num_or (q_limit data) (num_or (Some limitSetting) 50) in
  let sort := js_or (q_sort data) (Some (JStr "timestamp")) in
  let order := js_or (q_order data) (Some (JStr "desc")) in
  let messages := recentChatMessages s in
  let messages :=
    if is_string sort "timestamp"
    then sortBy (λ a b, if is_string order "desc"
                        then (cd_timestamp b - cd_timestamp a)%Z
                        else (cd_timestamp a - cd_timestamp b)%Z) messages
    else messages in
  ChatMessagesResult (q_requestId data) (slice0 limit messages) (length messages).

(** The [rolls] handler. *)
Definition rollsHandler (data : request) (s : storage) : frame :=
  RollsResult (q_requestId data) (slice0 (num_or (q_limit data) 20) (recentRolls s)).

(** The [last-roll] handler. *)
Definition lastRollHandler (data : request) (s : storage) : frame :=
  LastRollResult (q_requestId data) (head (recentRolls s)).





End Peer.

(** ** A concrete platform, to evaluate closed examples

    Decimal integers for [parseFloat], the standard base64 alphabet, a
    header check that refuses control characters, a JSDOM pass that leaves
    the HTML as it is, a template that returns the HTML it is given, and a
    [JSON.parse] that accepts the empty array. *)

Definition digit_value (c : ascii) : option Z :=
  let n := nat_of_ascii c in
  if (48 <=? n)%nat && (n <=? 57)%nat then Some (Z.of_nat (n - 48)) else None.

Fixpoint parse_digits (acc : Z) (s : string) : option Z :=
  match s with
  | EmptyString => Some acc
  | String c rest =>
      match digit_value c with
      | Some d => parse_digits (acc * 10 + d) rest
      | None => None
      end
  end.

Definition parse_decimal (s : string) : option Z :=
  match s with
  | EmptyString => None
  | String c rest =>
      if bool_decide (c = "-"%char)
      then match rest with
           | EmptyString => None
           | _ => Z.opp <$> parse_digits 0 rest
           end
      else parse_digits 0 s
  end.

Definition base64_value (c : ascii) : option N :=
  let n := N_of_ascii c in
  if (65 <=? n)%N && (n <=? 90)%N then Some (n - 65)%N
  else if (97 <=? n)%N && (n <=? 122)%N then Some (n - 71)%N
  else if (48 <=? n)%N && (n <=? 57)%N then Some (n + 4)%N
  else if (n =? 43)%N then Some 62%N
  else if (n =? 47)%N then Some 63%N
  else None.

Fixpoint sextets (s : string) : list N :=
  match s with
  | EmptyString => []
  | String c rest =>
      if bool_decide (c = "="%char) then []
      else match base64_value c with
           | Some v => v :: sextets rest
           | None => sextets rest
           end
  end.

Fixpoint octets (l : list N) : list N :=
  match l with
  | a :: b :: c :: d :: rest =>
      (a * 4 + b / 16)%N :: ((b mod 16) * 16 + c / 4)%N :: ((c mod 4) * 64 + d)%N
      :: octets rest
  | [a; b; c] => [(a * 4 + b / 16)%N; ((b mod 16) * 16 + c / 4)%N]
  | [a; b] => [(a * 4 + b / 16)%N]
  | _ => []
  end.

Definition htmlOf (html : jsval) : string :=
  match html with
  | Some (JStr s) => s
  | _ => ""
  end.

(** A character that a header value may hold: a tab, or any character
    from the space on except DEL. *)
Definition header_char (c : ascii) : bool :=
  let n := nat_of_ascii c in
  (n =? 9)%nat || ((32 <=? n)%nat && negb (n =? 127)%nat).

Fixpoint header_chars (s : string) : bool :=
  match s with
  | EmptyString => true
  | String c rest => header_char c && header_chars rest
  end.

Definition examplePlatform : Platform := {|
  parseFloat := parse_decimal;
  JSON_parse := λ s, if bool_decide (s = "[]") then Some (JArr []) else None;
  base64_decode := λ s, octets (sextets s);
  checkInvalidHeaderChar := λ value, negb (header_chars (js_String value));
  activateTab := λ _ html, html;
  returnHtmlTemplate := λ _ html _ _ _ _ _ _ _, htmlOf html
|}.

(** ** Scenario values

    The peer [c1], the relay started at clock reading 1000 with [c1]
    connected, and the state in which one [POST /roll] waits for its
    answer. *)

Definition peer_c1 : Client := mkClient "c1" (Some (JStr "dnd5e")) true.

Definition relay_with_c1 : world := startRelay 1000 {["c1" := peer_c1]}.

(** [POST /roll?clientId=c1] with body [{formula: "1d20"}]. *)
Definition roll_request : Request :=
  mkRequest (Some {["formula" := JStr "1d20"]}) (Some {["clientId" := JStr "c1"]}) None.

Definition roll_waiter : PendingRequest :=
  mkPending 0 "roll" (Some (JStr "c1")) None None None None 1000 None None None None.

Definition roll_frame : object :=
  {["type" := JStr "roll"; "requestId" := JStr "roll_1000";
    "formula" := JStr "1d20"; "data" := JObj ∅]}.

Definition roll_waiting : state :=
  mkState {["roll_1000" := roll_waiter]} {["c1" := peer_c1]} ∅ [("c1", roll_frame)].

(** ** Predicates used to state the properties *)

(** A route whose configuration overrides the timeout ([timeout] is a
    field of [ApiRouteConfig]; none of the routes above sets it). *)
Definition route_with_timeout (t : Z) : ApiRouteConfig :=
  mkConfig "search" [mkParam "clientId" [FromQuery] (Some TString)] []
           (Some t) None None None.

(** [GET ...?clientId=c1] *)
Definition query_c1 : Request :=
  mkRequest None (Some {["clientId" := JStr "c1"]}) None.

(** What a run leaves behind: the table, the responses and the armed
    timers. *)
Definition observe (w : world)
    : gmap string PendingRequest * responses_t * list (Z * task) :=
  (pendingRequests (w_relay w), responses (w_relay w), w_agenda w).

(** The body of the timeout response. *)
Definition timedOut : http_response :=
  mkResponse 408 [] (BJson (Some (JObj {["error" := JStr "Request timed out"]}))).

(** A waiter of a [download-file] request with the given [format], the
    state in which it waits, and the peer's answer for the file [x.png]. *)
Definition download_waiter (format : option string) : PendingRequest :=
  mkPending 0 "download-file" (Some (JStr "c1")) None None None None 1000
            format None None None.

Definition download_waiting (format : option string) : state :=
  mkState {["download-file_1000" := download_waiter format]} {["c1" := peer_c1]} ∅ [].

Definition png_result : object :=
  {["type" := JStr "download-file-result";
    "requestId" := JStr "download-file_1000";
    "fileData" := JStr "data:image/png;base64,iVBORw0KGgo=";
    "filename" := JStr "x.png";
    "mimeType" := JStr "image/png"]}.



(** The one source each of the endpoints declares for [clientId]: the
    body for [POST /chat], the query string for the others. *)
Definition clientIdSource (config : ApiRouteConfig) : source :=
  if bool_decide (cfg_type config = "chat") then FromBody else FromQuery.

(** [a || b] where [b] is a value: the value of the expression. *)
Definition or_default (a : jsval) (b : json) : json :=
  match a with
  | Some v => if truthy a then v else b
  | None => b
  end.

(** The path names no sensitive key and no [__proto__]. *)
Definition path_kept (p : list seg) : bool :=
  forallb (λ s, negb (seg_sensitive s) && negb (seg_proto s)) p.


(** A JSON body carries no sensitive key at any depth.  Nothing is required
    of an HTML document or of file bytes: they are written as they are
    produced, and do not pass the sanitiser. *)
Definition clean_body (b : body) : Prop :=
  match b with
  | BJson (Some j) => no_sensitive_key j ∧ no_proto_key j
  | _ => True
  end.

(** Every response present in [rs'] was present in [rs] or has a clean
    body. *)
Definition written_clean (rs rs' : responses_t) : Prop :=
  ∀ res r, rs' !! res = Some r → rs !! res = Some r ∨ clean_body (r_body r).

(** The event is a completion attempt for the request ID: a peer message
    that carries it, or the timeout armed for it. *)
Definition completes (ev : event) (requestId : string) : Prop :=
  match ev with
  | EvMessage _ data => data !! "requestId" = Some (JStr requestId)
  | EvTimeout rid _ => rid = requestId
  | _ => False
  end.

(** The event is an HTTP request that is given this request ID. *)
Definition registers (ev : event) (requestId : string) : Prop :=
  match ev with
  | EvRequest config _ _ now => requestId_of (cfg_type config) now = requestId
  | _ => False
  end.

(** The step removes the waiter of the request ID from the table. *)
Definition took `{Platform} (requestId : string) (st : state) (ev : event) : bool :=
  bool_decide (is_Some (pendingRequests st !! requestId)
               ∧ pendingRequests (step st ev) !! requestId = None).

(** The number of steps of a run that remove the waiter. *)
Fixpoint removals `{Platform} (requestId : string) (st : state) (evs : list event) : nat :=
  match evs with
  | [] => 0
  | ev :: rest =>
      (if took requestId st ev then 1 else 0) + removals requestId (step st ev) rest
  end.


(** The waiter [pending] of the request ID has been taken from [st]: it
    was in the table and is deleted, and at most one response has been
    written, to the handle [res], which had none. *)
Definition taken (requestId : string) (pending : PendingRequest) (res : nat)
    (st st' : state) : Prop :=
  pendingRequests st !! requestId = Some pending
  ∧ pendingRequests st' = delete requestId (pendingRequests st)
  ∧ clients st' = clients st ∧ outbox st' = outbox st
  ∧ (responses st' = responses st
     ∨ ∃ r, responses st !! res = None ∧ responses st' = <[res := r]> (responses st)).

(** What a peer message can do: nothing, or take the waiter registered
    under the request ID it carries and answer on the waiter's handle. *)
Definition message_outcome (data : object) (st st' : state) : Prop :=
  st' = st
  ∨ ∃ requestId pending,
      data !! "requestId" = Some (JStr requestId)
      ∧ taken requestId pending (pr_res pending) st st'.

(** The events that leave alone the waiter registered under [requestId]
    at [timestamp] with the response handle [res]: requests that are given
    another ID and another handle, peer messages that carry another ID,
    other timeouts, and sweeps while the waiter is at most 30 seconds
    old. *)
Definition leaves_alone (requestId : string) (res : nat) (timestamp : Z) (ev : event)
    : Prop :=
  match ev with
  | EvRequest config _ res' now =>
      requestId_of (cfg_type config) now ≠ requestId ∧ res' ≠ res
  | EvMessage _ data => data !! "requestId" ≠ Some (JStr requestId)
  | EvTimeout requestId' res' => requestId' ≠ requestId ∧ res' ≠ res
  | EvSweep now => (now - timestamp ≤ 30000)%Z
  end.

(** The waiter is in the table, its response has not been written, and no
    other waiter has its response handle. *)
Definition waiting (requestId : string) (pending : PendingRequest) (st : state) : Prop :=
  pendingRequests st !! requestId = Some pending
  ∧ responses st !! pr_res pending = None
  ∧ (∀ k p, pendingRequests st !! k = Some p → pr_res p = pr_res pending → k = requestId).

(** The table and the response handles of a world are in order: every
    waiter's response is unwritten and its handle is one that has been
    given out; two waiters never share a handle; the handle of an armed
    timeout belongs to no waiter other than the one under the timer's
    request ID; no response has been written to a handle that has not been
    given out; and no waiter is registered under the empty ID. *)
Definition handles_ok (w : world) : Prop :=
  (∀ k p, pendingRequests (w_relay w) !! k = Some p →
          responses (w_relay w) !! pr_res p = None ∧ (pr_res p < w_nextRes w)%nat)
  ∧ (∀ k p k' p',
       pendingRequests (w_relay w) !! k = Some p →
       pendingRequests (w_relay w) !! k' = Some p' →
       pr_res p = pr_res p' → k = k')
  ∧ (∀ d requestId res,
       (d, TimeoutTask requestId res) ∈ w_agenda w →
       (res < w_nextRes w)%nat
       ∧ ∀ k p, pendingRequests (w_relay w) !! k = Some p → pr_res p = res → k = requestId)
  ∧ (∀ res, (w_nextRes w ≤ res)%nat → responses (w_relay w) !! res = None)
  ∧ (∀ k p, pendingRequests (w_relay w) !! k = Some p → k ≠ "").

(** ** Measures and predicates for the further properties *)

(** The number of nodes of a JSON value. *)
Fixpoint json_size (j : json) : nat :=
  match j with
  | JArr items => S (sum_list (map json_size items))
  | JObj fields => S (map_fold (λ _ v acc, json_size v + acc) 0 fields)
  | _ => 1
  end.

(** The value has the JavaScript type a [ParamDef] declares: [typeof] is
    [number], [boolean], [string]; [Array.isArray]; an object that is
    neither an array nor [null]. *)
Definition has_type (ty : paramType) (v : json) : bool :=
  match ty, v with
  | TNumber, JNum _ => true
  | TBoolean, JBool _ => true
  | TArray, JArr _ => true
  | TString, JStr _ => true
  | TObject, JObj _ => true
  | _, _ => false
  end.

(** [allParamDefs] of a route and the names it declares. *)
Definition allParamDefs (config : ApiRouteConfig) : list ParamDef :=
  (cfg_requiredParams config ++ cfg_optionalParams config)%list.

Definition paramNames (config : ApiRouteConfig) : list string :=
  p_name <$> allParamDefs config.

(** [v === undefined || v === null] *)
Definition nullish (v : jsval) : bool :=
  match v with
  | None | Some JNull => true
  | _ => false
  end.

(** ** The timers of the waiters *)

(** The tasks fired while the clock advances to [target], each with its
    due time and the relay state it finds (the steps are those of
    [advance]). *)
Fixpoint firedTasks (fuel : nat) (target : Z) (w : world) : list (Z * task * state) :=
  match w_agenda w with
  | (d, t) :: rest =>
      if (d <=? target)%Z then
        match fuel with
        | O => []
        | S fuel' =>
            (d, t, w_relay w)
            :: firedTasks fuel' target
                 (mkWorld d (runTask d t (w_relay w) rest).1
                          (runTask d t (w_relay w) rest).2 (w_nextRes w))
        end
      else []
  | [] => []
  end.

(** The timeout of the route of a request is at most [bound] (no bound
    for [None]). *)
Definition within (bound : option Z) (i : input) : Prop :=
  match i, bound with
  | InRequest config _, Some b => (timeoutDuration config ≤ b)%Z
  | _, _ => True
  end.

(** The agenda is in the order of the due times, and every waiter of the
    table has its own timeout armed: a timer for its request ID and its
    response handle, due at most [bound] after the waiter's timestamp. *)
Definition timers_cover (bound : option Z) (w : world) : Prop :=
  StronglySorted (λ a b : Z * task, (a.1 ≤ b.1)%Z) (w_agenda w)
  ∧ ∀ k p, pendingRequests (w_relay w) !! k = Some p →
      ∃ d, (d, TimeoutTask k (pr_res p)) ∈ w_agenda w
           ∧ match bound with
             | Some b => (d ≤ pr_timestamp p + b)%Z
             | None => True
             end.

(** ** The expressions of the [get-sheet-response] handler *)

(** [data.uuid || (data.data && data.data.uuid)] *)
Definition sheetUuid (data : object) : jsval :=
  js_or (data !! "uuid") (js_and (data !! "data") (prop (data !! "data") "uuid")).

(** [data.error || (data.data && data.data.error)] *)
Definition sheetError (data : object) : jsval :=
  js_or (data !! "error") (js_and (data !! "data") (prop (data !! "data") "error")).

(** [data.html || (data.data && data.data.html) || ''], and the same for
    [css]. *)
Definition sheetHtml (data : object) : jsval :=
  js_or (js_or (data !! "html") (js_and (data !! "data") (prop (data !! "data") "html")))
        (Some (JStr "")).

Definition sheetCss (data : object) : jsval :=
  js_or (js_or (data !! "css") (js_and (data !! "data") (prop (data !! "data") "css")))
        (Some (JStr "")).

(** The debug record of the handler throws: [data.data.html] is truthy and
    has no [substring]. *)
Definition sheetDebugThrows (data : object) : bool :=
  truthy (data !! "data") && truthy (prop (data !! "data") "html")
  && match prop (data !! "data") "html" with Some (JStr _) => false | _ => true end.

(** [pending.type === 'get-sheet' && pending.uuid === responseUuid] *)
Definition sheetMatches (pending : PendingRequest) (data : object) : bool :=
  bool_decide (pr_type pending = "get-sheet")
  && uuid_matches (pr_uuid pending) (sheetUuid data).

(** [pending.initialScale || null]; [None] is [null]. *)
Definition sheetScale (pending : PendingRequest) : option Z :=
  match pr_initialScale pending with
  | Some (Some n) => if (n =? 0)%Z then None else Some n
  | _ => None
  end.

(** ** Headless sessions: [cleanupInactiveSessions] (routes/api.ts) *)

(** An entry of [apiKeyToSession]. *)
Record Session : Type := mkSession {
  sessionId : string;
  session_clientId : string;
  lastActivity : Z
}.

(** The two module-level maps, and the browsers on which [close()] has been
    called (a browser is a handle). *)
Record sessions : Type := mkSessions {
  apiKeyToSession : gmap string Session;
  browserSessions : gmap string nat;
  closedBrowsers : list nat
}.

Definition HEADLESS_SESSION_TIMEOUT : Z := 10 * 60 * 1000.

(** The body of the loop, for one entry of [apiKeyToSession]. *)
Definition cleanupSession (now : Z) (apiKey : string) (session : Session)
    (s : sessions) : sessions :=
  if (now - lastActivity session >? HEADLESS_SESSION_TIMEOUT)%Z then
    let s1 :=
      match browserSessions s !! sessionId session with
      | Some browser =>
          mkSessions (apiKeyToSession s)
                     (delete (sessionId session) (browserSessions s))
                     (closedBrowsers s ++ [browser])
      | None => s
      end in
    mkSessions (delete apiKey (apiKeyToSession s1)) (browserSessions s1)
               (closedBrowsers s1)
  else s.

(** [cleanupInactiveSessions()] at clock reading [now]: the loop over the
    entries of [apiKeyToSession]. *)
Definition cleanupInactiveSessions (now : Z) (s : sessions) : sessions :=
  map_fold (cleanupSession now) s (apiKeyToSession s).

(** The session has been inactive for more than ten minutes. *)
Definition inactive (now : Z) (session : Session) : bool :=
  (now - lastActivity session >? HEADLESS_SESSION_TIMEOUT)%Z.

(** ** The primary GM of the Foundry-side module (scripts/module.js)

    [checkIfPrimaryGM] of [WebSocketManager].  A user of [game.users] has
    an id (a string), a role and the [active] and [isGM] flags;
    [localeCompare] is the collation of the platform. *)

Record User : Type := mkUser {
  u_id : string;
  u_role : Z;
  u_active : bool;
  u_isGM : bool
}.

(** [game.user?.isGM && game.user?.role === 4]; [None] is no user. *)
Definition isFullGM (user : option User) : bool :=
  match user with
  | Some u => u_isGM u && (u_role u =? 4)%Z
  | None => false
  end.

(** [a.id || ""] *)
Definition id_or_empty (u : User) : string :=
  if bool_decide (u_id u = "") then "" else u_id u.

(** [game.users?.filter(u => u.role === 4 && u.active) || []]; [None] is
    no user collection. *)
Definition activeGMs (users : option (list User)) : list User :=
  match users with
  | Some us => filter (λ u, u_role u = 4%Z ∧ u_active u = true) us
  | None => []
  end.

(** The comparator of the sort:
    [(a, b) => (a.id || "").localeCompare(b.id || "")]. *)
Definition byId (localeCompare : string → string → Z) (a b : User) : Z :=
  localeCompare (id_or_empty a) (id_or_empty b).

Definition checkIfPrimaryGM (localeCompare : string → string → Z)
    (user : option User) (users : option (list User)) : bool :=
  if negb (isFullGM user) then false else
  match user with
  | None => false
  | Some current =>
      let currentUserId := u_id current in
      let activeGMs := activeGMs users in
      if (length activeGMs =? 0)%nat then false else
      let sortedGMs := Peer.sortBy (byId localeCompare) activeGMs in
      match head sortedGMs with
      | Some first => bool_decide (u_id first = currentUserId)
      | None => false
      end
  end.

(** A comparator that [Array.prototype.sort] can rely on: the sign of
    [cmp b a] is the opposite of the sign of [cmp a b], and "not after"
    is transitive. *)
Definition consistent {A} (cmp : A → A → Z) : Prop :=
  (∀ a b, (cmp a b > 0)%Z → (cmp b a ≤ 0)%Z)
  ∧ (∀ a b c, (cmp a b ≤ 0)%Z → (cmp b c ≤ 0)%Z → (cmp a c ≤ 0)%Z).

(** The comparators of the [chat-messages] handler, by the effective
    [order]. *)
Definition byTimestamp (order : jsval) (a b : Peer.chatData) : Z :=
  if is_string order "desc"
  then (Peer.cd_timestamp b - Peer.cd_timestamp a)%Z
  else (Peer.cd_timestamp a - Peer.cd_timestamp b)%Z.

(** ** The WebSocket manager of the module (scripts/module.js)

    [WebSocketManager], with the browser around it made explicit: the
    sockets it has created with their [readyState], the armed timers, and
    the frames written.  Sockets and timers are handles.  Settings are
    integers.  [fullGM] is [game.user?.isGM && game.user?.role === 4], and
    [urlOk] says that [new URL(...)] and [new WebSocket(...)] do not
    throw. *)

Module Manager.

Inductive readyState : Type := CONNECTING | OPEN | CLOSING | CLOSED.

#[global] Instance readyState_eq_dec : EqDecision readyState.
Proof. solve_decision. Defined.

(** [WSCloseCodes.Normal] *)
Definition Normal : Z := 1000.

Record settings : Type := mkSettings {
  pingIntervalSetting : Z;      (* SETTINGS.PING_INTERVAL, in seconds *)
  reconnectMaxAttempts : Z;     (* SETTINGS.RECONNECT_MAX_ATTEMPTS *)
  reconnectBaseDelay : Z        (* SETTINGS.RECONNECT_BASE_DELAY, in ms *)
}.

Inductive timerKind : Type :=
| ConnectTimeout                 (* the 5000 ms timer of a [connect] call *)
| ReconnectTimer (delay : Z)     (* armed by [scheduleReconnect] *)
| PingInterval (intervalMs : Z). (* armed by [onOpen] *)

(** The fields of the manager that change. *)
Record manager : Type := mkManager {
  socket : option nat;
  reconnectTimer : option nat;
  reconnectAttempts : nat;
  pingInterval : option nat;
  isConnecting : bool;
  isPrimaryGM : bool
}.

Record browser : Type := mkBrowser {
  this : manager;
  readyStates : gmap nat readyState;   (* the sockets created *)
  connectTimer : gmap nat nat;         (* the [timeout] the listeners of a socket clear *)
  timers : gmap nat timerKind;         (* the armed timers *)
  fresh : nat;                         (* the next handle *)
  written : list (nat * object)        (* [socket.send(JSON.stringify(data))] *)
}.

Definition set_this (f : manager → manager) (b : browser) : browser :=
  mkBrowser (f (this b)) (readyStates b) (connectTimer b) (timers b) (fresh b) (written b).

(** [clearTimeout(id)], [clearInterval(id)] *)
Definition clearTimer (id : nat) (b : browser) : browser :=
  mkBrowser (this b) (readyStates b) (connectTimer b) (delete id (timers b))
            (fresh b) (written b).

(** [setTimeout] / [setInterval]: the new timer and its handle. *)
Definition setTimer (kind : timerKind) (b : browser) : nat * browser :=
  (fresh b,
   mkBrowser (this b) (readyStates b) (connectTimer b)
             (<[fresh b := kind]> (timers b)) (S (fresh b)) (written b)).

(** [socket.close()]: the socket starts closing unless it is closed. *)
Definition closeSocket (n : nat) (b : browser) : browser :=
  mkBrowser (this b)
            (match readyStates b !! n with
             | Some CLOSED | None => readyStates b
             | Some _ => <[n := CLOSING]> (readyStates b)
             end)
            (connectTimer b) (timers b) (fresh b) (written b).

Definition readyStateOf (b : browser) : option readyState :=
  socket (this b) ≫= (λ n, readyStates b !! n).

(** [isConnected()] *)
Definition isConnected (b : browser) : bool :=
  bool_decide (readyStateOf b = Some OPEN).

(** [send(data)] *)
Definition send (data : object) (b : browser) : bool * browser :=
  match socket (this b) with
  | Some n =>
      if bool_decide (readyStates b !! n = Some OPEN)
      then (true,
            mkBrowser (this b) (readyStates b) (connectTimer b) (timers b) (fresh b)
                      (written b ++ [(n, data)]))
      else (false, b)
  | None => (false, b)
  end.

(** [Math.min(30000, baseDelay * Math.pow(2, this.reconnectAttempts - 1))]
    for the attempt counter after its increment, [S n]. *)
Definition reconnectDelay (cfg : settings) (n : nat) : Z :=
  Z.min 30000 (reconnectBaseDelay cfg * 2 ^ Z.of_nat n).

(** [scheduleReconnect()] *)
Definition scheduleReconnect (cfg : settings) (b : browser) : browser :=
  match reconnectTimer (this b) with
  | Some _ => b
  | None =>
      let attempts := S (reconnectAttempts (this b)) in
      if (Z.of_nat attempts >? reconnectMaxAttempts cfg)%Z then
        set_this (λ m, mkManager (socket m) (reconnectTimer m) 0 (pingInterval m)
                                 (isConnecting m) (isPrimaryGM m)) b
      else
        let delay := reconnectDelay cfg (reconnectAttempts (this b)) in
        let '(id, b1) := setTimer (ReconnectTimer delay) b in
        set_this (λ m, mkManager (socket m) (Some id) attempts (pingInterval m)
                                 (isConnecting m) (isPrimaryGM m)) b1
  end.

(** [connect()] *)
Definition connect (cfg : settings) (fullGM urlOk : bool) (b : browser) : browser :=
  if negb fullGM then b
  else if negb (isPrimaryGM (this b)) then b
  else if isConnecting (this b) then b
  else if bool_decide (readyStateOf b = Some CONNECTING)
          || bool_decide (readyStateOf b = Some OPEN) then b
  else
    let b1 := set_this (λ m, mkManager (socket m) (reconnectTimer m) (reconnectAttempts m)
                                       (pingInterval m) true (isPrimaryGM m)) b in
    if urlOk then
      let n := fresh b1 in
      let b2 := mkBrowser
                  (mkManager (Some n) (reconnectTimer (this b1))
                             (reconnectAttempts (this b1)) (pingInterval (this b1))
                             (isConnecting (this b1)) (isPrimaryGM (this b1)))
                  (<[n := CONNECTING]> (readyStates b1)) (connectTimer b1)
                  (timers b1) (S n) (written b1) in
      let '(timeout, b3) := setTimer ConnectTimeout b2 in
      mkBrowser (this b3) (readyStates b3) (<[n := timeout]> (connectTimer b3))
                (timers b3) (fresh b3) (written b3)
    else
      scheduleReconnect cfg
        (set_this (λ m, mkManager (socket m) (reconnectTimer m) (reconnectAttempts m)
                                  (pingInterval m) false (isPrimaryGM m)) b1).

(** The callback of the 5000 ms timer of [connect]. *)
Definition connectTimedOut (cfg : settings) (b : browser) : browser :=
  match socket (this b) with
  | Some n =>
      if bool_decide (readyStates b !! n = Some CONNECTING) then
        scheduleReconnect cfg
          (set_this (λ m, mkManager None (reconnectTimer m) (reconnectAttempts m)
                                    (pingInterval m) false (isPrimaryGM m))
                    (closeSocket n b))
      else b
  | None => b
  end.

(** [disconnect()] *)
Definition disconnect (b : browser) : browser :=
  let b1 := match socket (this b) with
            | Some n =>
                set_this (λ m, mkManager None (reconnectTimer m) (reconnectAttempts m)
                                         (pingInterval m) (isConnecting m) (isPrimaryGM m))
                         (closeSocket n b)
            | None => b
            end in
  let b2 := match reconnectTimer (this b1) with
            | Some id =>
                set_this (λ m, mkManager (socket m) None (reconnectAttempts m)
                                         (pingInterval m) (isConnecting m) (isPrimaryGM m))
                         (clearTimer id b1)
            | None => b1
            end in
  let b3 := match pingInterval (this b2) with
            | Some id =>
                set_this (λ m, mkManager (socket m) (reconnectTimer m) (reconnectAttempts m)
                                         None (isConnecting m) (isPrimaryGM m))
                         (clearTimer id b2)
            | None => b2
            end in
  set_this (λ m, mkManager (socket m) (reconnectTimer m) 0 (pingInterval m)
                           false (isPrimaryGM m)) b3.

Definition ping : object := {["type" := JStr "ping"]}.

(** [onOpen()] *)
Definition onOpen (cfg : settings) (b : browser) : browser :=
  let b1 := set_this (λ m, mkManager (socket m) (reconnectTimer m) 0 (pingInterval m)
                                     false (isPrimaryGM m)) b in
  let b2 := (send ping b1).2 in
  let intervalMs := (pingIntervalSetting cfg * 1000)%Z in
  let b3 := match pingInterval (this b2) with
            | Some id => clearTimer id b2
            | None => b2
            end in
  let '(id, b4) := setTimer (PingInterval intervalMs) b3 in
  set_this (λ m, mkManager (socket m) (reconnectTimer m) (reconnectAttempts m)
                           (Some id) (isConnecting m) (isPrimaryGM m)) b4.

(** [onClose(event)], for the close code of the event. *)
Definition onClose (cfg : settings) (code : Z) (b : browser) : browser :=
  let b1 := set_this (λ m, mkManager None (reconnectTimer m) (reconnectAttempts m)
                                     (pingInterval m) false (isPrimaryGM m)) b in
  let b2 := match pingInterval (this b1) with
            | Some id =>
                set_this (λ m, mkManager (socket m) (reconnectTimer m) (reconnectAttempts m)
                                         None (isConnecting m) (isPrimaryGM m))
                         (clearTimer id b1)
            | None => b1
            end in
  if negb (code =? Normal)%Z && isPrimaryGM (this b2)
  then scheduleReconnect cfg b2
  else b2.

(** [onError(event)] *)
Definition onError (b : browser) : browser :=
  set_this (λ m, mkManager (socket m) (reconnectTimer m) (reconnectAttempts m)
                           (pingInterval m) false (isPrimaryGM m)) b.

(** The callback of the timer of [scheduleReconnect]. *)
Definition reconnectFired (cfg : settings) (fullGM urlOk : bool) (b : browser) : browser :=
  let b1 := set_this (λ m, mkManager (socket m) None (reconnectAttempts m)
                                     (pingInterval m) (isConnecting m) (isPrimaryGM m)) b in
  if isPrimaryGM (this b1) then connect cfg fullGM urlOk b1
  else set_this (λ m, mkManager (socket m) (reconnectTimer m) 0 (pingInterval m)
                                (isConnecting m) (isPrimaryGM m)) b1.

(** The callback of the ping interval. *)
Definition pingFired (b : browser) : browser :=
  if isConnected b then (send ping b).2 else b.

(** [reevaluatePrimaryGM()], where [primary] is what [checkIfPrimaryGM()]
    returns. *)
Definition reevaluatePrimaryGM (cfg : settings) (fullGM urlOk primary : bool)
    (b : browser) : browser :=
  let wasPrimary := isPrimaryGM (this b) in
  let b1 := set_this (λ m, mkManager (socket m) (reconnectTimer m) (reconnectAttempts m)
                                     (pingInterval m) (isConnecting m) primary) b in
  if bool_decide (wasPrimary = primary) then b1
  else if primary && negb (isConnected b1) then connect cfg fullGM urlOk b1
  else if negb primary && isConnected b1 then disconnect b1
  else b1.

(** What happens to the manager: calls of its methods, the events of the
    sockets it created (the listeners registered by [connect] clear the
    5000 ms timer of their socket first), and timers firing. *)
Inductive event : Type :=
| Connect (fullGM urlOk : bool)
| Disconnect
| UsersChanged (fullGM urlOk primary : bool)
| SocketOpen (n : nat)
| SocketClose (n : nat) (code : Z)
| SocketError (n : nat)
| TimerFires (id : nat) (fullGM urlOk : bool).

Definition clearConnectTimer (n : nat) (b : browser) : browser :=
  match connectTimer b !! n with
  | Some timeout => clearTimer timeout b
  | None => b
  end.

Definition setReadyState (n : nat) (r : readyState) (b : browser) : browser :=
  mkBrowser (this b) (<[n := r]> (readyStates b)) (connectTimer b) (timers b)
            (fresh b) (written b).

Definition step (cfg : settings) (b : browser) (ev : event) : browser :=
  match ev with
  | Connect fullGM urlOk => connect cfg fullGM urlOk b
  | Disconnect => disconnect b
  | UsersChanged fullGM urlOk primary => reevaluatePrimaryGM cfg fullGM urlOk primary b
  | SocketOpen n =>
      if bool_decide (is_Some (readyStates b !! n))
      then onOpen cfg (clearConnectTimer n (setReadyState n OPEN b))
      else b
  | SocketClose n code =>
      if bool_decide (is_Some (readyStates b !! n))
      then onClose cfg code (clearConnectTimer n (setReadyState n CLOSED b))
      else b
  | SocketError n =>
      if bool_decide (is_Some (readyStates b !! n))
      then onError (clearConnectTimer n b)
      else b
  | TimerFires id fullGM urlOk =>
      match timers b !! id with
      | Some ConnectTimeout => connectTimedOut cfg (clearTimer id b)
      | Some (ReconnectTimer _) => reconnectFired cfg fullGM urlOk (clearTimer id b)
      | Some (PingInterval _) => pingFired b
      | None => b
      end
  end.

Definition run (cfg : settings) (b : browser) (evs : list event) : browser :=
  foldl (step cfg) b evs.

(** The manager as its constructor leaves it; [primary] is what
    [checkIfPrimaryGM()] returns. *)
Definition start (primary : bool) : browser :=
  mkBrowser (mkManager None None 0 None false primary) ∅ ∅ ∅ 0 [].

(** The timer fields of the manager and the armed timers agree: a
    reconnect timer is armed exactly when [reconnectTimer] holds its
    handle, and a ping interval exactly when [pingInterval] does.  Every
    handle in use is below [fresh], the [timeout] of a socket is no
    reconnect timer and no ping interval, no reconnect delay is above 30
    seconds, and the attempt counter is within the configured maximum. *)
Definition timers_ok (cfg : settings) (b : browser) : Prop :=
  (∀ id, (∃ delay, timers b !! id = Some (ReconnectTimer delay))
         ↔ reconnectTimer (this b) = Some id)
  ∧ (∀ id, (∃ ms, timers b !! id = Some (PingInterval ms))
           ↔ pingInterval (this b) = Some id)
  ∧ (∀ id, is_Some (timers b !! id) → id < fresh b)
  ∧ (∀ n timeout, connectTimer b !! n = Some timeout →
       timeout < fresh b
       ∧ (timers b !! timeout = None ∨ timers b !! timeout = Some ConnectTimeout))
  ∧ (∀ id delay, timers b !! id = Some (ReconnectTimer delay) → (delay ≤ 30000)%Z)
  ∧ (Z.of_nat (reconnectAttempts (this b)) ≤ Z.max 0 (reconnectMaxAttempts cfg))%Z.

End Manager.

(** ** The module on the wire (scripts/module.js)

    The objects the hooks and the handlers of the module build, as the
    JSON that [JSON.stringify] makes of them (a property whose value is
    [undefined] is left out), and [onMessage] with the handlers that
    [Router.reflect] registers. *)

Module Wire.
Import Peer.

(** [{id: message.user?.id, name: message.user?.name}] *)
Definition user_json (u : jsval * jsval) : json :=
  JObj (obj_of [("id", u.1); ("name", u.2)]).

(** [{faces: d.faces, results: d.results.map(r => ({result, active}))}] *)
Definition die_json (d : Die) : json :=
  JObj (obj_of
    [("faces", die_faces d);
     ("results",
      Some (JArr (map (λ r : jsval * jsval,
                         JObj (obj_of [("result", r.1); ("active", r.2)]))
                      (die_results d))))]).

Definition rollData_json (r : rollData) : json :=
  JObj (obj_of
    [("id", Some (JStr (rd_id r)));
     ("messageId", Some (JStr (rd_messageId r)));
     ("user", Some (user_json (rd_user r)));
     ("speaker", rd_speaker r);
     ("flavor", rd_flavor r);
     ("rollTotal", rd_rollTotal r);
     ("formula", rd_formula r);
     ("isCritical", rd_isCritical r);
     ("isFumble", rd_isFumble r);
     ("dice", (λ dice, JArr (map die_json dice)) <$> rd_dice r);
     ("timestamp", Some (JNum (rd_timestamp r)))]).

Definition chatData_json (m : chatData) : json :=
  JObj (obj_of
    [("id", Some (JStr (cd_id m)));
     ("messageId", Some (JStr (cd_messageId m)));
     ("user", Some (user_json (cd_user m)));
     ("content", cd_content m);
     ("flavor", cd_flavor m);
     ("type", cd_type m);
     ("timestamp", Some (JNum (cd_timestamp m)));
     ("speaker", cd_speaker m);
     ("whisper", cd_whisper m);
     ("blind", cd_blind m)]).

(** The argument of [socketManager.send] for each frame. *)
Definition frame_json (f : frame) : object :=
  match f with
  | RollDataFrame data =>
      obj_of [("type", Some (JStr "roll-data")); ("data", Some (rollData_json data))]
  | ChatMessagesResult requestId messages total =>
      obj_of [("type", Some (JStr "chat-messages-result"));
              ("requestId", requestId);
              ("messages", Some (JArr (map chatData_json messages)));
              ("total", Some (JNum (Z.of_nat total)))]
  | RollsResult requestId data =>
      obj_of [("type", Some (JStr "rolls-result"));
              ("requestId", requestId);
              ("data", Some (JArr (map rollData_json data)))]
  | LastRollResult requestId data =>
      obj_of [("type", Some (JStr "last-roll-result"));
              ("requestId", requestId);
              ("data", Some (match data with
                             | Some roll => rollData_json roll
                             | None => JNull
                             end))]
  end.

(** The request a handler reads from a message: [requestId], [limit],
    [sort] and [order].  The handlers are modelled for a [limit] that is a
    number or absent, which is what the relay sends; [None] is any other
    message. *)
Definition request_of (data : object) : option request :=
  match data !! "limit" with
  | None =>
      Some (mkRequestFrame (data !! "requestId") None (data !! "sort") (data !! "order"))
  | Some (JNum limit) =>
      Some (mkRequestFrame (data !! "requestId") (Some limit)
                           (data !! "sort") (data !! "order"))
  | Some _ => None
  end.

(** The routes of [pingRouter], [chatRouter] and [rollRouter], in the
    order in which [initializeWebSocket] registers them. *)
Inductive route : Type := PingRoute | PongRoute | ChatMessagesRoute | RollsRoute | LastRollRoute.

Definition routes : list (string * route) :=
  [("ping", PingRoute); ("pong", PongRoute);
   ("chat-messages", ChatMessagesRoute);
   ("rolls", RollsRoute); ("last-roll", LastRollRoute)].

(** [messageHandlers] after [Router.reflect]: [Map.set] for each route, so
    the last route registered for an action type is the one kept. *)
Definition messageHandlers : gmap string route :=
  foldl (λ handlers r, <[r.1 := r.2]> handlers) ∅ routes.

(** [onMessage] for the parsed message [data]: the object that the handler
    of [data.type] passes to [socketManager.send], if any.  The outer
    [None] is a [chat-messages] or [rolls] request with a [limit] that is
    not a number. *)
Definition onMessage (data : object) (limitSetting : Z) (s : storage)
    : option (option object) :=
  if truthy (data !! "type") then
    match data !! "type" with
    | Some (JStr type) =>
        match messageHandlers !! type with
        | Some PingRoute => Some (Some {["type" := JStr "pong"]})
        | Some PongRoute => Some None
        | Some ChatMessagesRoute =>
            (λ q, Some (frame_json (chatMessagesHandler q limitSetting s)))
              <$> request_of data
        | Some RollsRoute =>
            (λ q, Some (frame_json (rollsHandler q s))) <$> request_of data
        | Some LastRollRoute =>
            Some (Some (frame_json
                    (lastRollHandler
                       (mkRequestFrame (data !! "requestId") None
                                       (data !! "sort") (data !! "order")) s)))
        | None => Some None
        end
    | _ => Some None
    end
  else Some None.

End Wire.

(** ** A peer that stays silent about a request *)

(** The input does not concern the request ID: it is no HTTP request that
    is given this ID, and no peer message that carries it. *)
Definition quiet_at (requestId : string) (w : world) (i : input) : Prop :=
  match i with
  | InRequest config _ => requestId_of (cfg_type config) (w_clock w) ≠ requestId
  | InMessage _ data => data !! "requestId" ≠ Some (JStr requestId)
  | InWait _ => True
  end.

(** No input of the run concerns the request ID. *)
Fixpoint quiet `{Platform} (requestId : string) (w : world) (inputs : list input) : Prop :=
  match inputs with
  | [] => True
  | i :: rest =>
      quiet_at requestId w i
      ∧ match world_step w i with
        | Some w' => quiet requestId w' rest
        | None => True
        end
  end.

(** The request with the given ID and response handle is still waiting
    for its timeout, due at [due]: its waiter is in the table, no response
    has been written for it, its timer is armed, every armed timer for the
    ID is for this handle, and the timer is due within 30 seconds of the
    waiter's timestamp. *)
Definition awaits (requestId : string) (res : nat) (due : Z) (w : world) : Prop :=
  (∃ pending, pendingRequests (w_relay w) !! requestId = Some pending
              ∧ pr_res pending = res
              ∧ (due ≤ pr_timestamp pending + 30000)%Z)
  ∧ responses (w_relay w) !! res = None
  ∧ (due, TimeoutTask requestId res) ∈ w_agenda w
  ∧ (∀ d res', (d, TimeoutTask requestId res') ∈ w_agenda w → res' = res).

(** The request has been answered by its timeout. *)
Definition answered408 (requestId : string) (res : nat) (w : world) : Prop :=
  responses (w_relay w) !! res = Some timedOut
  ∧ pendingRequests (w_relay w) !! requestId = None.

(** ** Further scenario values *)

(** The relay after [POST /roll?clientId=c1] at clock reading 1000: the
    request waits, and its timeout is armed behind the first sweep. *)
Definition roll_world : world :=
  mkWorld 1000 roll_waiting
    [(11000%Z, SweepTask); (11000%Z, TimeoutTask "roll_1000" 0)] 1.


(** A waiter of [GET /sheet] for the actor [Actor.a1] with format [json],
    the state in which it waits, and the peer's answer. *)
Definition sheet_waiter : PendingRequest :=
  mkPending 0 "get-sheet" (Some (JStr "c1")) (Some "Actor.a1") None None None 1000
            (Some "json") None None None.

Definition sheet_waiting : state :=
  mkState {["get-sheet_1000" := sheet_waiter]} {["c1" := peer_c1]} ∅ [].

Definition sheet_result : object :=
  {["type" := JStr "get-sheet-response";
    "requestId" := JStr "get-sheet_1000";
    "data" := JObj {["uuid" := JStr "Actor.a1"; "html" := JStr "<p>a1</p>"]}]}.

(** A [download-file-result] that reports an error. *)
Definition download_failed : object :=
  {["type" := JStr "download-file-result";
    "requestId" := JStr "download-file_1000";
    "error" := JStr "File not found"]}.

(** [GET /rolls?clientId=c1&limit=2] *)
Definition rolls_request : Request :=
  mkRequest None (Some {["clientId" := JStr "c1"; "limit" := JStr "2"]}) None.

(** A module that has stored two chat messages (the older one first) and
    one roll. *)
Definition chat_at (id : string) (timestamp : Z) : Peer.chatData :=
  Peer.mkChatData id id (Some (JStr "u1"), Some (JStr "Ann")) (Some (JStr "hi"))
    (Some (JStr "")) (Some (JStr "player-chat")) timestamp None
    (Some (JArr [])) (Some (JBool false)).

Definition roll_at (id : string) (timestamp : Z) : Peer.rollData :=
  Peer.mkRollData id id (Some (JStr "u1"), Some (JStr "Ann")) None (Some (JStr ""))
    (Some (JNum 17)) (Some (JStr "1d20")) (Some (JBool false)) (Some (JBool false))
    None timestamp.

Definition stored : Peer.storage :=
  Peer.mkStorage [roll_at "r1" 5] [chat_at "m1" 1; chat_at "m2" 2] [].

(** A collation for the examples: by the length of the id. *)
Definition byLength (a b : string) : Z :=
  (Z.of_nat (String.length a) - Z.of_nat (String.length b))%Z.

(** The settings of the module as registered: ping every 30 seconds, at
    most 20 reconnect attempts, base delay 1000 ms. *)
Definition defaultSettings : Manager.settings := Manager.mkSettings 30 20 1000.

(** * Properties *)

Create HintDb relay.

(** ** Sanitising *)

Lemma removeSensitiveKeys_obj (fields : object) :
  removeSensitiveKeys (JObj fields)
  = JObj (map_imap (λ key v, if sensitive key then None
                             else if sets_prototype key then None
                             else Some (removeSensitiveKeys v)) fields).
Proof. reflexivity. Qed.

(** The sanitised object does not depend on the entry [__proto__]. *)
Lemma removeSensitiveKeys_proto (m1 m2 : object) :
  (∀ k, k ≠ "__proto__" → m1 !! k = m2 !! k) →
  removeSensitiveKeys (JObj m1) = removeSensitiveKeys (JObj m2).
Proof.
  intros Hsame. rewrite !removeSensitiveKeys_obj. f_equal.
  apply map_eq. intros k. rewrite !map_lookup_imap.
  destruct (decide (k = "__proto__")) as [->|Hk].
  - by destruct (m1 !! "__proto__"), (m2 !! "__proto__").
  - by rewrite (Hsame k Hk).
Qed.

Lemma removeSensitiveKeys_arr (items : list json) :
  removeSensitiveKeys (JArr items) = JArr (removeSensitiveKeys <$> items).
Proof. reflexivity. Qed.

Lemma sanitizeResponse_fmap (response : jsval) :
  sanitizeResponse response = removeSensitiveKeys <$> response.
Proof. destruct response as [[]|]; reflexivity. Qed.

(** What is found at a path after sanitising: nothing when the path goes
    through a sensitive key or through [__proto__], and otherwise the
    sanitised form of what was there. *)
Lemma get_path_sanitized (p : list seg) :
  ∀ j, get_path p (removeSensitiveKeys j)
       = if path_kept p then removeSensitiveKeys <$> get_path p j else None.
Proof.
  unfold path_kept.
  induction p as [|s p IH]; intros j; [reflexivity|].
  destruct s as [k|i]; cbn [forallb seg_sensitive seg_proto negb andb].
  - destruct j;
      try (cbn [removeSensitiveKeys get_path];
           by destruct (sensitive k), (sets_prototype k), (forallb _ p)).
    rewrite removeSensitiveKeys_obj. cbn [get_path].
    rewrite map_lookup_imap.
    destruct (fields !! k) as [v|] eqn:Hk; cbn.
    + destruct (sensitive k); cbn; [done|].
      destruct (sets_prototype k); cbn; [done|]. apply IH.
    + by destruct (sensitive k), (sets_prototype k), (forallb _ p).
  - destruct j;
      try (cbn [removeSensitiveKeys get_path]; by destruct (forallb _ p)).
    rewrite removeSensitiveKeys_arr. cbn [get_path].
    rewrite list_lookup_fmap. destruct (items !! i) as [v|]; cbn; [apply IH|].
    by destruct (forallb _ p).
Qed.

Lemma path_kept_clean p :
  path_kept p = true →
  forallb (λ s, negb (seg_sensitive s)) p = true
  ∧ forallb (λ s, negb (seg_proto s)) p = true.
Proof.
  unfold path_kept. induction p as [|s p IH]; cbn; [done|].
  intros [[Hs Hp]%andb_true_iff Hrest]%andb_true_iff.
  destruct (IH Hrest) as [-> ->]. by rewrite Hs, Hp.
Qed.

Lemma removeSensitiveKeys_clean (j : json) : no_sensitive_key (removeSensitiveKeys j).
Proof.
  intros p [v Hv]. rewrite get_path_sanitized in Hv.
  destruct (path_kept p) eqn:Hp; [|done]. by apply path_kept_clean in Hp as [? _].
Qed.

Lemma removeSensitiveKeys_no_proto (j : json) : no_proto_key (removeSensitiveKeys j).
Proof.
  intros p [v Hv]. rewrite get_path_sanitized in Hv.
  destruct (path_kept p) eqn:Hp; [|done]. by apply path_kept_clean in Hp as [_ ?].
Qed.


Lemma safeResponse_fresh res statusCode data (rs : responses_t) :
  rs !! res = None →
  safeResponse res statusCode data rs
  = <[res := mkResponse statusCode [] (BJson (removeSensitiveKeys <$> data))]> rs.
Proof. intros Hres. unfold safeResponse. by rewrite Hres, sanitizeResponse_fmap. Qed.

Lemma safeResponse_sent res statusCode data (rs : responses_t) :
  is_Some (rs !! res) → safeResponse res statusCode data rs = rs.
Proof. intros [r Hr]. unfold safeResponse. by rewrite Hr. Qed.

Lemma written_clean_refl rs : written_clean rs rs.
Proof. intros res r Hr. by left. Qed.

Lemma safeResponse_written_clean res code data rs :
  written_clean rs (safeResponse res code data rs).
Proof.
  unfold safeResponse. destruct (rs !! res) eqn:Hres; [apply written_clean_refl|].
  intros res' r. rewrite lookup_insert. case_decide as Heq; [|by left].
  intros [= <-]. right. cbn. rewrite sanitizeResponse_fmap.
  destruct data as [j|]; cbn; [|done].
  split; [apply removeSensitiveKeys_clean|apply removeSensitiveKeys_no_proto].
Qed.


#[local] Hint Resolve written_clean_refl safeResponse_written_clean : relay.

Section Sanitised.
Context `{Platform}.








End Sanitised.


(** ** The generic result handler *)

Lemma js_or_default a b : js_or a (Some b) = Some (or_default a b).
Proof.
  unfold js_or, or_default. destruct a as [v|]; [|done].
  by destruct (truthy (Some v)).
Qed.

(** The object built by the handler has the entries of the message other
    than [__proto__], [clientId] when the message has none, and behind
    them what the [__proto__] entry of the message makes it inherit. *)
Lemma resultResponse_union client pending (data : object) requestId :
  data !! "requestId" = Some requestId →
  resultResponse client pending data
  = (delete "__proto__" data
     ∪ {["clientId" := or_default (pr_clientId pending) (JStr (c_id client))]})
    ∪ inherited (data !! "__proto__").
Proof.
  intros Hrid. unfold resultResponse. rewrite Hrid, js_or_default. cbn [obj_of].
  set (init := <["requestId" := requestId]> (<["clientId" := _]> ∅)).
  assert (map_fold (λ key value response,
            if bool_decide (key = "requestId") then response
            else assign key value response) init data
          = delete "requestId" (delete "__proto__" data) ∪ init) as ->.
  { apply (map_fold_weak_ind
             (λ r m, r = delete "requestId" (delete "__proto__" m) ∪ init)).
    - by rewrite !delete_empty, (left_id_L ∅ (∪)).
    - intros i x m r Hi ->. case_bool_decide as Heq.
      + subst i. rewrite delete_insert_ne by done. by rewrite delete_insert_eq.
      + unfold assign, sets_prototype. case_bool_decide as Hproto.
        * subst i. by rewrite delete_insert_eq.
        * rewrite !delete_insert_ne by done. by rewrite insert_union_l. }
  f_equal. apply map_eq. intros k. unfold init.
  destruct (decide (k = "requestId")) as [->|Hk].
  - rewrite lookup_union, lookup_delete_eq, lookup_insert_eq.
    rewrite lookup_union, lookup_delete_ne, Hrid by done.
    by rewrite lookup_singleton_ne.
  - rewrite !lookup_union, lookup_delete_ne, lookup_insert_ne by done.
    by rewrite insert_empty.
Qed.

(** The entries of the built object, for every name but [__proto__]. *)
Lemma resultResponse_lookup client pending (data : object) requestId k :
  data !! "requestId" = Some requestId → k ≠ "__proto__" →
  resultResponse client pending data !! k
  = ((data ∪ {["clientId" := or_default (pr_clientId pending) (JStr (c_id client))]})
     ∪ inherited (data !! "__proto__")) !! k.
Proof.
  intros Hrid Hk. rewrite (resultResponse_union _ _ _ _ Hrid).
  by rewrite !lookup_union, lookup_delete_ne.
Qed.

(** The loop of [setupMessageHandlers] registers the generic handler under
    [t-result] for every request type but [download-file]. *)
Lemma handlerFor_result t :
  t ∈ PENDING_REQUEST_TYPES → t ≠ "download-file" →
  handlerFor (t +:+ "-result") = Some (ResultHandler t).
Proof.
  intros Ht Hne. unfold PENDING_REQUEST_TYPES in Ht.
  repeat (apply elem_of_cons in Ht as [->|Ht]; [try done; vm_compute; reflexivity|]).
  by apply elem_of_nil in Ht.
Qed.

Lemma truthy_string s : s ≠ "" → truthy (Some (JStr s)) = true.
Proof. intros Hs. cbn. by rewrite bool_decide_eq_false_2. Qed.

Lemma lookupPending_found (data : object) st requestId pending :
  data !! "requestId" = Some (JStr requestId) → requestId ≠ "" →
  pendingRequests st !! requestId = Some pending →
  lookupPending data st = Some (requestId, pending).
Proof.
  intros Hrid Hne Hp. unfold lookupPending. by rewrite Hrid, truthy_string, Hp.
Qed.

(** What the generic handler does when it finds the waiter and the
    response has not been written. *)
Lemma resultHandler_answers client (data : object) st requestId pending :
  data !! "requestId" = Some (JStr requestId) → requestId ≠ "" →
  pendingRequests st !! requestId = Some pending →
  responses st !! pr_res pending = None →
  let response :=
    (data ∪ {["clientId" := or_default (pr_clientId pending) (JStr (c_id client))]})
    ∪ inherited (data !! "__proto__") in
  resultHandler client data st
  = mkState
      (delete requestId (pendingRequests st))
      (clients st)
      (<[pr_res pending :=
           mkResponse (if truthy (response !! "error") then 400 else 200) []
             (BJson (Some (removeSensitiveKeys (JObj response))))]>
         (responses st))
      (outbox st).
Proof.
  intros Hrid Hne Hp Hres response.
  unfold resultHandler. rewrite (lookupPending_found _ _ _ _ Hrid Hne Hp).
  rewrite (resultResponse_lookup _ _ _ _ "error" Hrid) by done.
  fold response.
  assert (removeSensitiveKeys (JObj (resultResponse client pending data))
          = removeSensitiveKeys (JObj response)) as Hbody.
  { apply removeSensitiveKeys_proto. intros k Hk. by eapply resultResponse_lookup. }
  destruct (truthy (response !! "error")); unfold set_pending, set_responses; cbn;
    rewrite safeResponse_fresh by done; cbn [fmap option_fmap option_map];
    by rewrite Hbody.
Qed.

(** The same for a message without a [__proto__] entry: the body is the
    message itself, with [clientId] added when the message has none. *)
Lemma resultHandler_completes client (data : object) st requestId pending :
  data !! "requestId" = Some (JStr requestId) → requestId ≠ "" →
  pendingRequests st !! requestId = Some pending →
  responses st !! pr_res pending = None →
  data !! "__proto__" = None →
  resultHandler client data st
  = mkState
      (delete requestId (pendingRequests st))
      (clients st)
      (<[pr_res pending :=
           mkResponse (if truthy (data !! "error") then 400 else 200) []
             (BJson (Some (removeSensitiveKeys
                (JObj (data ∪ {["clientId" :=
                         or_default (pr_clientId pending) (JStr (c_id client))]})))))]>
         (responses st))
      (outbox st).
Proof.
  intros Hrid Hne Hp Hres Hplain.
  rewrite (resultHandler_answers _ _ _ _ _ Hrid Hne Hp Hres).
  rewrite Hplain. cbn [inherited]. rewrite (right_id_L ∅ (∪)).
  assert ((data ∪ {["clientId" :=
             or_default (pr_clientId pending) (JStr (c_id client))]}) !! "error"
          = data !! "error") as ->; [|done].
  rewrite lookup_union, lookup_singleton_ne by done. by destruct (data !! "error").
Qed.

Section GenericResult.
Context `{Platform}.


End GenericResult.

(** The request of the scenario leads to the waiting state used below. *)
Example roll_request_registers :
  @world_run examplePlatform relay_with_c1 [InRequest route_roll roll_request]
  = Some (mkWorld 1000 roll_waiting
            [(11000%Z, SweepTask); (11000%Z, TimeoutTask "roll_1000" 0)] 1).
Proof. vm_compute. reflexivity. Qed.



(** A message whose [__proto__] entry holds [{error: "e"}]: the built
    response inherits [error], so the relay answers 400, and the body has
    the inherited [error] as a field. *)
Example inherited_error_gets_400 :
  responses
    (@handleMessage examplePlatform peer_c1
       {["type" := JStr "roll-result"; "requestId" := JStr "roll_1000";
         "__proto__" := JObj {["error" := JStr "e"]}]}
       roll_waiting) !! 0%nat
  = Some (mkResponse 400 []
            (BJson (Some (JObj {["type" := JStr "roll-result";
                                 "requestId" := JStr "roll_1000";
                                 "clientId" := JStr "c1";
                                 "error" := JStr "e"]})))).
Proof. vm_compute. reflexivity. Qed.

(** ** The route helper *)

Lemma lookup_params_set k v (params : object) k' :
  params_set k v params !! k' = if decide (k = k') then v else params !! k'.
Proof.
  unfold params_set. destruct v as [x|].
  - by rewrite lookup_insert.
  - rewrite lookup_delete. by case_decide.
Qed.

Lemma endpoints_clientId_source method path config req :
  (method, path, config) ∈ endpoints →
  extractParams req (cfg_requiredParams config ++ cfg_optionalParams config)%list
    !! "clientId"
  = req_source req (clientIdSource config) ≫= (λ o, o !! "clientId").
Proof.
  intros Hin. unfold endpoints in Hin.
  repeat (apply elem_of_cons in Hin as [[= -> -> ->]|Hin];
          [unfold extractParams; cbn [foldl app cfg_requiredParams cfg_optionalParams
                                      route_rolls route_lastroll route_roll route_chat
                                      route_chat_messages p_name p_from];
           rewrite !lookup_params_set; repeat case_decide; try done;
           unfold clientIdSource; cbn; by destruct (_ ≫= _)|]).
  by apply elem_of_nil in Hin.
Qed.

Lemma requestId_of_nonempty type now : requestId_of type now ≠ "".
Proof. unfold requestId_of. by destruct type. Qed.

Lemma or_default_string s b : s ≠ "" → or_default (Some (JStr s)) b = JStr s.
Proof. intros Hs. unfold or_default. by rewrite truthy_string. Qed.

Section RouteHelper.
Context `{Platform}.

Lemma processParams_roll c formula :
  processParams route_roll
    (mkRequest (Some {["formula" := JStr formula]}) (Some {["clientId" := JStr c]}) None)
  = inr {["clientId" := JStr c; "formula" := JStr formula]}.
Proof. vm_compute. reflexivity. Qed.

Lemma relayMessage_roll rid c formula :
  relayMessage route_roll rid {["clientId" := JStr c; "formula" := JStr formula]}
  = {["type" := JStr "roll"; "requestId" := JStr rid;
      "formula" := JStr formula; "data" := JObj ∅]}.
Proof. vm_compute. reflexivity. Qed.

(** [POST /roll?clientId=c] with body [{formula}] for a connected peer [c]
    whose socket accepts the frame: the waiter is registered, the frame is
    sent, and the 10 second timer is armed. *)
Lemma createApiRoute_roll_accepted c client formula now res st :
  clients st !! c = Some client → c_open client = true →
  createApiRoute route_roll
    (mkRequest (Some {["formula" := JStr formula]}) (Some {["clientId" := JStr c]}) None)
    res now st
  = (mkState
       (<[requestId_of "roll" now :=
            mkPending res "roll" (Some (JStr c)) None None None None now
                      None None None None]> (pendingRequests st))
       (clients st) (responses st)
       (outbox st ++ [(c_id client,
          {["type" := JStr "roll"; "requestId" := JStr (requestId_of "roll" now);
            "formula" := JStr formula; "data" := JObj ∅]})]),
     Some (mkTimer 10000 (requestId_of "roll" now) res)).
Proof.
  intros Hc Hopen. unfold createApiRoute. rewrite processParams_roll.
  replace (({["clientId" := JStr c; "formula" := JStr formula]} : object) !! "clientId")
    with (Some (JStr c)) by (vm_compute; reflexivity).
  cbn [getClient]. rewrite Hc.
  cbn [cfg_buildPayload route_roll cfg_type].
  rewrite relayMessage_roll.
  unfold client_send. rewrite Hopen. reflexivity.
Qed.

(** C4 (as amended).  Each relay endpoint reads the target clientId from
    the one place its route declares: the query string for GET /rolls,
    GET /lastroll, POST /roll and GET /messages, the request body for
    POST /chat.  In particular POST /roll with clientId=c in the query
    string and body [{formula}] is accepted and relayed to the peer
    registered as [c]; when the peer answers with a [roll-result] carrying
    the request ID and no truthy error, the caller receives 200 with the
    peer's payload, and the waiter is gone.  (The payload and its [error]
    are taken as the generic handler finds them, with what the message
    inherits from a [__proto__] entry.) *)
Theorem clientId_is_read_from_the_declared_source
    c client formula (data : object) now res st :
  clients st !! c = Some client → c_open client = true → c ≠ "" →
  responses st !! res = None →
  data !! "type" = Some (JStr "roll-result") →
  data !! "requestId" = Some (JStr (requestId_of "roll" now)) →
  truthy ((data ∪ inherited (data !! "__proto__")) !! "error") = false →
  (∀ method path config req,
     (method, path, config) ∈ endpoints →
     extractParams req (cfg_requiredParams config ++ cfg_optionalParams config)%list
       !! "clientId"
     = req_source req (clientIdSource config) ≫= (λ o, o !! "clientId"))
  ∧ (let req := mkRequest (Some {["formula" := JStr formula]})
                          (Some {["clientId" := JStr c]}) None in
     let relayed := (createApiRoute route_roll req res now st).1 in
     let answered := handleMessage client data relayed in
     outbox relayed
     = (outbox st ++ [(c_id client,
          {["type" := JStr "roll"; "requestId" := JStr (requestId_of "roll" now);
            "formula" := JStr formula; "data" := JObj ∅]})])%list
     ∧ is_Some (pendingRequests relayed !! requestId_of "roll" now)
     ∧ responses answered !! res
       = Some (mkResponse 200 []
           (BJson (Some (removeSensitiveKeys
              (JObj ((data ∪ {["clientId" := JStr c]})
                     ∪ inherited (data !! "__proto__")))))))
     ∧ pendingRequests answered !! requestId_of "roll" now = None).
Proof.
  intros Hc Hopen Hne Hres Htype Hrid Herr. split.
  { intros. by eapply endpoints_clientId_source. }
  cbn zeta. rewrite (createApiRoute_roll_accepted _ _ _ _ _ _ Hc Hopen). cbn [fst].
  split; [done|]. split; [cbn; rewrite lookup_insert_eq; by eexists|].
  unfold handleMessage. rewrite Htype.
  replace (handlerFor "roll-result") with (Some (ResultHandler "roll"))
    by (vm_compute; reflexivity).
  erewrite resultHandler_answers;
    [|exact Hrid|apply requestId_of_nonempty|cbn; apply lookup_insert_eq|done].
  cbn [pendingRequests responses pr_res pr_clientId].
  rewrite or_default_string by done.
  assert (((data ∪ {["clientId" := JStr c]}) ∪ inherited (data !! "__proto__")) !! "error"
          = (data ∪ inherited (data !! "__proto__")) !! "error") as ->.
  { rewrite !lookup_union, lookup_singleton_ne by done.
    by destruct (data !! "error"), (inherited (data !! "__proto__") !! "error"). }
  rewrite Herr.
  by rewrite lookup_insert_eq, lookup_delete_eq.
Qed.

(** C7 (as amended).  A relay request that has passed the parameter checks
    and whose target clientId has no connected client is answered 404 with
    [{error: "Invalid client ID"}]; the pending-request table is as it
    was, no frame is sent and no timer is armed. *)
Theorem unknown_client_is_404 config req res now st params :
  processParams config req = inr params →
  getClient (params !! "clientId") st = None →
  responses st !! res = None →
  createApiRoute config req res now st
  = (mkState (pendingRequests st) (clients st)
       (<[res := mkResponse 404 []
            (BJson (Some (JObj {["error" := JStr "Invalid client ID"]})))]> (responses st))
       (outbox st),
     None).
Proof.
  intros Hparams Hclient Hres. unfold createApiRoute. rewrite Hparams, Hclient.
  unfold set_responses. cbn. by rewrite safeResponse_fresh.
Qed.

End RouteHelper.

(** POST /roll?clientId=c1 with body [{formula: "1d20"}], answered by the
    peer with [{type: "roll-result", requestId, result: 17}]. *)
Lemma clientId_is_read_from_the_declared_source_witness :
  (∀ method path config req,
     (method, path, config) ∈ endpoints →
     extractParams req (cfg_requiredParams config ++ cfg_optionalParams config)%list
       !! "clientId"
     = req_source req (clientIdSource config) ≫= (λ o, o !! "clientId"))
  ∧ (let relayed :=
       (@createApiRoute examplePlatform route_roll roll_request 0 1000
          (w_relay relay_with_c1)).1 in
     let answered :=
       @handleMessage examplePlatform peer_c1
         {["type" := JStr "roll-result"; "requestId" := JStr "roll_1000";
           "result" := JNum 17]} relayed in
     outbox relayed = [("c1", roll_frame)]
     ∧ is_Some (pendingRequests relayed !! "roll_1000")
     ∧ responses answered !! 0%nat
       = Some (mkResponse 200 []
           (BJson (Some (JObj {["type" := JStr "roll-result";
                                "requestId" := JStr "roll_1000";
                                "clientId" := JStr "c1";
                                "result" := JNum 17]}))))
     ∧ pendingRequests answered !! "roll_1000" = None).
Proof.
  exact (@clientId_is_read_from_the_declared_source examplePlatform
           "c1" peer_c1 "1d20"
           {["type" := JStr "roll-result"; "requestId" := JStr "roll_1000";
             "result" := JNum 17]}
           1000 0 (w_relay relay_with_c1)
           eq_refl eq_refl (λ e, ltac:(discriminate e)) eq_refl eq_refl eq_refl eq_refl).
Defined.

(** C4, counterexample.  POST /roll with body
    [{clientId: "c1", formula: "1d20"}] and no clientId in the query
    string, while [c1] is connected: the caller receives 400
    ['clientId' is required]; nothing is registered and nothing is sent to
    the peer. *)
Lemma body_clientId_is_not_accepted :
  @world_run examplePlatform relay_with_c1
    [InRequest route_roll
       (mkRequest (Some {["clientId" := JStr "c1"; "formula" := JStr "1d20"]})
                  (Some ∅) None)]
  = Some (mkWorld 1000
            (mkState ∅ {["c1" := peer_c1]}
               {[ 0%nat := mkResponse 400 []
                    (BJson (Some (JObj {["error" := JStr "'clientId' is required"]}))) ]}
               [])
            [(11000%Z, SweepTask)] 1).
Proof. vm_compute. reflexivity. Qed.

(** The unknown client: GET /rolls?clientId=cZ with no peer connected. *)
Lemma unknown_client_is_404_witness :
  @createApiRoute examplePlatform route_rolls
    (mkRequest None (Some {["clientId" := JStr "cZ"]}) None) 0 1000
    (mkState ∅ ∅ ∅ [])
  = (mkState ∅ ∅
       {[ 0%nat := mkResponse 404 []
            (BJson (Some (JObj {["error" := JStr "Invalid client ID"]}))) ]} [],
     None).
Proof.
  exact (@unknown_client_is_404 examplePlatform route_rolls
           (mkRequest None (Some {["clientId" := JStr "cZ"]}) None) 0 1000
           (mkState ∅ ∅ ∅ []) {["clientId" := JStr "cZ"]}
           eq_refl eq_refl eq_refl).
Defined.

(** C7, counterexample.  POST /roll?clientId=cZ with an empty body, no peer
    connected: the target clientId has no connected client, and the claim
    gives 404.  The parameter checks run before the client is looked up:
    the caller receives 400 ['formula' is required]. *)
Lemma unknown_client_with_missing_parameter_is_400 :
  let st := mkState ∅ ∅ ∅ [] in
  let req := mkRequest (Some ∅) (Some {["clientId" := JStr "cZ"]}) None in
  getClient (Some (JStr "cZ")) st = None
  ∧ @createApiRoute examplePlatform route_roll req 0 1000 st
    = (mkState ∅ ∅
         {[ 0%nat := mkResponse 400 []
              (BJson (Some (JObj {["error" := JStr "'formula' is required"]}))) ]} [],
       None).
Proof. vm_compute. repeat split. Qed.

(** ** Completion paths and the pending-request table *)

Ltac simpl_state :=
  unfold set_responses, set_pending;
  cbn [responses pendingRequests clients outbox fst snd].

Lemma lookupPending_Some (data : object) st requestId pending :
  lookupPending data st = Some (requestId, pending) →
  data !! "requestId" = Some (JStr requestId)
  ∧ pendingRequests st !! requestId = Some pending.
Proof.
  unfold lookupPending. destruct (truthy _); [|done].
  destruct (data !! "requestId") as [[]|]; try done.
  destruct (pendingRequests st !! s) eqn:Hs; [|done]. by intros [= <- <-].
Qed.

Lemma safeResponse_one res code data (rs : responses_t) :
  safeResponse res code data rs = rs
  ∨ ∃ r, rs !! res = None ∧ safeResponse res code data rs = <[res := r]> rs.
Proof.
  unfold safeResponse. destruct (rs !! res) eqn:Hres; [by left|].
  right. eexists. split; [done|reflexivity].
Qed.

Lemma safeResponse_other res code data (rs : responses_t) res0 :
  res ≠ res0 → rs !! res0 = None → safeResponse res code data rs !! res0 = None.
Proof.
  intros Hne Hres. unfold safeResponse. destruct (rs !! res); [done|].
  by rewrite lookup_insert_ne.
Qed.

(** [safeResponse] never writes over a response. *)
Lemma safeResponse_keeps res code data (rs : responses_t) res0 r :
  rs !! res0 = Some r → safeResponse res code data rs !! res0 = Some r.
Proof.
  intros Hr. unfold safeResponse. destruct (rs !! res) eqn:Hres; [done|].
  rewrite lookup_insert_ne; [done|congruence].
Qed.

Lemma res_write_one res r (rs rs' : responses_t) :
  res_write res r rs = Some rs' → rs !! res = None ∧ rs' = <[res := r]> rs.
Proof.
  unfold res_write. destruct (rs !! res) eqn:Hres; [done|]. by intros [= <-].
Qed.

Lemma taken_keeps requestId pending res st st' res0 r :
  taken requestId pending res st st' →
  responses st !! res0 = Some r → responses st' !! res0 = Some r.
Proof.
  intros (_ & _ & _ & _ & [->|(r' & Hres & ->)]) Hr; [done|].
  rewrite lookup_insert_ne; [done|congruence].
Qed.

Section Completion.
Context `{Platform}.

Lemma resultHandler_outcome client data st :
  message_outcome data st (resultHandler client data st).
Proof.
  unfold resultHandler.
  destruct (lookupPending data st) as [[rid p]|] eqn:Hl; [|by left].
  apply lookupPending_Some in Hl as [Hrid Hp].
  right. exists rid, p. split; [done|]. split; [done|].
  destruct (truthy _); cbn; (split_and!; [done..|apply safeResponse_one]).
Qed.

Lemma downloadFileResultHandler_outcome client data st :
  message_outcome data st (downloadFileResultHandler client data st).
Proof.
  unfold downloadFileResultHandler.
  destruct (lookupPending data st) as [[rid p]|] eqn:Hl; [|by left].
  apply lookupPending_Some in Hl as [Hrid Hp].
  right. exists rid, p. split; [done|]. split; [done|].
  repeat case_match; cbn; (split_and!; [done..|]);
    try apply safeResponse_one; try (by left).
  right. eexists. by eapply res_write_one.
Qed.

Lemma getSheetResponseHandler_outcome client data st :
  message_outcome data st (getSheetResponseHandler client data st).
Proof.
  unfold getSheetResponseHandler.
  destruct (_ && _ && _); [by left|].
  destruct (lookupPending data st) as [[rid p]|] eqn:Hl; [|by left].
  apply lookupPending_Some in Hl as [Hrid Hp].
  destruct (_ && _); [|by left].
  destruct (truthy _).
  { right. exists rid, p. split; [done|]. split; [done|].
    cbn. split_and!; [done..|apply safeResponse_one]. }
  destruct (bool_decide (pr_format p = Some "json")).
  { right. exists rid, p. split; [done|]. split; [done|].
    cbn. split_and!; [done..|apply safeResponse_one]. }
  destruct (res_write _ _ _) as [rs|] eqn:Hw; [|by left].
  right. exists rid, p. split; [done|]. split; [done|].
  cbn. split_and!; [done..|].
  right. eexists. by eapply res_write_one.
Qed.

(** Every peer message does nothing, or takes the waiter of the request
    ID it carries. *)
Lemma handleMessage_outcome client data st :
  message_outcome data st (handleMessage client data st).
Proof.
  unfold handleMessage.
  destruct (data !! "type") as [[]|]; try (by left).
  destruct (handlerFor s) as [[]|]; [| | |by left].
  - apply resultHandler_outcome.
  - apply getSheetResponseHandler_outcome.
  - apply downloadFileResultHandler_outcome.
Qed.

Lemma timeoutCallback_outcome requestId res st :
  timeoutCallback requestId res st = st
  ∨ ∃ pending, taken requestId pending res st (timeoutCallback requestId res st).
Proof.
  unfold timeoutCallback. destruct (pendingRequests st !! requestId) eqn:Hp; [|by left].
  right. eexists. split; [done|]. cbn. split_and!; [done..|apply safeResponse_one].
Qed.

Lemma completion_outcome st ev requestId :
  completes ev requestId →
  step st ev = st ∨ ∃ pending res, taken requestId pending res st (step st ev).
Proof.
  destruct ev as [| client data | rid res |]; cbn; try done.
  - intros Hrid.
    destruct (handleMessage_outcome client data st) as [->|(rid & p & Hrid' & Ht)];
      [by left|].
    right. rewrite Hrid in Hrid'. injection Hrid' as <-. by eexists _, _.
  - intros ->. destruct (timeoutCallback_outcome requestId res st) as [?|[p Ht]];
      [by left|right; by eexists _, _].
Qed.

(** Only an HTTP request adds an entry to the table. *)
Lemma step_pending_origin st ev k p :
  pendingRequests (step st ev) !! k = Some p →
  pendingRequests st !! k = Some p ∨ registers ev k.
Proof.
  destruct ev as [config req res now | client data | rid res | now]; cbn [step registers].
  - unfold createApiRoute.
    destruct (processParams config req); simpl_state; [by left|].
    destruct (getClient _ st) as [client|]; simpl_state; [|by left].
    unfold client_send. destruct (c_open client); simpl_state.
    + rewrite lookup_insert_Some. intros [[<- _]|[_ ?]]; [by right|by left].
    + rewrite lookup_delete_Some, lookup_insert_Some.
      intros [Hne [[? _]|[_ ?]]]; [done|by left].
  - destruct (handleMessage_outcome client data st)
      as [->|(rid & p' & _ & _ & -> & _)]; [by left|].
    rewrite lookup_delete_Some. intros [_ ?]. by left.
  - destruct (timeoutCallback_outcome rid res st) as [->|(p' & _ & -> & _)]; [by left|].
    rewrite lookup_delete_Some. intros [_ ?]. by left.
  - unfold sweepPending. simpl_state.
    rewrite map_lookup_filter_Some. intros [? _]. by left.
Qed.

Lemma absent_stays_absent st ev requestId :
  pendingRequests st !! requestId = None → ¬ registers ev requestId →
  pendingRequests (step st ev) !! requestId = None.
Proof.
  intros Hp Hreg.
  destruct (pendingRequests (step st ev) !! requestId) as [p|] eqn:Hs; [|done].
  apply step_pending_origin in Hs as [Hs|Hs]; [congruence|done].
Qed.

Lemma absent_run st evs requestId :
  pendingRequests st !! requestId = None →
  Forall (λ e, ¬ registers e requestId) evs →
  pendingRequests (run st evs) !! requestId = None.
Proof.
  intros Hp Hevs. revert st Hp.
  induction Hevs as [|ev evs Hev _ IH]; intros st Hp; [done|].
  cbn. apply IH. by apply absent_stays_absent.
Qed.

Lemma attempt_on_absent st ev requestId :
  pendingRequests st !! requestId = None → completes ev requestId →
  step st ev = st.
Proof.
  intros Hp Hc.
  destruct (completion_outcome st ev requestId Hc) as [?|(p & res & Hsome & _)]; [done|].
  congruence.
Qed.

Lemma removals_absent st evs requestId :
  pendingRequests st !! requestId = None →
  Forall (λ e, ¬ registers e requestId) evs →
  removals requestId st evs = 0.
Proof.
  intros Hp Hevs. revert st Hp.
  induction Hevs as [|ev evs Hev _ IH]; intros st Hp; [done|].
  cbn. rewrite IH by (by apply absent_stays_absent).
  unfold took. rewrite bool_decide_eq_false_2; [done|].
  intros [[p Hsome] _]. congruence.
Qed.

Lemma removals_at_most_once st evs requestId :
  Forall (λ e, ¬ registers e requestId) evs →
  (removals requestId st evs ≤ 1)%nat.
Proof.
  intros Hevs. revert st. induction Hevs as [|ev evs Hev Hevs IH]; intros st; [cbn; lia|].
  cbn. unfold took. case_bool_decide as Htook.
  - destruct Htook as [_ Hgone]. rewrite removals_absent by done. lia.
  - specialize (IH (step st ev)). lia.
Qed.

(** No step writes over a response that has been written. *)
Lemma step_keeps_responses st ev res r :
  responses st !! res = Some r → responses (step st ev) !! res = Some r.
Proof.
  intros Hr.
  destruct ev as [config req res' now | client data | rid res' | now]; cbn [step].
  - unfold createApiRoute.
    destruct (processParams config req); simpl_state; [by apply safeResponse_keeps|].
    destruct (getClient _ st) as [client|]; simpl_state; [|by apply safeResponse_keeps].
    unfold client_send. destruct (c_open client); simpl_state;
      [done|by apply safeResponse_keeps].
  - destruct (handleMessage_outcome client data st) as [->|(rid & p & _ & Ht)]; [done|].
    by eapply taken_keeps.
  - destruct (timeoutCallback_outcome rid res' st) as [->|(p & Ht)]; [done|].
    by eapply taken_keeps.
  - done.
Qed.

(** A waiter that is left alone keeps waiting. *)
Lemma waiting_step requestId pending st ev :
  waiting requestId pending st →
  leaves_alone requestId (pr_res pending) (pr_timestamp pending) ev →
  waiting requestId pending (step st ev).
Proof.
  intros (Hp & Hres & Huniq) Hev. unfold waiting.
  destruct ev as [config req res' now | client data | rid' res' | now];
    cbn [leaves_alone step] in Hev |- *.
  - destruct Hev as [Hid Hne]. unfold createApiRoute.
    destruct (processParams config req); simpl_state.
    { split_and!; [done| |done]. by apply safeResponse_other. }
    destruct (getClient _ st) as [client|]; simpl_state.
    2:{ split_and!; [done| |done]. by apply safeResponse_other. }
    unfold client_send. destruct (c_open client); simpl_state.
    + split_and!; [by rewrite lookup_insert_ne|done|].
      intros k p. rewrite lookup_insert_Some. intros [[<- <-]|[_ Hk]]; [done|by eauto].
    + split_and!.
      * by rewrite lookup_delete_ne, lookup_insert_ne.
      * by apply safeResponse_other.
      * intros k p. rewrite lookup_delete_Some, lookup_insert_Some.
        intros [Hne' [[? _]|[_ Hk]]]; [done|by eauto].
  - destruct (handleMessage_outcome client data st)
      as [->|(rid & p & Hrid & Hp' & Hdel & _ & _ & Hw)]; [done|].
    assert (rid ≠ requestId) as Hne by congruence.
    assert (pr_res p ≠ pr_res pending) as Hne'
      by (intros Heq; by apply Hne, (Huniq rid p)).
    split_and!.
    + by rewrite Hdel, lookup_delete_ne.
    + destruct Hw as [->|(r & _ & ->)]; [done|]. by rewrite lookup_insert_ne.
    + intros k p0. rewrite Hdel, lookup_delete_Some. intros [_ Hk]. by eauto.
  - destruct Hev as [Hid Hne].
    destruct (timeoutCallback_outcome rid' res' st)
      as [->|(p & Hp' & Hdel & _ & _ & Hw)]; [done|].
    split_and!.
    + by rewrite Hdel, lookup_delete_ne.
    + destruct Hw as [->|(r & _ & ->)]; [done|]. by rewrite lookup_insert_ne.
    + intros k p0. rewrite Hdel, lookup_delete_Some. intros [_ Hk]. by eauto.
  - unfold sweepPending. simpl_state. split_and!; [|done|].
    + apply map_lookup_filter_Some. split; [done|]. cbn. lia.
    + intros k p. rewrite map_lookup_filter_Some. intros [Hk _]. by eauto.
Qed.

Lemma waiting_run requestId pending st evs :
  waiting requestId pending st →
  Forall (leaves_alone requestId (pr_res pending) (pr_timestamp pending)) evs →
  waiting requestId pending (run st evs).
Proof.
  intros Hw Hevs. revert st Hw.
  induction Hevs as [|ev evs Hev _ IH]; intros st Hw; [done|].
  cbn. apply IH. by apply waiting_step.
Qed.

(** A waiter that has left the table, in a run that gives its ID to no new
    request, was removed by exactly one step. *)
Lemma removals_exactly_once evs : ∀ st requestId,
  Forall (λ e, ¬ registers e requestId) evs →
  is_Some (pendingRequests st !! requestId) →
  pendingRequests (run st evs) !! requestId = None →
  removals requestId st evs = 1.
Proof.
  induction evs as [|ev evs IH]; intros st requestId Hevs [p Hp] Hgone.
  - cbn in Hgone. congruence.
  - apply Forall_cons in Hevs as [Hev Hevs]. cbn [removals]. unfold took.
    case_bool_decide as Htook.
    + destruct Htook as [_ Hnow]. by rewrite removals_absent.
    + rewrite (IH (step st ev) requestId); [done|done| |done].
      destruct (pendingRequests (step st ev) !! requestId) eqn:Hstep; [by eexists|].
      destruct Htook. split; [by eexists|done].
Qed.

(** The step that removes a waiter is a completion attempt for its ID, a
    sweep, or a request that is given the ID. *)
Lemma took_origin st ev requestId :
  took requestId st ev = true →
  completes ev requestId ∨ (∃ now, ev = EvSweep now) ∨ registers ev requestId.
Proof.
  unfold took. intros [[p Hp] Hgone]%bool_decide_eq_true.
  destruct ev as [config req res now | client data | rid res | now];
    cbn [completes registers step] in *.
  - right. right.
    destruct (decide (requestId_of (cfg_type config) now = requestId)) as [?|Hne];
      [done|]. exfalso. revert Hgone. unfold createApiRoute.
    destruct (processParams config req); simpl_state; [congruence|].
    destruct (getClient _ st) as [client|]; simpl_state; [|congruence].
    unfold client_send. destruct (c_open client); simpl_state.
    + rewrite lookup_insert_ne by done. congruence.
    + rewrite lookup_delete_ne, lookup_insert_ne by done. congruence.
  - left. destruct (handleMessage_outcome client data st)
      as [Hsame|(rid & p' & Hrid & _ & Hdel & _)]; [rewrite Hsame in Hgone; congruence|].
    destruct (decide (rid = requestId)) as [->|Hne]; [done|].
    rewrite Hdel, lookup_delete_ne in Hgone by done. congruence.
  - left. destruct (timeoutCallback_outcome rid res st)
      as [Hsame|(p' & _ & Hdel & _)]; [rewrite Hsame in Hgone; congruence|].
    destruct (decide (rid = requestId)) as [->|Hne]; [done|].
    rewrite Hdel, lookup_delete_ne in Hgone by done. congruence.
  - right. left. by eexists.
Qed.

(** The generic handler and the download handler take the waiter they
    find. *)
Lemma resultHandler_takes client (data : object) st requestId pending :
  data !! "requestId" = Some (JStr requestId) → requestId ≠ "" →
  pendingRequests st !! requestId = Some pending →
  pendingRequests (resultHandler client data st) = delete requestId (pendingRequests st).
Proof.
  intros Hrid Hne Hp. unfold resultHandler.
  rewrite (lookupPending_found _ _ _ _ Hrid Hne Hp). by destruct (truthy _).
Qed.

Lemma downloadFileResultHandler_takes client (data : object) st requestId pending :
  data !! "requestId" = Some (JStr requestId) → requestId ≠ "" →
  pendingRequests st !! requestId = Some pending →
  pendingRequests (downloadFileResultHandler client data st)
  = delete requestId (pendingRequests st).
Proof.
  intros Hrid Hne Hp. unfold downloadFileResultHandler.
  rewrite (lookupPending_found _ _ _ _ Hrid Hne Hp).
  repeat case_match; done.
Qed.

(** C3 (as amended).  As long as its request ID is given to no new
    request, a waiter leaves the pending-request table once, through one
    step, and no response is written twice.
    (1) A completion attempt for a request ID (a peer message carrying it,
    or its timeout) does nothing at all, or it takes the waiter: the entry
    was there, it is deleted, and at most one response is written, to a
    handle that had none.
    (2) Each path takes the waiter it finds: a timeout armed for the ID
    deletes the entry, and answers 408 on its response handle when nothing
    has been written to it; a result message of one of the generic types
    deletes the entry, and answers 400 for a truthy error and 200 otherwise
    on the waiter's response handle when nothing has been written to it; a
    [download-file-result] deletes the entry.
    (3) Once the entry is gone, and as long as no new request is given the
    same ID, it stays gone, and every later completion attempt for the ID
    finds no entry and changes nothing: no response is written.
    (4) Along any run in which the ID is not given to a new request, the
    entry is removed at most once, and exactly once when it was in the
    table at the start and is not at the end.
    (5) The step that removes the entry is a completion attempt for the
    ID, a sweep, or a request that is given the ID.
    (6) No step of the relay writes over a response that has been
    written. *)
Theorem waiter_is_taken_at_most_once st requestId :
  (∀ ev, completes ev requestId →
     step st ev = st
     ∨ (is_Some (pendingRequests st !! requestId)
        ∧ pendingRequests (step st ev) = delete requestId (pendingRequests st)
        ∧ (responses (step st ev) = responses st
           ∨ ∃ res r, responses st !! res = None
                      ∧ responses (step st ev) = <[res := r]> (responses st))))
  ∧ (∀ pending,
       pendingRequests st !! requestId = Some pending → requestId ≠ "" →
       (∀ res,
          pendingRequests (step st (EvTimeout requestId res))
          = delete requestId (pendingRequests st)
          ∧ (responses st !! res = None →
             responses (step st (EvTimeout requestId res))
             = <[res := timedOut]> (responses st)))
       ∧ (∀ t client (data : object),
            t ∈ PENDING_REQUEST_TYPES → t ≠ "download-file" →
            data !! "type" = Some (JStr (t +:+ "-result")) →
            data !! "requestId" = Some (JStr requestId) →
            pendingRequests (step st (EvMessage client data))
            = delete requestId (pendingRequests st)
            ∧ (responses st !! pr_res pending = None →
               ∃ r, responses (step st (EvMessage client data))
                    = <[pr_res pending := r]> (responses st)
                    ∧ r_status r
                      = if truthy ((data ∪ inherited (data !! "__proto__")) !! "error")
                        then 400%Z else 200%Z))
       ∧ (∀ client (data : object),
            data !! "type" = Some (JStr "download-file-result") →
            data !! "requestId" = Some (JStr requestId) →
            pendingRequests (step st (EvMessage client data))
            = delete requestId (pendingRequests st)))
  ∧ (∀ evs ev,
       pendingRequests st !! requestId = None →
       Forall (λ e, ¬ registers e requestId) evs →
       completes ev requestId →
       pendingRequests (run st evs) !! requestId = None
       ∧ step (run st evs) ev = run st evs)
  ∧ (∀ evs, Forall (λ e, ¬ registers e requestId) evs →
       (removals requestId st evs ≤ 1)%nat
       ∧ (is_Some (pendingRequests st !! requestId) →
          pendingRequests (run st evs) !! requestId = None →
          removals requestId st evs = 1))
  ∧ (∀ ev, took requestId st ev = true →
       completes ev requestId ∨ (∃ now, ev = EvSweep now) ∨ registers ev requestId)
  ∧ (∀ ev res r,
       responses st !! res = Some r → responses (step st ev) !! res = Some r).
Proof.
  split_and!.
  - intros ev Hc.
    destruct (completion_outcome st ev requestId Hc)
      as [?|(p & res & Hp & Hdel & _ & _ & Hw)]; [by left|].
    right. split; [by eexists|]. split; [done|].
    destruct Hw as [?|(r & ? & ?)]; [by left|right; by eexists _, _].
  - intros pending Hp Hne. split_and!.
    + intros res. cbn [step]. unfold timeoutCallback. rewrite Hp. simpl_state.
      split; [done|]. intros Hres. by rewrite safeResponse_fresh.
    + intros t client data Ht Hdl Htype Hrid. cbn [step]. unfold handleMessage.
      rewrite Htype, (handlerFor_result t Ht Hdl).
      split; [by eapply resultHandler_takes|]. intros Hres.
      rewrite (resultHandler_answers _ _ _ _ _ Hrid Hne Hp Hres). cbn [responses].
      eexists. split; [reflexivity|]. cbn [r_status].
      replace (((data ∪ {["clientId" :=
                   or_default (pr_clientId pending) (JStr (c_id client))]})
                ∪ inherited (data !! "__proto__")) !! "error")
        with ((data ∪ inherited (data !! "__proto__")) !! "error"); [done|].
      rewrite !lookup_union, lookup_singleton_ne by done.
      by destruct (data !! "error"), (inherited (data !! "__proto__") !! "error").
    + intros client data Htype Hrid. cbn [step]. unfold handleMessage. rewrite Htype.
      replace (handlerFor "download-file-result") with (Some DownloadHandler)
        by (vm_compute; reflexivity).
      by eapply downloadFileResultHandler_takes.
  - intros evs ev Hp Hevs Hc.
    pose proof (absent_run st evs requestId Hp Hevs) as Hgone.
    split; [done|]. by eapply attempt_on_absent.
  - intros evs Hevs. split; [by apply removals_at_most_once|].
    intros Hsome Hgone. by apply removals_exactly_once.
  - intros ev. apply took_origin.
  - intros ev res r. apply step_keeps_responses.
Qed.

End Completion.

(** C3, counterexample.  Two POST /roll requests in the same millisecond,
    the peer answering each at once: both are given the ID [roll_1000].
    The ID is taken twice, each take finds a waiter, and two responses are
    written for it.  When the second request is not answered by the peer,
    the timeout of the first request takes the second waiter and writes
    nothing: the second caller never receives a response.  And a waiter on
    a route with a 60 second timeout leaves the table through the sweep,
    which is none of the three paths of the claim, with no response. *)
Lemma requestId_is_taken_twice :
  let answer : object :=
    {["type" := JStr "roll-result"; "requestId" := JStr "roll_1000";
      "result" := JNum 17]} in
  let st := w_relay relay_with_c1 in
  let answered_twice :=
    [EvRequest route_roll roll_request 0 1000; EvMessage peer_c1 answer;
     EvRequest route_roll roll_request 1 1000; EvMessage peer_c1 answer] in
  let answered_once :=
    [EvRequest route_roll roll_request 0 1000; EvMessage peer_c1 answer;
     EvRequest route_roll roll_request 1 1000; EvTimeout "roll_1000" 0;
     EvTimeout "roll_1000" 1] in
  let swept :=
    [EvRequest (route_with_timeout 60000) query_c1 0 1000; EvSweep 41000] in
  @removals examplePlatform "roll_1000" st answered_twice = 2
  ∧ r_status <$> responses (@run examplePlatform st answered_twice)
    = {[ 0%nat := 200%Z; 1%nat := 200%Z ]}
  ∧ @removals examplePlatform "roll_1000" st answered_once = 2
  ∧ r_status <$> responses (@run examplePlatform st answered_once)
    = {[ 0%nat := 200%Z ]}
  ∧ @removals examplePlatform "search_1000" st swept = 1
  ∧ responses (@run examplePlatform st swept) = ∅.
Proof. vm_compute. repeat split. Qed.

(** The peer answers the roll request; ten seconds later its timeout finds
    no entry: the caller has the one response, the 200. *)
Example answered_then_timeout :
  (λ w, (pendingRequests (w_relay w), responses (w_relay w)))
    <$> @world_run examplePlatform relay_with_c1
          [InRequest route_roll roll_request;
           InMessage peer_c1 {["type" := JStr "roll-result";
                               "requestId" := JStr "roll_1000"; "result" := JNum 17]};
           InWait 10000]
  = Some (∅,
          {[ 0%nat := mkResponse 200 []
               (BJson (Some (JObj {["type" := JStr "roll-result";
                                    "requestId" := JStr "roll_1000";
                                    "clientId" := JStr "c1";
                                    "result" := JNum 17]}))) ]}).
Proof. vm_compute. reflexivity. Qed.

(** ** Timeouts and the sweep *)

(** The timer callback, when the waiter is still in the table and the
    response has not been written: 408 and the entry removed. *)
Lemma timeoutCallback_answers requestId res st pending :
  pendingRequests st !! requestId = Some pending →
  responses st !! res = None →
  timeoutCallback requestId res st
  = mkState (delete requestId (pendingRequests st)) (clients st)
            (<[res := timedOut]> (responses st)) (outbox st).
Proof.
  intros Hp Hres. unfold timeoutCallback. rewrite Hp.
  unfold set_responses, set_pending. cbn. by rewrite safeResponse_fresh.
Qed.

(** The handler arms the timer with [config.timeout || 10000]. *)
Lemma createApiRoute_arms_timeout `{Platform} config req res now st st' armed :
  createApiRoute config req res now st = (st', Some armed) →
  armed = mkTimer (timeoutDuration config) (requestId_of (cfg_type config) now) res.
Proof.
  unfold createApiRoute.
  destruct (processParams config req); [done|].
  destruct (getClient _ st) as [client|]; [|done].
  destruct (client_send _ _ _) as [[] st2]; [|done]. by intros [= _ <-].
Qed.

(** An accepted request registers its waiter under the ID. *)
Lemma createApiRoute_registers `{Platform} config req res now st st' armed :
  createApiRoute config req res now st = (st', Some armed) →
  pendingRequests st' !! requestId_of (cfg_type config) now
  = Some (pendingRequestData config res
            (match processParams config req with
             | inr params => params !! "clientId"
             | inl _ => None
             end) now
            (match processParams config req with
             | inr params => params
             | inl _ => ∅
             end)).
Proof.
  unfold createApiRoute.
  destruct (processParams config req) as [|params]; [done|].
  destruct (getClient _ st) as [client|]; [|done].
  unfold client_send. destruct (c_open client); [|done].
  intros [= <- _]. cbn. apply lookup_insert_eq.
Qed.

(** An accepted request with a fresh response handle waits. *)
Lemma accepted_request_waits `{Platform} config req res now st st' armed :
  createApiRoute config req res now st = (st', Some armed) →
  responses st !! res = None →
  (∀ k p, pendingRequests st !! k = Some p → pr_res p ≠ res) →
  ∃ pending,
    waiting (requestId_of (cfg_type config) now) pending st'
    ∧ pr_res pending = res ∧ pr_timestamp pending = now.
Proof.
  intros Hrun Hres Hfresh.
  pose proof (createApiRoute_registers _ _ _ _ _ _ _ Hrun) as Hreg.
  eexists. split; [split; [exact Hreg|]|done].
  revert Hrun. unfold createApiRoute.
  destruct (processParams config req) as [|params]; [done|].
  destruct (getClient _ st) as [client|]; [|done].
  unfold client_send. destruct (c_open client); [|done].
  intros [= <- _]. simpl_state. split; [done|].
  intros k p. rewrite lookup_insert_Some. intros [[<- _]|[_ Hk]] Heq; [done|].
  by destruct (Hfresh k p Hk).
Qed.

(** The timeout of a waiter that has been left alone: the caller receives
    408 [{error: "Request timed out"}], and the entry is removed. *)
Lemma timeout_answers_undisturbed_waiter `{Platform} requestId pending st evs :
  waiting requestId pending st →
  Forall (leaves_alone requestId (pr_res pending) (pr_timestamp pending)) evs →
  step (run st evs) (EvTimeout requestId (pr_res pending))
  = mkState (delete requestId (pendingRequests (run st evs))) (clients (run st evs))
            (<[pr_res pending := timedOut]> (responses (run st evs)))
            (outbox (run st evs)).
Proof.
  intros Hw Hevs. destruct (waiting_run _ _ _ _ Hw Hevs) as (Hp & Hres & _).
  cbn [step]. by eapply timeoutCallback_answers.
Qed.

(** *** The event loop always returns *)

Lemma tasksDue_cons target entry agenda :
  tasksDue target (entry :: agenda)
  = (firings target entry + tasksDue target agenda)%nat.
Proof. reflexivity. Qed.

Lemma tasksDue_schedule target due t agenda :
  tasksDue target (schedule due t agenda)
  = (firings target (due, t) + tasksDue target agenda)%nat.
Proof.
  unfold tasksDue. induction agenda as [|[d t'] rest IH]; cbn; [done|].
  destruct (d <=? due)%Z; cbn; [rewrite IH|]; lia.
Qed.

Lemma firings_due target d t : (d <=? target)%Z = true → (1 ≤ firings target (d, t))%nat.
Proof. intros Hd. unfold firings. cbn [fst snd]. rewrite Hd. destruct t; lia. Qed.

Lemma firings_sweep_next target d :
  (d ≤ target)%Z →
  firings target (d, SweepTask)
  = S (firings target ((d + SWEEP_INTERVAL)%Z, SweepTask)).
Proof.
  intros Hd. unfold firings, SWEEP_INTERVAL. cbn [fst snd].
  destruct (d <=? target)%Z eqn:H1; [|lia].
  destruct (d + 10000 <=? target)%Z eqn:H2.
  - replace (target - d)%Z with ((target - (d + 10000)) + 1 * 10000)%Z by lia.
    rewrite Z.div_add by lia.
    assert (0 ≤ (target - (d + 10000)) / 10000)%Z by (apply Z.div_pos; lia). lia.
  - rewrite Z.div_small by lia. done.
Qed.

Lemma advance_total fuel target w :
  (tasksDue target (w_agenda w) ≤ fuel)%nat → is_Some (advance fuel target w).
Proof.
  revert w. induction fuel as [|fuel IH]; intros [clock relay agenda next];
    cbn [w_agenda]; intros Hfuel;
    (destruct agenda as [|[d t] rest]; [by eexists|]);
    cbn [advance w_agenda w_relay w_nextRes];
    (destruct (d <=? target)%Z eqn:Hd; [|by eexists]);
    rewrite tasksDue_cons in Hfuel;
    pose proof (firings_due target d t Hd) as Hone; [lia|].
  destruct t as [rid res|]; cbn [runTask]; apply IH; cbn [w_agenda].
  - unfold firings in Hfuel. cbn [fst snd] in Hfuel. rewrite Hd in Hfuel. lia.
  - rewrite tasksDue_schedule.
    rewrite firings_sweep_next in Hfuel by lia. lia.
Qed.

Lemma world_step_total `{Platform} w i : is_Some (world_step w i).
Proof.
  destruct i as [config req|client data|dt]; cbn [world_step].
  - destruct (createApiRoute _ _ _ _ _) as [relay armed]. by eexists.
  - by eexists.
  - by apply advance_total.
Qed.

(** Every sequence of inputs is run to its end. *)
Lemma world_run_total `{Platform} inputs : ∀ w, is_Some (world_run w inputs).
Proof.
  induction inputs as [|i inputs IH]; intros w; cbn; [by eexists|].
  destruct (world_step_total w i) as [w' ->]. cbn. apply IH.
Qed.

(** *** Response handles in the worlds the relay can reach *)

Lemma elem_of_schedule x due t agenda :
  x ∈ schedule due t agenda ↔ x = (due, t) ∨ x ∈ agenda.
Proof.
  induction agenda as [|[d t'] rest IH]; cbn.
  - rewrite list_elem_of_singleton, elem_of_nil. tauto.
  - destruct (d <=? due)%Z; rewrite !elem_of_cons; [rewrite IH|]; tauto.
Qed.

Section Handles.
Context `{Platform}.

Lemma handles_ok_start t0 clients : handles_ok (startRelay t0 clients).
Proof.
  unfold handles_ok, startRelay. cbn. split_and!.
  - intros k p. by rewrite lookup_empty.
  - intros k p k' p'. by rewrite lookup_empty.
  - intros d rid res. rewrite list_elem_of_singleton. by intros [= _ ?].
  - intros res _. apply lookup_empty.
  - intros k p. by rewrite lookup_empty.
Qed.

Lemma taken_handles_ok clock st st' agenda next requestId pending res :
  handles_ok (mkWorld clock st agenda next) →
  taken requestId pending res st st' →
  (res < next)%nat →
  (∀ k p, pendingRequests st !! k = Some p → pr_res p = res → k = requestId) →
  ∀ clock' agenda',
    (∀ x, x ∈ agenda' → match x.2 with TimeoutTask _ _ => x ∈ agenda | SweepTask => True end) →
    handles_ok (mkWorld clock' st' agenda' next).
Proof.
  intros (Ha & Hb & Hc & He & Hf) (Hp & Hdel & _ & _ & Hw) Hres Hown clock' agenda' Hagenda.
  unfold handles_ok in *. cbn [w_relay w_nextRes w_agenda] in *.
  assert (∀ k p, pendingRequests st' !! k = Some p →
                 k ≠ requestId ∧ pendingRequests st !! k = Some p) as Hsub.
  { intros k p. rewrite Hdel, lookup_delete_Some. intros [? ?]. split; [congruence|done]. }
  split_and!.
  - intros k p [Hne Hk]%Hsub. destruct (Ha k p Hk) as [Hun Hlt]. split; [|done].
    destruct Hw as [->|(r & _ & ->)]; [done|].
    rewrite lookup_insert_ne; [done|]. intros Heq. by apply Hne, (Hown k p).
  - intros k p k' p' [_ Hk]%Hsub [_ Hk']%Hsub. by eapply Hb.
  - intros d rid res' Hin. specialize (Hagenda _ Hin). cbn in Hagenda.
    destruct (Hc d rid res' Hagenda) as [Hlt Hown']. split; [done|].
    intros k p [_ Hk]%Hsub. by apply Hown'.
  - intros res' Hge. destruct Hw as [->|(r & _ & ->)]; [by apply He|].
    rewrite lookup_insert_ne by lia. by apply He.
  - intros k p [_ Hk]%Hsub. by apply (Hf k p).
Qed.

Lemma runTask_handles_ok clock d t st agenda next :
  handles_ok (mkWorld clock st ((d, t) :: agenda) next) →
  handles_ok (mkWorld d (runTask d t st agenda).1 (runTask d t st agenda).2 next).
Proof.
  intros Hok. destruct t as [rid res|]; cbn [runTask fst snd].
  - assert ((res < next)%nat ∧
            (∀ k p, pendingRequests st !! k = Some p → pr_res p = res → k = rid))
      as [Hlt Hown].
    { destruct Hok as (_ & _ & Hc & _). apply (Hc d rid res). cbn. left. }
    destruct (timeoutCallback_outcome rid res st) as [->|(p & Ht)].
    + destruct Hok as (Ha & Hb & Hc & He & Hf). split_and!; [done..| |done|done].
      intros d' rid' res' Hin. apply (Hc d' rid' res'). cbn in *. by right.
    + eapply taken_handles_ok; [exact Hok|exact Ht|done|done|].
      intros [d' []] Hin; cbn; [|done]. by right.
  - destruct Hok as (Ha & Hb & Hc & He & Hf).
    unfold handles_ok, sweepPending. cbn [w_relay w_agenda w_nextRes] in *. simpl_state.
    assert (∀ k p, filter (λ kv, ¬ (d - pr_timestamp kv.2 > 30000)%Z) (pendingRequests st) !! k = Some p
                   → pendingRequests st !! k = Some p) as Hsub.
    { intros k p. rewrite map_lookup_filter_Some. tauto. }
    split_and!.
    + intros k p Hk%Hsub. by apply (Ha k p).
    + intros k p k' p' Hk%Hsub Hk'%Hsub. by eapply Hb.
    + intros d' rid res'. rewrite elem_of_schedule. intros [[= ]|Hin].
      destruct (Hc d' rid res') as [Hlt Hown]; [by right|]. split; [done|].
      intros k p Hk%Hsub. by apply Hown.
    + done.
    + intros k p Hk%Hsub. by apply (Hf k p).
Qed.

Lemma advance_handles_ok fuel target w w' :
  handles_ok w → advance fuel target w = Some w' → handles_ok w'.
Proof.
  revert w. induction fuel as [|fuel IH]; intros [clock st agenda next] Hok; cbn.
  - destruct agenda as [|[d t] rest]; [|destruct (d <=? target)%Z; [done|]];
      intros [= <-]; exact Hok.
  - destruct agenda as [|[d t] rest]; [intros [= <-]; exact Hok|].
    destruct (d <=? target)%Z; [|intros [= <-]; exact Hok].
    pose proof (runTask_handles_ok clock d t st rest next Hok) as Hok'.
    destruct (runTask d t st rest) as [relay agenda']. apply IH, Hok'.
Qed.

Lemma answer_handles_ok clock st agenda next pending' clients' outbox' code data :
  handles_ok (mkWorld clock st agenda next) →
  (∀ k p, pending' !! k = Some p → pendingRequests st !! k = Some p) →
  handles_ok (mkWorld clock
                (mkState pending' clients' (safeResponse next code data (responses st)) outbox')
                agenda (S next)).
Proof.
  intros (Ha & Hb & Hc & He & Hf) Hsub. unfold handles_ok in *.
  cbn [w_relay w_nextRes w_agenda pendingRequests responses] in *. split_and!.
  - intros k p Hk%Hsub. destruct (Ha k p Hk) as [Hun Hlt]. split; [|lia].
    apply safeResponse_other; [lia|done].
  - intros k p k' p' Hk%Hsub Hk'%Hsub. by eapply Hb.
  - intros d rid res Hin. destruct (Hc d rid res Hin) as [Hlt Hown]. split; [lia|].
    intros k p Hk%Hsub. by apply Hown.
  - intros res Hge. apply safeResponse_other; [lia|]. apply He. lia.
  - intros k p Hk%Hsub. by apply (Hf k p).
Qed.

Lemma createApiRoute_handles_ok clock st agenda config req :
  ∀ next,
  handles_ok (mkWorld clock st agenda next) →
  handles_ok
    (mkWorld clock (createApiRoute config req next clock st).1
       match (createApiRoute config req next clock st).2 with
       | Some t => schedule (clock + t_delay t) (TimeoutTask (t_requestId t) (t_res t)) agenda
       | None => agenda
       end
       (S next)).
Proof.
  intros next Hok. unfold createApiRoute.
  destruct (processParams config req) as [err|params]; cbn [fst snd].
  { unfold set_responses. by apply answer_handles_ok. }
  destruct (getClient _ st) as [client|]; cbn [fst snd];
    [|unfold set_responses; by apply answer_handles_ok].
  unfold client_send. destruct (c_open client); cbn [fst snd]; simpl_state.
  - destruct Hok as (Ha & Hb & Hc & He & Hf). unfold handles_ok in *.
    cbn [w_relay w_nextRes w_agenda pendingRequests responses t_delay t_requestId t_res] in *.
    set (rid := requestId_of (cfg_type config) clock).
    set (p0 := pendingRequestData config next (params !! "clientId") clock params).
    assert (pr_res p0 = next) as Hp0 by done.
    clearbody p0.
    split_and!.
    + intros k p. rewrite lookup_insert_Some. intros [[<- <-]|[_ Hk]].
      * rewrite Hp0. split; [apply He; lia|lia].
      * destruct (Ha k p Hk). split; [done|lia].
    + intros k p k' p'. rewrite !lookup_insert_Some.
      intros [[<- <-]|[Hne Hk]] [[<- <-]|[Hne' Hk']]; try done.
      * rewrite Hp0. intros Heq. destruct (Ha k' p' Hk'). lia.
      * rewrite Hp0. intros Heq. destruct (Ha k p Hk). lia.
      * by eapply Hb.
    + intros d rid' res. rewrite elem_of_schedule. intros [[= -> -> ->]|Hin].
      * split; [lia|]. intros k p. rewrite lookup_insert_Some.
        intros [[<- <-]|[_ Hk]]; [done|]. intros Heq. destruct (Ha k p Hk). lia.
      * destruct (Hc d rid' res Hin) as [Hlt Hown]. split; [lia|].
        intros k p. rewrite lookup_insert_Some. intros [[<- <-]|[_ Hk]].
        -- rewrite Hp0. lia.
        -- by apply Hown.
    + intros res Hge. apply He. lia.
    + intros k p. rewrite lookup_insert_Some. intros [[<- _]|[_ Hk]].
      * apply requestId_of_nonempty.
      * by apply (Hf k p).
  - apply answer_handles_ok; [done|].
    intros k p. rewrite lookup_delete_Some, lookup_insert_Some.
    intros [Hne [[? _]|[_ ?]]]; done.
Qed.

Lemma world_step_handles_ok w i w' :
  handles_ok w → world_step w i = Some w' → handles_ok w'.
Proof.
  destruct i as [config req|client data|dt]; cbn [world_step].
  - intros Hok. destruct w as [clock st agenda next].
    cbn [w_clock w_relay w_agenda w_nextRes].
    pose proof (createApiRoute_handles_ok clock st agenda config req next Hok) as Hok'.
    destruct (createApiRoute config req next clock st) as [relay [t|]];
      by intros [= <-].
  - intros Hok [= <-]. destruct w as [clock st agenda next]. cbn [w_clock w_relay w_agenda w_nextRes].
    destruct (handleMessage_outcome client data st) as [->|(rid & p & _ & Ht)]; [done|].
    eapply taken_handles_ok; [exact Hok|exact Ht| | |].
    + destruct Hok as (Ha & _). destruct Ht as (Hp & _). by apply (Ha rid p).
    + destruct Hok as (_ & Hb & _). destruct Ht as (Hp & _).
      intros k p' Hk Heq. by apply (Hb k p' rid p).
    + intros [d []] Hin; cbn; done.
  - intros Hok. by apply advance_handles_ok.
Qed.

Lemma world_run_handles_ok inputs w w' :
  handles_ok w → world_run w inputs = Some w' → handles_ok w'.
Proof.
  revert w. induction inputs as [|i rest IH]; intros w Hok; cbn.
  - by intros [= <-].
  - destruct (world_step w i) as [w1|] eqn:Hstep; [|done]. cbn.
    apply IH. by eapply world_step_handles_ok.
Qed.

(** In a world the relay can reach, a waiter that is in the table is
    registered under an ID that is not empty, and no response has been
    written for it. *)
Lemma reachable_waiter_is_unanswered t0 clients inputs w requestId pending :
  world_run (startRelay t0 clients) inputs = Some w →
  pendingRequests (w_relay w) !! requestId = Some pending →
  requestId ≠ "" ∧ responses (w_relay w) !! pr_res pending = None.
Proof.
  intros Hrun Hp.
  destruct (world_run_handles_ok inputs _ _ (handles_ok_start t0 clients) Hrun)
    as (Ha & _ & _ & _ & Hf).
  split; [by apply (Hf requestId pending)|by destruct (Ha requestId pending Hp)].
Qed.

End Handles.

(** One request to a silent peer, with the default timeout: ten seconds
    later the caller has the 408 and the table is empty. *)
Example silent_peer_times_out :
  observe <$> @world_run examplePlatform relay_with_c1
                [InRequest route_roll roll_request; InWait 10000]
  = Some (∅, {[ 0%nat := timedOut ]}, [(21000%Z, SweepTask)]).
Proof. vm_compute. reflexivity. Qed.

(** C2, the code at the failing inputs.  The peer [c1] is connected and
    never answers.
    (1) Two POST /roll requests are handled in the same millisecond
    (clock reading 1000).  Both are given the request ID [roll_1000]; the
    second waiter replaces the first in the table.  At 11000 the first
    timer deletes the entry and answers the first caller (handle 0) with
    408; the second timer finds no entry.  The second caller (handle 1)
    has received nothing, no timer is left, and the table is empty.
    (2) A route with a 60 second timeout.  The sweep at 41000 finds the
    waiter older than 30 seconds and deletes it without answering; at the
    deadline, 61000, the timer finds no entry.  The caller (handle 0) has
    received nothing. *)
Theorem silent_peer_without_408 :
  observe <$> @world_run examplePlatform relay_with_c1
                [InRequest route_roll roll_request;
                 InRequest route_roll roll_request;
                 InWait 10000]
  = Some (∅, {[ 0%nat := timedOut ]}, [(21000%Z, SweepTask)])
  ∧ observe <$> @world_run examplePlatform relay_with_c1
                  [InRequest (route_with_timeout 60000) query_c1; InWait 40000]
    = Some (∅, ∅, [(51000%Z, SweepTask); (61000%Z, TimeoutTask "search_1000" 0)])
  ∧ observe <$> @world_run examplePlatform relay_with_c1
                  [InRequest (route_with_timeout 60000) query_c1; InWait 60000]
    = Some (∅, ∅, [(71000%Z, SweepTask)]).
Proof. vm_compute. repeat split. Qed.

(** ** Correlation IDs *)

Lemma append_inj_l (prefix a b : string) : prefix +:+ a = prefix +:+ b → a = b.
Proof. induction prefix as [|c prefix IH]; cbn; [done|]. intros [= ?]. by apply IH. Qed.

(** For one request type, the ID determines the clock reading. *)
Lemma requestId_of_inj type now now' :
  requestId_of type now = requestId_of type now' → now = now'.
Proof.
  unfold requestId_of. intros Heq.
  apply append_inj_l, append_inj_l in Heq. by apply (inj pretty).
Qed.

Section CorrelationId.
Context `{Platform}.

(** C5 (as amended).  Every generated correlation ID has the form
    [{type}_{ms}], where [ms] is the decimal rendering of the millisecond
    clock reading ([Date.now()]) at which the request is handled; the
    waiter is registered under it with that reading as its timestamp; for
    one request type, IDs generated at different clock readings differ; and
    the table is keyed by requestId, so two different waiters that are in
    the table at the same time have different requestIds. *)
Theorem requestId_is_type_and_millisecond config req res now st st' armed :
  createApiRoute config req res now st = (st', Some armed) →
  t_requestId armed = cfg_type config +:+ "_" +:+ pretty now
  ∧ (∃ waiter,
       pendingRequests st' !! t_requestId armed = Some waiter
       ∧ pr_res waiter = res
       ∧ pr_type waiter = cfg_type config
       ∧ pr_timestamp waiter = now)
  ∧ (∀ now', requestId_of (cfg_type config) now' = t_requestId armed → now' = now)
  ∧ (∀ requestId1 requestId2 waiter1 waiter2,
       pendingRequests st' !! requestId1 = Some waiter1 →
       pendingRequests st' !! requestId2 = Some waiter2 →
       waiter1 ≠ waiter2 → requestId1 ≠ requestId2).
Proof.
  intros Hrun.
  pose proof (createApiRoute_arms_timeout _ _ _ _ _ _ _ Hrun) as ->.
  pose proof (createApiRoute_registers _ _ _ _ _ _ _ Hrun) as Hreg.
  cbn [t_requestId]. split_and!.
  - reflexivity.
  - eexists. split; [exact Hreg|done].
  - intros now' Heq. by apply requestId_of_inj in Heq.
  - intros requestId1 requestId2 waiter1 waiter2 H1 H2 Hne ->. congruence.
Qed.

End CorrelationId.

(** The roll request of the scenario, handled at clock reading 1000. *)
Lemma requestId_is_type_and_millisecond_witness :
  "roll_1000" = "roll" +:+ "_" +:+ pretty 1000%Z
  ∧ (∃ waiter,
       pendingRequests roll_waiting !! "roll_1000" = Some waiter
       ∧ pr_res waiter = 0%nat
       ∧ pr_type waiter = "roll"
       ∧ pr_timestamp waiter = 1000%Z)
  ∧ (∀ now', requestId_of "roll" now' = "roll_1000" → now' = 1000%Z)
  ∧ (∀ requestId1 requestId2 waiter1 waiter2,
       pendingRequests roll_waiting !! requestId1 = Some waiter1 →
       pendingRequests roll_waiting !! requestId2 = Some waiter2 →
       waiter1 ≠ waiter2 → requestId1 ≠ requestId2).
Proof.
  exact (@requestId_is_type_and_millisecond examplePlatform route_roll roll_request
           0 1000 (w_relay relay_with_c1) roll_waiting
           (mkTimer 10000 "roll_1000" 0) eq_refl).
Defined.

(** C5, counterexample.  The ID is made of the request type and the
    millisecond clock reading only: it is no counter, and nothing of the
    replica enters it.  Two POST /roll requests handled in the same
    millisecond are both given [roll_1000]: two frames with that request
    ID are sent to the peer, and the table holds one waiter, the second
    caller's (handle 1). *)
Lemma same_millisecond_same_requestId :
  requestId_of "roll" 1000 = "roll_1000"
  ∧ (λ w, (pendingRequests (w_relay w), outbox (w_relay w)))
      <$> @world_run examplePlatform relay_with_c1
            [InRequest route_roll roll_request; InRequest route_roll roll_request]
    = Some ({["roll_1000" :=
                mkPending 1 "roll" (Some (JStr "c1")) None None None None 1000
                          None None None None]},
            [("c1", roll_frame); ("c1", roll_frame)]).
Proof. split; [reflexivity|vm_compute; reflexivity]. Qed.

(** ** The sweep *)

Lemma schedule_elem due t agenda : (due, t) ∈ schedule due t agenda.
Proof.
  induction agenda as [|[d t'] rest IH]; cbn; [apply list_elem_of_here|].
  destruct (d <=? due)%Z; [by apply list_elem_of_further|apply list_elem_of_here].
Qed.

(** C6 (as amended).  The pending-request sweep runs every 10 seconds: it
    is armed 10000 ms after the start of the relay, and each run arms the
    next one 10000 ms after its own due time.  A run removes from the
    table every waiter that is older than 30 seconds
    (now - timestamp > 30000 ms), whatever its deadline, and keeps the
    others as they are. *)
Theorem sweep_removes_waiters_older_than_30s :
  SWEEP_INTERVAL = 10000%Z
  ∧ (∀ t0 clients,
       w_agenda (startRelay t0 clients) = [((t0 + SWEEP_INTERVAL)%Z, SweepTask)])
  ∧ (∀ d relay agenda,
       (runTask d SweepTask relay agenda).1 = sweepPending d relay
       ∧ ((d + SWEEP_INTERVAL)%Z, SweepTask) ∈ (runTask d SweepTask relay agenda).2)
  ∧ (∀ now st requestId,
       pendingRequests (sweepPending now st) !! requestId
       = match pendingRequests st !! requestId with
         | Some waiter =>
             if (now - pr_timestamp waiter >? 30000)%Z then None else Some waiter
         | None => None
         end).
Proof.
  split_and!; [done|done| |].
  - intros d relay agenda. split; [done|]. cbn. apply schedule_elem.
  - intros now st requestId. cbn.
    destruct (pendingRequests st !! requestId) as [waiter|] eqn:Hw.
    + destruct (now - pr_timestamp waiter >? 30000)%Z eqn:Hage.
      * apply map_lookup_filter_None. right. intros w Hw'. cbn.
        rewrite Hw in Hw'. injection Hw' as <-. lia.
      * apply map_lookup_filter_Some. split; [done|]. cbn. lia.
    + apply map_lookup_filter_None. by left.
Qed.

(** The sweeps of the first 35 seconds after a start at 0: at 10000, 20000
    and 30000; the next one is armed for 40000. *)
Example sweeps_every_ten_seconds :
  (λ w, (w_clock w, w_agenda w))
    <$> @world_run examplePlatform (startRelay 0 ∅) [InWait 35000]
  = Some (35000%Z, [(40000%Z, SweepTask)]).
Proof. vm_compute. reflexivity. Qed.

(** C6, counterexample.  A waiter registered at 1000 on a route with a 60
    second timeout, the peer silent.  The sweeps at 11000, 21000 and 31000
    keep it; the sweep at 41000 removes it, 20 seconds before its
    deadline.  No response at all has been written: the caller has not
    received the timeout error. *)
Lemma sweep_answers_nobody :
  observe <$> @world_run examplePlatform relay_with_c1
                [InRequest (route_with_timeout 60000) query_c1; InWait 39999]
  = Some ({["search_1000" :=
              mkPending 0 "search" (Some (JStr "c1")) None None None None 1000
                        None None None None]},
          ∅, [(41000%Z, SweepTask); (61000%Z, TimeoutTask "search_1000" 0)])
  ∧ observe <$> @world_run examplePlatform relay_with_c1
                  [InRequest (route_with_timeout 60000) query_c1; InWait 40000]
    = Some (∅, ∅, [(51000%Z, SweepTask); (61000%Z, TimeoutTask "search_1000" 0)]).
Proof. vm_compute. repeat split. Qed.

(** ** File downloads *)




Section Download.
Context `{Platform}.


End Download.

(** The binary download of the scenario: format [binary], the file
    [x.png]. *)
Example binary_download :
  @handleMessage examplePlatform peer_c1 png_result (download_waiting (Some "binary"))
  = mkState ∅ {["c1" := peer_c1]}
      {[ 0%nat :=
           mkResponse 200
             [("Content-Type", JStr "image/png");
              ("Content-Disposition",
               JStr ("attachment; filename=" +:+ dquote +:+ "x.png" +:+ dquote));
              ("Content-Length", JNum 8)]
             (BBytes [137; 80; 78; 71; 13; 10; 26; 10]%N) ]}
      [].
Proof. vm_compute. reflexivity. Qed.

(** A file name that starts with a line feed: [setHeader] refuses the
    Content-Disposition value.  The waiter has been removed, and nothing is
    written. *)
Example download_with_refused_header :
  @handleMessage examplePlatform peer_c1
    (<["filename" := JStr (String (ascii_of_nat 10) "x.png")]> png_result)
    (download_waiting (Some "binary"))
  = mkState ∅ {["c1" := peer_c1]} ∅ [].
Proof. vm_compute. reflexivity. Qed.



(** ** The Foundry-side module: stored messages and rolls *)

Section Store.
Context {A : Type} (id_of : A → string).









Lemma slice0_positive (limit : Z) (l : list A) :
  (0 < limit)%Z → Peer.slice0 limit l = take (Z.to_nat limit) l.
Proof. intros Hl. unfold Peer.slice0. destruct (limit <? 0)%Z eqn:Hneg; [lia|done]. Qed.

Lemma insertBy_perm (cmp : A → A → Z) x l : Peer.insertBy cmp x l ≡ₚ x :: l.
Proof.
  induction l as [|y l IH]; cbn; [done|].
  destruct (cmp x y >? 0)%Z; [|done]. rewrite IH. apply Permutation_swap.
Qed.

Lemma sortBy_perm (cmp : A → A → Z) l : Peer.sortBy cmp l ≡ₚ l.
Proof.
  induction l as [|y l IH]; cbn; [done|]. by rewrite insertBy_perm, IH.
Qed.


End Store.

Section PeerModule.
Import Peer.








End PeerModule.



(** * Further properties of the code *)

(** ** Induction on JSON values *)

Lemma json_size_lookup (m : object) k v :
  m !! k = Some v → json_size v < json_size (JObj m).
Proof.
  intros Hk. cbn [json_size].
  rewrite (map_fold_delete_L _ _ k v m); [lia| |done].
  intros. lia.
Qed.

Lemma json_size_elem (l : list json) v : v ∈ l → json_size v < json_size (JArr l).
Proof. intros Hv. cbn [json_size]. induction Hv; cbn; lia. Qed.

Lemma json_induction (P : json → Prop) :
  P JNull → (∀ b, P (JBool b)) → (∀ n, P (JNum n)) → (∀ s, P (JStr s)) →
  (∀ items, Forall P items → P (JArr items)) →
  (∀ fields, map_Forall (λ _, P) fields → P (JObj fields)) →
  ∀ j, P j.
Proof.
  intros Hnull Hbool Hnum Hstr Harr Hobj j.
  remember (json_size j) as n eqn:Hn. revert j Hn.
  induction n as [n IH] using lt_wf_ind. intros j ->.
  destruct j as [| | | |items|fields]; auto.
  - apply Harr, Forall_forall. intros v Hv.
    eapply IH; [|reflexivity]. by apply json_size_elem.
  - apply Hobj. intros k v Hk.
    eapply IH; [|reflexivity]. by eapply json_size_lookup.
Qed.

(** ** Sanitising, again *)

Lemma removeSensitiveKeys_idempotent j :
  removeSensitiveKeys (removeSensitiveKeys j) = removeSensitiveKeys j.
Proof.
  induction j as [| | | |items IH|fields IH] using json_induction; try done.
  - cbn. f_equal. rewrite map_map. by apply map_ext_Forall.
  - cbn. f_equal. apply map_eq. intros k.
    rewrite !map_lookup_imap.
    destruct (fields !! k) as [v|] eqn:Hk; cbn; [|done].
    destruct (sensitive k) eqn:Hs; cbn; [done|].
    destruct (sets_prototype k) eqn:Hproto; cbn; [done|].
    f_equal. by eapply IH.
Qed.

Lemma no_sensitive_key_fixed j :
  no_proto_key j → no_sensitive_key j → removeSensitiveKeys j = j.
Proof.
  induction j as [| | | |items IH|fields IH] using json_induction; try done.
  - intros Hplain Hclean. cbn. f_equal.
    rewrite <- (map_id items) at 2. apply map_ext_Forall.
    apply Forall_lookup. intros i v Hi. rewrite Forall_lookup in IH.
    apply (IH i v Hi); intros p Hp.
    + assert (is_Some (get_path (Idx i :: p) (JArr items))) as Hp'
        by (cbn; by rewrite Hi).
      apply Hplain in Hp'. cbn in Hp'. done.
    + assert (is_Some (get_path (Idx i :: p) (JArr items))) as Hp'
        by (cbn; by rewrite Hi).
      apply Hclean in Hp'. cbn in Hp'. done.
  - intros Hplain Hclean. cbn. f_equal. apply map_eq. intros k.
    rewrite map_lookup_imap.
    destruct (fields !! k) as [v|] eqn:Hk; cbn; [|done].
    assert (sensitive k = false) as ->.
    { specialize (Hclean [Key k]). cbn in Hclean. rewrite Hk in Hclean.
      specialize (Hclean (mk_is_Some _ _ eq_refl)).
      by destruct (sensitive k). }
    assert (sets_prototype k = false) as ->.
    { specialize (Hplain [Key k]). cbn in Hplain. rewrite Hk in Hplain.
      specialize (Hplain (mk_is_Some _ _ eq_refl)).
      by destruct (sets_prototype k). }
    f_equal. apply (IH k v Hk); intros p Hp.
    + assert (is_Some (get_path (Key k :: p) (JObj fields))) as Hp'
        by (cbn; by rewrite Hk).
      apply Hplain in Hp'. cbn in Hp'. by apply andb_true_iff in Hp' as [_ ?].
    + assert (is_Some (get_path (Key k :: p) (JObj fields))) as Hp'
        by (cbn; by rewrite Hk).
      apply Hclean in Hp'. cbn in Hp'. by apply andb_true_iff in Hp' as [_ ?].
Qed.

(** X1.  Sanitising is idempotent on values that have no key [__proto__]
    at any depth: such a body, once sanitised, is not changed by
    sanitising it again, and [safeResponse] writes the same response for
    such data when it was sanitised beforehand.  Among these values, those
    that [removeSensitiveKeys] leaves as they are are exactly the values
    without a sensitive key at any depth. *)
Theorem sanitizing_is_idempotent :
  (∀ j, no_proto_key j →
     sanitizeResponse (sanitizeResponse (Some j)) = sanitizeResponse (Some j))
  ∧ (∀ j, no_proto_key j → (removeSensitiveKeys j = j ↔ no_sensitive_key j))
  ∧ (∀ res statusCode j rs,
       no_proto_key j →
       safeResponse res statusCode (sanitizeResponse (Some j)) rs
       = safeResponse res statusCode (Some j) rs).
Proof.
  split_and!.
  - intros j _. rewrite !sanitizeResponse_fmap. cbn.
    by rewrite removeSensitiveKeys_idempotent.
  - intros j Hplain. split; [|by apply no_sensitive_key_fixed].
    intros <-. apply removeSensitiveKeys_clean.
  - intros res statusCode j rs _. unfold safeResponse.
    destruct (rs !! res); [done|].
    rewrite !sanitizeResponse_fmap. cbn.
    by rewrite removeSensitiveKeys_idempotent.
Qed.

(** ** The parameter pipeline *)

Lemma coerce_has_type `{Platform} ty name value coerced :
  coerce ty name value = inr coerced → has_type ty coerced = true.
Proof.
  destruct ty, value; cbn; intros Hc; simplify_eq; try done;
    repeat case_match; simplify_eq; done.
Qed.

Lemma coerce_typed `{Platform} ty name value :
  has_type ty value = true → coerce ty name value = inr value.
Proof. by destruct ty, value. Qed.

(** Coercion touches only the declared names, keeps what is absent absent
    and what is [null] [null]. *)
Lemma coerceParams_other `{Platform} defs : ∀ params params' k,
  coerceParams defs params = inr params' →
  k ∉ p_name <$> defs → params' !! k = params !! k.
Proof.
  induction defs as [|p rest IH]; intros params params' k; cbn [coerceParams].
  { by intros [= <-]. }
  rewrite fmap_cons, not_elem_of_cons. intros Hrun [Hne Hk].
  destruct (params !! p_name p) as [value|] eqn:Hp; [|by eapply IH].
  destruct (p_type p) as [ty|]; [|by destruct value; eapply IH].
  destruct value; try (by eapply IH);
    (destruct (coerce ty (p_name p) _) as [|cv] eqn:Hc; [done|];
     erewrite IH; [|exact Hrun|done]; by rewrite lookup_insert_ne).
Qed.


Lemma coerceParams_typed `{Platform} defs : ∀ params params',
  coerceParams defs params = inr params' →
  NoDup (p_name <$> defs) →
  ∀ p ty v, p ∈ defs → p_type p = Some ty → params' !! p_name p = Some v →
            v ≠ JNull → has_type ty v = true.
Proof.
  induction defs as [|q rest IH]; intros params params' Hrun Hnd p ty v Hin Hty Hv Hnn.
  { by apply elem_of_nil in Hin. }
  rewrite fmap_cons in Hnd. apply NoDup_cons in Hnd as [Hq Hnd].
  cbn [coerceParams] in Hrun.
  assert (∀ params0, coerceParams rest params0 = inr params' →
                     p ∈ rest → has_type ty v = true) as Hrest.
  { intros params0 Hrun0 Hin0. by eapply (IH params0 params' Hrun0 Hnd p ty v). }
  apply elem_of_cons in Hin as [->|Hin].
  - (* the head: its value is not touched by the rest of the loop *)
    rewrite Hty in Hrun.
    destruct (params !! p_name q) as [value|] eqn:Hp.
    + destruct value eqn:Hval;
        try (destruct (coerce ty (p_name q) _) as [|cv] eqn:Hc; [done|];
             erewrite coerceParams_other in Hv; [|exact Hrun|done];
             rewrite lookup_insert_eq in Hv; simplify_eq;
             by eapply coerce_has_type).
      erewrite coerceParams_other in Hv; [|exact Hrun|done]. congruence.
    + erewrite coerceParams_other in Hv; [|exact Hrun|done]. congruence.
  - destruct (params !! p_name q) as [value|] eqn:Hp; [|by eapply Hrest].
    destruct (p_type q) as [tq|]; [|by destruct value; eapply Hrest].
    destruct value; try (by eapply Hrest);
      (destruct (coerce tq (p_name q) _) as [|cv] eqn:Hc; [done|]; by eapply Hrest).
Qed.

Lemma extractParams_names req defs k v :
  extractParams req defs !! k = Some v → k ∈ p_name <$> defs.
Proof.
  unfold extractParams.
  assert (∀ acc : object,
            foldl (λ params p, params_set (p_name p)
                                 (firstDefined req (p_name p) (p_from p)) params) acc defs
              !! k = Some v →
            acc !! k = Some v ∨ k ∈ p_name <$> defs) as Hgen.
  { induction defs as [|p rest IH]; intros acc; cbn; [by left|].
    intros [Hacc|Hin]%IH; [|right; by apply list_elem_of_further].
    destruct (decide (k = p_name p)) as [->|Hne]; [right; apply list_elem_of_here|].
    left. revert Hacc. unfold params_set.
    destruct (firstDefined _ _ _);
      [by rewrite lookup_insert_ne|by rewrite lookup_delete_ne]. }
  intros [Hk|Hk]%Hgen; [by rewrite lookup_empty in Hk|done].
Qed.

Lemma missingRequired_None required (params : object) :
  missingRequired required params = None →
  ∀ p, p ∈ required → nullish (params !! p_name p) = false.
Proof.
  induction required as [|q rest IH]; intros Hm p Hin; [by apply elem_of_nil in Hin|].
  cbn in Hm. destruct (params !! p_name q) as [value|] eqn:Hq; [|done].
  apply elem_of_cons in Hin as [->|Hin].
  - rewrite Hq. by destruct value.
  - apply IH; [|done]. by destruct value.
Qed.


Section Pipeline.
Context `{Platform}.

(** X2.  The parameters that pass the pipeline of [createApiRoute] (for a
    route whose parameter names are distinct): every required parameter
    has a value that is neither [undefined] nor [null]; every parameter
    with a declared type that has such a value has a value of that type
    (a number, a boolean, an array, a string, an object); and only
    declared names have a value. *)
Theorem validated_params_are_typed config req params :
  processParams config req = inr params →
  NoDup (paramNames config) →
  (∀ p, p ∈ cfg_requiredParams config → nullish (params !! p_name p) = false)
  ∧ (∀ p ty v, p ∈ allParamDefs config → p_type p = Some ty →
               params !! p_name p = Some v → v ≠ JNull → has_type ty v = true)
  ∧ (∀ k, is_Some (params !! k) → k ∈ paramNames config).
Proof.
  unfold processParams, paramNames, allParamDefs. intros Hrun Hnd.
  destruct (coerceParams _ _) as [|coerced] eqn:Hc; [done|].
  destruct (cfg_validateParams config ≫= _); [done|].
  destruct (missingRequired _ coerced) eqn:Hm; [done|].
  injection Hrun as <-. split_and!.
  - by apply missingRequired_None.
  - by eapply coerceParams_typed.
  - intros k [v Hk].
    destruct (decide (k ∈ p_name <$> (cfg_requiredParams config
                                        ++ cfg_optionalParams config)%list))
      as [|Hnot]; [done|].
    erewrite coerceParams_other in Hk; [|exact Hc|done].
    by eapply extractParams_names.
Qed.

End Pipeline.

(** ** What a request does *)

Lemma processParams_names `{Platform} config req params k :
  processParams config req = inr params →
  is_Some (params !! k) → k ∈ paramNames config.
Proof.
  unfold processParams, paramNames, allParamDefs. intros Hrun [v Hk].
  destruct (coerceParams _ _) as [|coerced] eqn:Hc; [done|].
  destruct (cfg_validateParams config ≫= _); [done|].
  destruct (missingRequired _ coerced) eqn:Hm; [done|].
  injection Hrun as <-.
  destruct (decide (k ∈ p_name <$> (cfg_requiredParams config
                                      ++ cfg_optionalParams config)%list))
    as [|Hnot]; [done|].
  erewrite coerceParams_other in Hk; [|exact Hc|done].
  by eapply extractParams_names.
Qed.


Section Requests.
Context `{Platform}.


End Requests.

(** ** The frame sent to the peer *)

Lemma relayMessage_type config requestId (payloadSource : object) :
  relayMessage config requestId payloadSource !! "type" = Some (JStr (cfg_type config)).
Proof.
  unfold relayMessage. rewrite lookup_insert_ne by done.
  rewrite lookup_union_r.
  - by rewrite lookup_insert_ne, lookup_singleton_eq.
  - by rewrite lookup_delete_ne, lookup_delete_eq.
Qed.

Lemma relayMessage_clientId config requestId (payloadSource : object) :
  relayMessage config requestId payloadSource !! "clientId" = None.
Proof.
  unfold relayMessage. rewrite lookup_insert_ne by done.
  rewrite lookup_union_r by apply lookup_delete_eq.
  by rewrite lookup_insert_ne, lookup_singleton_ne.
Qed.

Lemma relayMessage_requestId config requestId (payloadSource : object) :
  payloadSource !! "requestId" = None →
  relayMessage config requestId payloadSource !! "requestId" = Some (JStr requestId).
Proof.
  intros Hsrc. unfold relayMessage. rewrite lookup_insert_ne by done.
  rewrite lookup_union_r by (by rewrite !lookup_delete_ne).
  apply lookup_insert_eq.
Qed.

Lemma relayMessage_data config requestId (payloadSource : object) :
  payloadSource !! "data" = None →
  relayMessage config requestId payloadSource !! "data" = Some (JObj ∅).
Proof.
  intros Hsrc. unfold relayMessage. rewrite lookup_insert_eq.
  by rewrite !lookup_delete_ne, Hsrc.
Qed.

Lemma relayMessage_other config requestId (payloadSource : object) k :
  k ∉ ["type"; "requestId"; "clientId"; "data"] →
  relayMessage config requestId payloadSource !! k = payloadSource !! k.
Proof.
  rewrite !not_elem_of_cons. intros (? & ? & ? & ? & _).
  unfold relayMessage. rewrite lookup_insert_ne by done.
  rewrite lookup_union, !lookup_delete_ne by done.
  rewrite lookup_insert_ne, lookup_singleton_ne by done.
  by destruct (payloadSource !! k).
Qed.

Lemma rolls_buildPayload_keys params req k :
  is_Some (rolls_buildPayload params req !! k) → k ∈ ["limit"; "clear"; "refresh"].
Proof.
  unfold rolls_buildPayload. intros [v Hk]. revert Hk.
  destruct (params !! "limit") as [limit|]; [destruct (truthy (Some limit))|];
    destruct (_ || _);
    rewrite ?lookup_insert_Some, ?lookup_empty; intros Hk;
    repeat match goal with
           | Hor : _ ∨ _ |- _ => destruct Hor as [[<- _]|[_ Hor]]
           end; try done; set_solver.
Qed.

Lemma coerceParams_head_string `{Platform} p rest params params' :
  p_type p = Some TString → p_name p ∉ p_name <$> rest →
  coerceParams (p :: rest) params = inr params' →
  params' !! p_name p = params !! p_name p.
Proof.
  intros Hty Hnotin. cbn [coerceParams]. rewrite Hty.
  destruct (params !! p_name p) as [value|] eqn:Hp.
  - destruct value; cbn [coerce]; try done;
      intros Hrun; erewrite coerceParams_other; try exact Hrun; try done.
    by rewrite lookup_insert_eq.
  - intros Hrun. by erewrite coerceParams_other.
Qed.

Section Frames.
Context `{Platform}.

Lemma endpoint_clientId method path config req params :
  (method, path, config) ∈ endpoints →
  processParams config req = inr params →
  params !! "clientId" = req_source req (clientIdSource config) ≫= (λ o, o !! "clientId").
Proof.
  intros Hin Hrun.
  rewrite <- (endpoints_clientId_source method path config req Hin).
  revert Hrun. unfold processParams.
  destruct (coerceParams _ _) as [|coerced] eqn:Hc; [done|].
  destruct (cfg_validateParams config ≫= _); [done|].
  destruct (missingRequired _ coerced); [done|]. intros [= <-].
  revert Hc. unfold endpoints in Hin.
  repeat (apply elem_of_cons in Hin as [[= -> -> ->]|Hin];
          [apply (coerceParams_head_string (mkParam "clientId" _ (Some TString)));
             [done|by apply (bool_decide_unpack _)]|]).
  by apply elem_of_nil in Hin.
Qed.

Lemma endpoint_payload method path config req params :
  (method, path, config) ∈ endpoints →
  processParams config req = inr params →
  let payloadSource := match cfg_buildPayload config with
                       | Some build => build params req
                       | None => params
                       end in
  ∀ k, is_Some (payloadSource !! k) → k ∈ paramNames config.
Proof.
  intros Hin Hrun. cbn zeta. unfold endpoints in Hin.
  apply elem_of_cons in Hin as [[= -> -> ->]|Hin].
  { cbn [cfg_buildPayload route_rolls]. intros k Hk%rolls_buildPayload_keys.
    rewrite !elem_of_cons in Hk.
    destruct Hk as [->|[->|[->|?%elem_of_nil]]]; [| | |done];
      by apply (bool_decide_unpack _). }
  repeat (apply elem_of_cons in Hin as [[= -> -> ->]|Hin];
          [intros k Hk; by eapply processParams_names|]).
  by apply elem_of_nil in Hin.
Qed.

(** X4.  The frame of an accepted request on one of the five endpoints.
    It is sent to the client registered under the clientId that the
    request carries in the place the route declares.  Its [type] is the
    type of the route (never the [type] query parameter of GET /messages),
    its [requestId] is the generated ID, it has no [clientId], its [data]
    is the empty object, and every other property has the name of a
    declared parameter. *)
Theorem endpoint_frame method path config req res now st st' armed :
  (method, path, config) ∈ endpoints →
  createApiRoute config req res now st = (st', Some armed) →
  ∃ c client frame,
    req_source req (clientIdSource config) ≫= (λ o, o !! "clientId") = Some (JStr c)
    ∧ clients st !! c = Some client
    ∧ outbox st' = (outbox st ++ [(c_id client, frame)])%list
    ∧ frame !! "type" = Some (JStr (cfg_type config))
    ∧ frame !! "requestId" = Some (JStr (requestId_of (cfg_type config) now))
    ∧ frame !! "clientId" = None
    ∧ frame !! "data" = Some (JObj ∅)
    ∧ ∀ k, is_Some (frame !! k) →
           k ∈ ["type"; "requestId"; "data"] ∨ k ∈ paramNames config.
Proof.
  intros Hin. unfold createApiRoute.
  destruct (processParams config req) as [|params] eqn:Hparams; [done|].
  destruct (getClient _ st) as [client|] eqn:Hclient; [|done].
  unfold client_send. destruct (c_open client); [|done]. intros [= <- _].
  pose proof (endpoint_payload _ _ _ _ _ Hin Hparams) as Hkeys. cbn zeta in Hkeys.
  set (payloadSource := match cfg_buildPayload config with
                        | Some build => build params req
                        | None => params
                        end) in *.
  assert (∀ k, k ∉ paramNames config → payloadSource !! k = None) as Hnone.
  { intros k Hk. destruct (payloadSource !! k) eqn:Hl; [|done].
    destruct Hk. apply Hkeys. by eexists. }
  assert (("requestId" ∉ paramNames config) ∧ ("data" ∉ paramNames config))
    as [Hrid Hdata].
  { clear -Hin. unfold endpoints in Hin.
    repeat (apply elem_of_cons in Hin as [[= -> -> ->]|Hin];
            [split; by apply (bool_decide_unpack _)|]).
    by apply elem_of_nil in Hin. }
  unfold getClient in Hclient. rewrite (endpoint_clientId _ _ _ _ _ Hin Hparams) in Hclient.
  destruct (_ ≫= _) as [[| | |c| |]|]; try done.
  exists c, client, (relayMessage config (requestId_of (cfg_type config) now) payloadSource).
  cbn [outbox]. split_and!; [done|done|done| | | | |].
  - apply relayMessage_type.
  - apply relayMessage_requestId. by apply Hnone.
  - apply relayMessage_clientId.
  - apply relayMessage_data. by apply Hnone.
  - intros k Hk.
    destruct (decide (k ∈ ["type"; "requestId"; "clientId"; "data"])) as [Hspecial|Hother].
    + rewrite !elem_of_cons in Hspecial.
      destruct Hspecial as [->|[->|[->|[->|?%elem_of_nil]]]]; [| | | |done].
      * left. by apply (bool_decide_unpack _).
      * left. by apply (bool_decide_unpack _).
      * rewrite relayMessage_clientId in Hk. by destruct Hk.
      * left. by apply (bool_decide_unpack _).
    + right. rewrite relayMessage_other in Hk by done. by apply Hkeys.
Qed.

End Frames.

(** ** POST /chat *)


Section Chat.
Context `{Platform}.


End Chat.

(** ** Waiters, response handles and timers in the worlds the relay reaches *)

Lemma schedule_sorted due t agenda :
  StronglySorted (λ a b : Z * task, (a.1 ≤ b.1)%Z) agenda →
  StronglySorted (λ a b : Z * task, (a.1 ≤ b.1)%Z) (schedule due t agenda).
Proof.
  induction 1 as [|[d t'] rest Hsorted IH Hall]; cbn [schedule].
  { repeat constructor. }
  destruct (d <=? due)%Z eqn:Hd.
  - constructor; [done|]. apply Forall_forall. intros x [->|Hx]%elem_of_schedule.
    + cbn. lia.
    + rewrite Forall_forall in Hall. by apply Hall.
  - constructor; [by constructor|]. constructor; [cbn; lia|].
    eapply Forall_impl; [exact Hall|]. cbn. intros x Hx. lia.
Qed.

Section Timers.
Context `{Platform}.

Lemma timers_cover_start bound t0 clients : timers_cover bound (startRelay t0 clients).
Proof.
  split; cbn.
  - repeat constructor.
  - intros k p. by rewrite lookup_empty.
Qed.

(** A step that only removes waiters keeps the cover when it keeps the
    timers of the waiters that stay. *)
Lemma timers_cover_shrink bound clock st agenda next clock' st' agenda' next' :
  timers_cover bound (mkWorld clock st agenda next) →
  StronglySorted (λ a b : Z * task, (a.1 ≤ b.1)%Z) agenda' →
  (∀ k p, pendingRequests st' !! k = Some p →
          pendingRequests st !! k = Some p
          ∧ ∀ d, (d, TimeoutTask k (pr_res p)) ∈ agenda →
                 (d, TimeoutTask k (pr_res p)) ∈ agenda') →
  timers_cover bound (mkWorld clock' st' agenda' next').
Proof.
  intros [Hsorted Hcover] Hsorted' Hsub. split; [done|]. cbn in *.
  intros k p Hk. destruct (Hsub k p Hk) as [Hk0 Hkeep].
  destruct (Hcover k p Hk0) as (d & Hd & Hb). exists d. split; [by apply Hkeep|done].
Qed.

Lemma runTask_timers_cover bound clock d t st agenda next :
  timers_cover bound (mkWorld clock st ((d, t) :: agenda) next) →
  timers_cover bound
    (mkWorld d (runTask d t st agenda).1 (runTask d t st agenda).2 next).
Proof.
  intros Hok. pose proof Hok as [Hsorted _]. cbn in Hsorted.
  apply StronglySorted_inv in Hsorted as [Hsorted Hhead].
  destruct t as [rid res|]; cbn [runTask fst snd].
  - eapply timers_cover_shrink; [exact Hok|done|].
    intros k p Hk.
    destruct (timeoutCallback_outcome rid res st) as [Heq|(p0 & _ & Hdel & _)].
    + rewrite Heq in Hk. split; [done|].
      intros d' [[= _ -> _]|Hin]%elem_of_cons; [|done].
      (* the timer that fired found no waiter under its ID *)
      revert Heq Hk. unfold timeoutCallback.
      destruct (pendingRequests st !! rid) eqn:Hrid; [|congruence].
      intros Heq. apply (f_equal pendingRequests) in Heq. revert Heq. simpl_state.
      intros Heq. rewrite <- Heq, lookup_delete_eq in Hrid. done.
    + rewrite Hdel, lookup_delete_Some in Hk. destruct Hk as [Hne Hk]. split; [done|].
      intros d' [[= _ -> _]|Hin]%elem_of_cons; done.
  - eapply timers_cover_shrink; [exact Hok|by apply schedule_sorted|].
    intros k p. unfold sweepPending. simpl_state.
    rewrite map_lookup_filter_Some. intros [Hk _]. split; [done|].
    intros d' [[= ]|Hin]%elem_of_cons. apply elem_of_schedule. by right.
Qed.

Lemma advance_timers_cover bound fuel target w w' :
  timers_cover bound w → advance fuel target w = Some w' → timers_cover bound w'.
Proof.
  revert w. induction fuel as [|fuel IH]; intros [clock st agenda next] Hok; cbn.
  - destruct agenda as [|[d t] rest]; [|destruct (d <=? target)%Z; [done|]];
      intros [= <-]; exact Hok.
  - destruct agenda as [|[d t] rest]; [intros [= <-]; exact Hok|].
    destruct (d <=? target)%Z; [|intros [= <-]; exact Hok].
    pose proof (runTask_timers_cover bound clock d t st rest next Hok) as Hok'.
    destruct (runTask d t st rest) as [relay agenda']. apply IH, Hok'.
Qed.

Lemma world_step_timers_cover bound w i w' :
  timers_cover bound w → within bound i → world_step w i = Some w' →
  timers_cover bound w'.
Proof.
  destruct w as [clock st agenda next].
  destruct i as [config req|client data|dt]; cbn [world_step w_clock w_relay w_agenda w_nextRes].
  - intros Hok Hwithin.
    destruct (createApiRoute config req next clock st) as [relay armed] eqn:Hrun.
    intros [= <-]. revert Hrun. unfold createApiRoute.
    destruct (processParams config req) as [|params].
    { intros [= <- <-]. eapply timers_cover_shrink; [exact Hok|apply Hok|].
      simpl_state. by intros k p Hk. }
    destruct (getClient _ st) as [client|].
    2:{ intros [= <- <-]. eapply timers_cover_shrink; [exact Hok|apply Hok|].
        simpl_state. by intros k p Hk. }
    unfold client_send. destruct (c_open client); intros [= <- <-].
    + destruct Hok as [Hsorted Hcover]. split; [by apply schedule_sorted|].
      cbn [w_relay w_agenda pendingRequests t_delay t_requestId t_res] in *.
      intros k p. rewrite lookup_insert_Some. intros [[<- <-]|[_ Hk]].
      * eexists. split; [apply elem_of_schedule; by left|].
        cbn [pr_timestamp pendingRequestData]. destruct bound; [|done].
        cbn in Hwithin. lia.
      * destruct (Hcover k p Hk) as (d & Hd & Hb). exists d.
        split; [apply elem_of_schedule; by right|done].
    + eapply timers_cover_shrink; [exact Hok|apply Hok|]. simpl_state.
      intros k p. rewrite lookup_delete_Some, lookup_insert_Some.
      intros [Hne [[? _]|[_ ?]]]; done.
  - intros Hok _ [= <-].
    eapply timers_cover_shrink; [exact Hok|apply Hok|].
    intros k p Hk. split; [|done].
    destruct (handleMessage_outcome client data st) as [Heq|(rid & p0 & _ & _ & Hdel & _)].
    + by rewrite Heq in Hk.
    + rewrite Hdel, lookup_delete_Some in Hk. by destruct Hk.
  - intros Hok _. by apply advance_timers_cover.
Qed.

Lemma world_run_timers_cover bound inputs w w' :
  timers_cover bound w → Forall (within bound) inputs →
  world_run w inputs = Some w' → timers_cover bound w'.
Proof.
  revert w. induction inputs as [|i rest IH]; intros w Hok Hin; cbn.
  - by intros [= <-].
  - apply Forall_cons in Hin as [Hi Hrest].
    destruct (world_step w i) as [w1|] eqn:Hstep; [|done]. cbn.
    apply IH; [|done]. by eapply world_step_timers_cover.
Qed.

(** With the cover, the sweep at the head of the agenda removes nothing. *)
Lemma covered_sweep_removes_nothing clock st d agenda next :
  timers_cover (Some 30000%Z) (mkWorld clock st ((d, SweepTask) :: agenda) next) →
  sweepPending d st = st.
Proof.
  intros [Hsorted Hcover]. cbn in *.
  apply StronglySorted_inv in Hsorted as [_ Hhead]. rewrite Forall_forall in Hhead.
  unfold sweepPending, set_pending. destruct st as [pending cl rs out]. cbn in *.
  f_equal. apply map_filter_id. intros k p Hk. cbn.
  destruct (Hcover k p Hk) as (d' & [[=]|Hin]%elem_of_cons & Hb).
  specialize (Hhead _ Hin). cbn in Hhead. lia.
Qed.

Lemma firedTasks_sweeps fuel target : ∀ w d relay,
  timers_cover (Some 30000%Z) w →
  (d, SweepTask, relay) ∈ firedTasks fuel target w →
  sweepPending d relay = relay.
Proof.
  induction fuel as [|fuel IH]; intros [clock st agenda next] d relay Hok; cbn.
  - destruct agenda as [|[d0 t] rest]; [by intros ?%elem_of_nil|].
    destruct (d0 <=? target)%Z; by intros ?%elem_of_nil.
  - destruct agenda as [|[d0 t] rest]; [by intros ?%elem_of_nil|].
    destruct (d0 <=? target)%Z; [|by intros ?%elem_of_nil].
    intros [[= -> <- ->]|Hin]%elem_of_cons.
    + exact (covered_sweep_removes_nothing _ _ _ _ _ Hok).
    + eapply IH; [|exact Hin]. by apply (runTask_timers_cover _ clock).
Qed.

(** X6.  In every world the relay reaches from its start: the response of
    every waiter in the table is still unwritten, no two waiters share a
    response handle, no waiter is registered under the empty ID, the
    agenda is in the order of the due times, and every waiter has its own
    timeout armed (a timer for its request ID and its response handle). *)
Theorem reachable_worlds_are_in_order t0 clients inputs w :
  world_run (startRelay t0 clients) inputs = Some w →
  handles_ok w ∧ timers_cover None w.
Proof.
  intros Hrun. split.
  - eapply world_run_handles_ok; [apply handles_ok_start|exact Hrun].
  - eapply world_run_timers_cover; [apply timers_cover_start| |exact Hrun].
    apply Forall_forall. by intros [] _.
Qed.

(** X7.  When every request is for a route whose timeout is at most 30
    seconds (as the default, 10 seconds, is), the periodic sweep never
    removes a waiter: every sweep that fires leaves the relay state as it
    finds it, because the timeout of each waiter is due first. *)
Theorem sweep_removes_nothing_within_30s t0 clients inputs w dt d relay :
  Forall (within (Some 30000%Z)) inputs →
  world_run (startRelay t0 clients) inputs = Some w →
  (d, SweepTask, relay)
    ∈ firedTasks (tasksDue (w_clock w + dt) (w_agenda w)) (w_clock w + dt) w →
  sweepPending d relay = relay.
Proof.
  intros Hin Hrun Hfired. eapply firedTasks_sweeps; [|exact Hfired].
  eapply world_run_timers_cover; [apply timers_cover_start|exact Hin|exact Hrun].
Qed.

End Timers.

(** ** The sheet handler *)

Section Sheet.
Context `{Platform}.

Lemma handlerFor_sheet : handlerFor "get-sheet-response" = Some SheetHandler.
Proof. vm_compute. reflexivity. Qed.

Lemma handlerFor_download : handlerFor "download-file-result" = Some DownloadHandler.
Proof. vm_compute. reflexivity. Qed.

(** X8.  A [get-sheet-response] changes nothing (no response is written
    and the waiter stays in the table) when its requestId is not that of a
    waiter, when the waiter is not of type [get-sheet], when the uuid of
    the message is not the uuid of the waiter, and also when
    [data.data.html] is a truthy value that is not a string. *)
Theorem sheet_response_is_ignored client (data : object) st :
  data !! "type" = Some (JStr "get-sheet-response") →
  sheetDebugThrows data = true
  ∨ lookupPending data st = None
  ∨ (∃ requestId pending,
       lookupPending data st = Some (requestId, pending)
       ∧ sheetMatches pending data = false) →
  handleMessage client data st = st.
Proof.
  intros Htype Hcase. unfold handleMessage. rewrite Htype, handlerFor_sheet.
  unfold getSheetResponseHandler. fold (sheetDebugThrows data).
  destruct (sheetDebugThrows data); [done|].
  destruct Hcase as [?|[->|(rid & p & -> & Hm)]]; [done|done|].
  fold (sheetUuid data). fold (sheetMatches p data). by rewrite Hm.
Qed.

(** X9.  A [get-sheet-response] for a waiter of type [get-sheet] with the
    same uuid, whose response has not been written, when [data.data.html]
    is not a truthy value other than a string (so that the debug record of
    the handler does not throw): the waiter is removed and the caller is
    answered.  With a truthy error the answer is 404 with
    [{requestId, clientId, uuid, error}] (clientId and uuid are those of
    the waiter).  Without an error and with format [json] it is 200 with
    [{requestId, clientId, uuid, html, css}], where [html] and [css] are
    the empty string when the message has none.  Otherwise it is the HTML
    document of the template, with status 200; the template is asked for
    interactive JavaScript only when the waiter has no initial scale and
    its [activeTab] is [null].  JSON bodies are written sanitised. *)
Theorem sheet_response_is_answered client (data : object) st requestId pending :
  data !! "type" = Some (JStr "get-sheet-response") →
  data !! "requestId" = Some (JStr requestId) → requestId ≠ "" →
  pendingRequests st !! requestId = Some pending →
  responses st !! pr_res pending = None →
  sheetDebugThrows data = false →
  sheetMatches pending data = true →
  handleMessage client data st
  = mkState (delete requestId (pendingRequests st)) (clients st)
      (<[pr_res pending :=
           if truthy (sheetError data) then
             mkResponse 404 []
               (BJson (Some (removeSensitiveKeys (JObj (obj_of
                  [("requestId", Some (JStr requestId));
                   ("clientId", pr_clientId pending);
                   ("uuid", JStr <$> pr_uuid pending);
                   ("error", sheetError data)])))))
           else if bool_decide (pr_format pending = Some "json") then
             mkResponse 200 []
               (BJson (Some (removeSensitiveKeys (JObj (obj_of
                  [("requestId", Some (JStr requestId));
                   ("clientId", pr_clientId pending);
                   ("uuid", JStr <$> pr_uuid pending);
                   ("html", sheetHtml data);
                   ("css", sheetCss data)])))))
           else
             let tab := activeTabIndex_of (pr_activeTab pending) in
             mkResponse 200 []
               (BHtml (returnHtmlTemplate (sheetUuid data)
                         (match tab with
                          | TabNum n => activateTab n (sheetHtml data)
                          | _ => sheetHtml data
                          end)
                         (sheetCss data)
                         (js_or (c_systemId client) (Some (JStr "unknown")))
                         (default false (pr_darkMode pending))
                         (bool_decide (sheetScale pending = None)
                          && match tab with TabNull => true | _ => false end)
                         (match tab with TabNum n => n | _ => 0%Z end)
                         (default 0%Z (sheetScale pending)) pending))]>
         (responses st))
      (outbox st).
Proof.
  intros Htype Hrid Hne Hp Hres Hdebug Hmatch.
  unfold handleMessage. rewrite Htype, handlerFor_sheet.
  unfold getSheetResponseHandler. fold (sheetDebugThrows data). rewrite Hdebug.
  rewrite (lookupPending_found _ _ _ _ Hrid Hne Hp).
  fold (sheetUuid data). fold (sheetMatches pending data). rewrite Hmatch.
  fold (sheetError data). rewrite Hrid.
  destruct (truthy (sheetError data)) eqn:Herr.
  { simpl_state. rewrite safeResponse_fresh by done.
    unfold js_or at 1. by rewrite Herr. }
  fold (sheetHtml data). fold (sheetCss data).
  destruct (bool_decide (pr_format pending = Some "json")).
  { simpl_state. by rewrite safeResponse_fresh. }
  fold (sheetScale pending). unfold res_write. rewrite Hres. by simpl_state.
Qed.

End Sheet.

(** ** The download handler: errors and malformed results *)

Section DownloadErrors.
Context `{Platform}.

(** X10.  A [download-file-result] for a waiter whose response has not
    been written.  With a truthy error the caller is answered 500 with
    [{clientId, requestId, error}], where clientId is the ID of the peer
    that sent the message.  Without an error, when [fileData] is not a
    string or holds no comma, the waiter is removed and no response is
    written, whatever the format; its timeout then finds no waiter and
    writes nothing either. *)
Theorem download_error_or_malformed client (data : object) st requestId request :
  data !! "type" = Some (JStr "download-file-result") →
  data !! "requestId" = Some (JStr requestId) → requestId ≠ "" →
  pendingRequests st !! requestId = Some request →
  responses st !! pr_res request = None →
  (truthy (data !! "error") = true →
   handleMessage client data st
   = mkState (delete requestId (pendingRequests st)) (clients st)
       (<[pr_res request :=
            mkResponse 500 []
              (BJson (Some (removeSensitiveKeys (JObj (obj_of
                 [("clientId", Some (JStr (c_id client)));
                  ("requestId", Some (JStr requestId));
                  ("error", data !! "error")])))))]> (responses st))
       (outbox st))
  ∧ (truthy (data !! "error") = false → decodedFile data = None →
     let st' := handleMessage client data st in
     st' = mkState (delete requestId (pendingRequests st)) (clients st)
             (responses st) (outbox st)
     ∧ timeoutCallback requestId (pr_res request) st' = st').
Proof.
  intros Htype Hrid Hne Hp Hres.
  unfold handleMessage. rewrite Htype, handlerFor_download.
  unfold downloadFileResultHandler. rewrite (lookupPending_found _ _ _ _ Hrid Hne Hp).
  split.
  - intros ->. simpl_state. rewrite safeResponse_fresh by done. by rewrite Hrid.
  - intros -> ->. cbn zeta.
    assert ((if bool_decide (downloadFormat request = "binary")
                || bool_decide (downloadFormat request = "raw")
             then set_pending (delete requestId) st
             else set_pending (delete requestId) st)
            = set_pending (delete requestId) st) as -> by (by destruct (_ || _)).
    split; [done|]. unfold timeoutCallback. simpl_state. by rewrite lookup_delete_eq.
Qed.

End DownloadErrors.

(** ** Headless sessions *)

(** The loop over a part [m] of the entries. *)
Lemma cleanup_fold now s (m : gmap string Session) :
  let s' := map_fold (cleanupSession now) s m in
  (∀ k, apiKeyToSession s' !! k
        = match m !! k with
          | Some x => if inactive now x then None else apiKeyToSession s !! k
          | None => apiKeyToSession s !! k
          end)
  ∧ (∀ sid, browserSessions s' !! sid = browserSessions s !! sid
            ∨ browserSessions s' !! sid = None
              ∧ ∃ k x, m !! k = Some x ∧ inactive now x = true ∧ sessionId x = sid)
  ∧ (∀ k x, m !! k = Some x → inactive now x = true →
            browserSessions s' !! sessionId x = None)
  ∧ (∀ b, b ∈ closedBrowsers s' ↔
          b ∈ closedBrowsers s
          ∨ ∃ sid, browserSessions s !! sid = Some b ∧ browserSessions s' !! sid = None).
Proof.
  cbn zeta. apply (map_fold_weak_ind (λ s' m,
    (∀ k, apiKeyToSession s' !! k
          = match m !! k with
            | Some x => if inactive now x then None else apiKeyToSession s !! k
            | None => apiKeyToSession s !! k
            end)
    ∧ (∀ sid, browserSessions s' !! sid = browserSessions s !! sid
              ∨ browserSessions s' !! sid = None
                ∧ ∃ k x, m !! k = Some x ∧ inactive now x = true ∧ sessionId x = sid)
    ∧ (∀ k x, m !! k = Some x → inactive now x = true →
              browserSessions s' !! sessionId x = None)
    ∧ (∀ b, b ∈ closedBrowsers s' ↔
            b ∈ closedBrowsers s
            ∨ ∃ sid, browserSessions s !! sid = Some b
                     ∧ browserSessions s' !! sid = None))).
  - split_and!.
    + intros k. by rewrite lookup_empty.
    + intros sid. by left.
    + intros k x. by rewrite lookup_empty.
    + intros b. split; [by left|]. intros [?|(sid & Hb & Hn)]; [done|congruence].
  - intros apiKey session m0 r Hfresh (Hkeys & Hbrowsers & Hgone & Hclosed).
    unfold cleanupSession. fold (inactive now session).
    destruct (inactive now session) eqn:Hin.
    2:{ split_and!.
        - intros k. rewrite Hkeys, lookup_insert. case_decide as Hk; [|done].
          subst k. by rewrite Hfresh, Hin.
        - intros sid. destruct (Hbrowsers sid) as [?|(Hn & k & x & Hk & Hx & Hsid)];
            [by left|right]. split; [done|]. exists k, x.
          rewrite lookup_insert_ne; [done|congruence].
        - intros k x. rewrite lookup_insert_Some.
          intros [[<- <-]|[_ Hk]] Hx; [congruence|by eapply Hgone].
        - done. }
    assert (∀ k, delete apiKey (apiKeyToSession r) !! k
                 = match <[apiKey := session]> m0 !! k with
                   | Some x => if inactive now x then None else apiKeyToSession s !! k
                   | None => apiKeyToSession s !! k
                   end) as Hkeys'.
    { intros k. rewrite lookup_insert. case_decide as Hk.
      - subst k. by rewrite lookup_delete_eq, Hin.
      - rewrite lookup_delete_ne by done. apply Hkeys. }
    destruct (browserSessions r !! sessionId session) as [browser|] eqn:Hb; cbn.
    + split_and!; [done| | |].
      * intros sid. destruct (decide (sid = sessionId session)) as [->|Hne].
        -- right. rewrite lookup_delete_eq. split; [done|].
           exists apiKey, session. by rewrite lookup_insert_eq.
        -- rewrite lookup_delete_ne by done.
           destruct (Hbrowsers sid) as [?|(Hn & k & x & Hk & Hx & Hsid)];
             [by left|right]. split; [done|]. exists k, x.
           rewrite lookup_insert_ne; [done|congruence].
      * intros k x. rewrite lookup_insert_Some. intros [[<- <-]|[_ Hk]] Hx.
        -- apply lookup_delete_eq.
        -- rewrite lookup_delete_None. right. by eapply Hgone.
      * intros b. rewrite elem_of_app, list_elem_of_singleton, Hclosed. split.
        -- intros [[?|(sid & Hsid & Hn)]| ->]; [by left| |].
           ++ right. exists sid. split; [done|]. rewrite lookup_delete_None. by right.
           ++ right. exists (sessionId session). rewrite lookup_delete_eq.
              split; [|done]. destruct (Hbrowsers (sessionId session)) as [<-|[? _]];
                [done|congruence].
        -- intros [?|(sid & Hsid & Hn)]; [left; by left|].
           destruct (decide (sid = sessionId session)) as [->|Hne].
           ++ right. destruct (Hbrowsers (sessionId session)) as [Heq|[? _]];
                congruence.
           ++ left. right. exists sid. split; [done|].
              by rewrite lookup_delete_ne in Hn.
    + split_and!; [done| | |done].
      * intros sid. destruct (Hbrowsers sid) as [?|(Hn & k & x & Hk & Hx & Hsid)];
          [by left|right]. split; [done|]. exists k, x.
        rewrite lookup_insert_ne; [done|congruence].
      * intros k x. rewrite lookup_insert_Some.
        intros [[<- <-]|[_ Hk]] Hx; [done|by eapply Hgone].
Qed.

(** X11.  [cleanupInactiveSessions] at clock reading [now].  The sessions
    that stay are exactly those whose last activity is at most ten minutes
    old, and they stay as they are.  The browser of every removed session
    is removed from [browserSessions]; a browser is removed only for a
    removed session; and the browsers that are closed are those that are
    removed.  Running the cleanup again at the same clock reading changes
    nothing. *)
Theorem cleanup_removes_the_inactive_sessions now s :
  let s' := cleanupInactiveSessions now s in
  apiKeyToSession s'
  = filter (λ kv, inactive now kv.2 = false) (apiKeyToSession s)
  ∧ (∀ apiKey session, apiKeyToSession s !! apiKey = Some session →
       inactive now session = true → browserSessions s' !! sessionId session = None)
  ∧ (∀ sid browser, browserSessions s !! sid = Some browser →
       browserSessions s' !! sid = Some browser
       ∨ browserSessions s' !! sid = None
         ∧ browser ∈ closedBrowsers s'
         ∧ ∃ apiKey session, apiKeyToSession s !! apiKey = Some session
                             ∧ inactive now session = true ∧ sessionId session = sid)
  ∧ (∀ b, b ∈ closedBrowsers s' →
       b ∈ closedBrowsers s
       ∨ ∃ sid, browserSessions s !! sid = Some b ∧ browserSessions s' !! sid = None)
  ∧ cleanupInactiveSessions now s' = s'.
Proof.
  cbn zeta. unfold cleanupInactiveSessions.
  destruct (cleanup_fold now s (apiKeyToSession s)) as (Hkeys & Hbrowsers & Hgone & Hclosed).
  cbn zeta in *.
  set (s' := map_fold (cleanupSession now) s (apiKeyToSession s)) in *.
  assert (apiKeyToSession s'
          = filter (λ kv, inactive now kv.2 = false) (apiKeyToSession s)) as Hfilter.
  { apply map_eq. intros k. rewrite Hkeys.
    destruct (apiKeyToSession s !! k) as [x|] eqn:Hk.
    - destruct (inactive now x) eqn:Hx.
      + symmetry. apply map_lookup_filter_None. right. intros x' Hk'. cbn. congruence.
      + symmetry. apply map_lookup_filter_Some. by split.
    - symmetry. apply map_lookup_filter_None. by left. }
  split_and!; [done|done| |apply Hclosed|].
  - intros sid browser Hb. destruct (Hbrowsers sid) as [Heq|[Hn Hex]].
    + left. congruence.
    + right. split; [done|]. split; [|done]. apply Hclosed. right. by exists sid.
  - apply (map_fold_weak_ind (λ r m, m ⊆ apiKeyToSession s' → r = s')).
    + done.
    + intros k x m r Hfresh IH Hsub.
      assert (apiKeyToSession s' !! k = Some x) as Hk.
      { eapply lookup_weaken; [|exact Hsub]. apply lookup_insert_eq. }
      rewrite Hfilter in Hk. apply map_lookup_filter_Some in Hk as [_ Hx]. cbn in Hx.
      rewrite IH.
      * unfold cleanupSession. fold (inactive now x). by rewrite Hx.
      * etrans; [|exact Hsub]. by apply insert_subseteq.
    + done.
Qed.

(** ** Sorting with a comparator *)

Section Sorting.
Context {A : Type} (cmp : A → A → Z).

Lemma insertBy_elem x y l : y ∈ Peer.insertBy cmp x l ↔ y = x ∨ y ∈ l.
Proof. by rewrite insertBy_perm, elem_of_cons. Qed.

Lemma insertBy_sorted x l :
  consistent cmp →
  StronglySorted (λ a b, (cmp a b ≤ 0)%Z) l →
  StronglySorted (λ a b, (cmp a b ≤ 0)%Z) (Peer.insertBy cmp x l).
Proof.
  intros [Hsign Htrans]. induction 1 as [|y l Hsorted IH Hall]; cbn.
  { repeat constructor. }
  destruct (cmp x y >? 0)%Z eqn:Hxy.
  - constructor; [done|]. apply Forall_forall. intros z [->|Hz]%insertBy_elem.
    + apply Hsign. lia.
    + rewrite Forall_forall in Hall. by apply Hall.
  - constructor; [by constructor|]. constructor; [lia|].
    eapply Forall_impl; [exact Hall|]. cbn. intros z Hz. eapply Htrans; [|exact Hz]. lia.
Qed.

Lemma sortBy_sorted l :
  consistent cmp → StronglySorted (λ a b, (cmp a b ≤ 0)%Z) (Peer.sortBy cmp l).
Proof.
  intros Hc. induction l as [|x l IH]; cbn; [constructor|]. by apply insertBy_sorted.
Qed.

(** The first element of the sorted list is not after any element. *)
Lemma sortBy_head_least l first :
  consistent cmp → head (Peer.sortBy cmp l) = Some first →
  first ∈ l ∧ ∀ x, x ∈ l → x = first ∨ (cmp first x ≤ 0)%Z.
Proof.
  intros Hc Hhead. pose proof (sortBy_sorted l Hc) as Hsorted.
  pose proof (sortBy_perm cmp l) as Hperm.
  destruct (Peer.sortBy cmp l) as [|y rest]; [done|]. injection Hhead as ->.
  apply StronglySorted_inv in Hsorted as [_ Hall]. rewrite Forall_forall in Hall.
  split.
  - rewrite <- Hperm. apply list_elem_of_here.
  - intros x Hx. rewrite <- Hperm in Hx. apply elem_of_cons in Hx as [->|Hx]; [by left|].
    right. by apply Hall.
Qed.

End Sorting.

Lemma byTimestamp_consistent order : consistent (byTimestamp order).
Proof. unfold consistent, byTimestamp. destruct (is_string order "desc"); split; intros; lia. Qed.

(** ** The Foundry-side module: what the handlers return *)

Section PeerAnswers.
Import Peer.

Lemma slice0_prefix {A} limit (l : list A) : ∃ rest, l = (slice0 limit l ++ rest)%list.
Proof.
  unfold slice0. destruct (limit <? 0)%Z; eexists; symmetry; apply take_drop.
Qed.

(** X12.  The answer to a [chat-messages] request that sorts by timestamp
    (the default).  [total] is the number of stored messages, whatever the
    limit.  The messages returned are stored messages, in the order of
    their timestamps: the newest first when the order is [desc] (the
    default), the oldest first for any other order.  They are the first of
    that order: no stored message that is left out comes before a returned
    one. *)
Theorem chat_messages_are_the_first_by_timestamp data limitSetting s :
  is_string (js_or (q_sort data) (Some (JStr "timestamp"))) "timestamp" = true →
  let order := js_or (q_order data) (Some (JStr "desc")) in
  ∃ messages rest,
    chatMessagesHandler data limitSetting s
    = ChatMessagesResult (q_requestId data) messages (length (recentChatMessages s))
    ∧ recentChatMessages s ≡ₚ (messages ++ rest)%list
    ∧ StronglySorted (λ a b, (byTimestamp order a b ≤ 0)%Z) messages
    ∧ (∀ a b, a ∈ messages → b ∈ rest → (byTimestamp order a b ≤ 0)%Z)
    ∧ (is_string order "desc" = true →
       StronglySorted (λ a b, (cd_timestamp b ≤ cd_timestamp a)%Z) messages)
    ∧ (is_string order "desc" = false →
       StronglySorted (λ a b, (cd_timestamp a ≤ cd_timestamp b)%Z) messages).
Proof.
  intros Hsort. cbn zeta. unfold chatMessagesHandler. rewrite Hsort.
  set (order := js_or (q_order data) (Some (JStr "desc"))).
  change (λ a b : chatData, if is_string order "desc"
                            then (cd_timestamp b - cd_timestamp a)%Z
                            else (cd_timestamp a - cd_timestamp b)%Z)
    with (byTimestamp order).
  set (sorted := sortBy (byTimestamp order) (recentChatMessages s)).
  destruct (slice0_prefix (num_or (q_limit data) (num_or (Some limitSetting) 50)) sorted)
    as [rest Hrest].
  set (messages := slice0 _ sorted) in *.
  pose proof (sortBy_sorted (byTimestamp order) (recentChatMessages s)
                (byTimestamp_consistent order)) as Hsorted.
  fold sorted in Hsorted. rewrite Hrest in Hsorted.
  assert (StronglySorted (λ a b, (byTimestamp order a b ≤ 0)%Z) messages) as Hmsgs
    by (by eapply StronglySorted_app_1_l).
  exists messages, rest. split_and!.
  - f_equal. unfold sorted. by rewrite sortBy_perm.
  - rewrite <- Hrest. unfold sorted. by rewrite sortBy_perm.
  - done.
  - intros a b Ha Hb.
    by apply (StronglySorted_app_1_elem_of
                (λ a b, (byTimestamp order a b ≤ 0)%Z) messages rest).
  - intros Hdesc. rewrite <- (list_fmap_id messages).
    eapply StronglySorted_fmap; [|exact Hmsgs].
    intros a b. unfold byTimestamp. rewrite Hdesc. cbn. lia.
  - intros Hasc. rewrite <- (list_fmap_id messages).
    eapply StronglySorted_fmap; [|exact Hmsgs].
    intros a b. unfold byTimestamp. rewrite Hasc. cbn. lia.
Qed.

End PeerAnswers.

(** ** The primary GM *)

Lemma id_or_empty_id u : id_or_empty u = u_id u.
Proof. unfold id_or_empty. by case_bool_decide. Qed.

Lemma activeGMs_perm us1 us2 :
  us1 ≡ₚ us2 → activeGMs (Some us1) ≡ₚ activeGMs (Some us2).
Proof. intros Hp. unfold activeGMs. by rewrite Hp. Qed.

Section PrimaryGM.
Context (localeCompare : string → string → Z).

Lemma checkIfPrimaryGM_head current users :
  checkIfPrimaryGM localeCompare (Some current) users = true ↔
  isFullGM (Some current) = true
  ∧ ∃ first, head (Peer.sortBy (byId localeCompare) (activeGMs users)) = Some first
             ∧ u_id first = u_id current.
Proof.
  unfold checkIfPrimaryGM.
  destruct (isFullGM (Some current)); cbn [negb].
  2:{ split; [done|]. by intros [? _]. }
  destruct (activeGMs users) as [|g gs] eqn:Hgs; cbn [length Nat.eqb].
  { cbn. split; [done|]. by intros [_ (f & ? & _)]. }
  destruct (head (Peer.sortBy (byId localeCompare) (g :: gs))) as [first|].
  - rewrite bool_decide_eq_true. split.
    + intros Hid. split; [done|]. by exists first.
    + by intros [_ (f & [= <-] & Hid)].
  - split; [done|]. by intros [_ (f & ? & _)].
Qed.

(** X13.  The election of the primary GM, for a collation that is a
    consistent comparator.  A user who is not a full GM (isGM with role 4)
    is never primary, and nobody is when no full GM is active.  A user who
    is primary has the id of an active full GM that [localeCompare] puts
    after no other active full GM.  Two users who are primary for the same
    user collection have the same id, and when a full GM is active there is
    an active full GM whose id makes a full GM primary.  When the collation
    tells distinct ids apart, the order of the user collection does not
    matter. *)
Theorem primary_gm_election (users : option (list User)) :
  consistent (byId localeCompare) →
  (∀ user, isFullGM user = false →
     checkIfPrimaryGM localeCompare user users = false)
  ∧ (activeGMs users = [] →
     ∀ user, checkIfPrimaryGM localeCompare user users = false)
  ∧ (∀ current, checkIfPrimaryGM localeCompare (Some current) users = true →
       ∃ first, first ∈ activeGMs users ∧ u_id first = u_id current
                ∧ ∀ g, g ∈ activeGMs users →
                       g = first ∨ (localeCompare (u_id first) (u_id g) ≤ 0)%Z)
  ∧ (∀ u1 u2, checkIfPrimaryGM localeCompare (Some u1) users = true →
              checkIfPrimaryGM localeCompare (Some u2) users = true →
              u_id u1 = u_id u2)
  ∧ (activeGMs users ≠ [] →
     ∃ first, first ∈ activeGMs users
              ∧ ∀ current, isFullGM (Some current) = true →
                  (checkIfPrimaryGM localeCompare (Some current) users = true
                   ↔ u_id current = u_id first))
  ∧ ((∀ a b, (localeCompare a b ≤ 0)%Z → (localeCompare b a ≤ 0)%Z → a = b) →
     ∀ us1 us2 user, us1 ≡ₚ us2 →
       checkIfPrimaryGM localeCompare user (Some us1)
       = checkIfPrimaryGM localeCompare user (Some us2)).
Proof.
  intros Hc. split_and!.
  - intros user Hgm. unfold checkIfPrimaryGM. by rewrite Hgm.
  - intros Hnone user. unfold checkIfPrimaryGM. rewrite Hnone.
    by destruct (negb (isFullGM user)), user.
  - intros current (_ & first & Hhead & Hid)%checkIfPrimaryGM_head.
    destruct (sortBy_head_least (byId localeCompare) _ _ Hc Hhead) as [Hin Hleast].
    exists first. split_and!; [done..|]. intros g Hg.
    destruct (Hleast g Hg) as [->|Hle]; [by left|right].
    unfold byId in Hle. by rewrite !id_or_empty_id in Hle.
  - intros u1 u2 (_ & f1 & Hh1 & Hid1)%checkIfPrimaryGM_head
                 (_ & f2 & Hh2 & Hid2)%checkIfPrimaryGM_head.
    congruence.
  - intros Hsome.
    destruct (Peer.sortBy (byId localeCompare) (activeGMs users)) as [|first rest] eqn:Hsorted.
    { apply (f_equal length) in Hsorted.
      rewrite (Permutation_length (sortBy_perm (byId localeCompare) _)) in Hsorted.
      by destruct (activeGMs users). }
    exists first. split.
    + rewrite <- (sortBy_perm (byId localeCompare)). rewrite Hsorted. apply list_elem_of_here.
    + intros current Hgm. rewrite checkIfPrimaryGM_head, Hsorted. cbn. split.
      * by intros [_ (f & [= <-] & Hid)].
      * intros Hid. split; [done|]. by exists first.
  - intros Hanti us1 us2 user Hperm.
    destruct user as [current|]; [|done].
    apply eq_true_iff_eq. rewrite !checkIfPrimaryGM_head.
    pose proof (activeGMs_perm _ _ Hperm) as Hgs.
    assert (∀ l1 l2 f1, l1 ≡ₚ l2 →
              head (Peer.sortBy (byId localeCompare) l1) = Some f1 →
              ∃ f2, head (Peer.sortBy (byId localeCompare) l2) = Some f2
                    ∧ u_id f2 = u_id f1) as Hsame.
    { intros l1 l2 f1 Hl Hh1.
      destruct (sortBy_head_least (byId localeCompare) _ _ Hc Hh1) as [Hin1 Hleast1].
      destruct (Peer.sortBy (byId localeCompare) l2) as [|f2 rest] eqn:Hs2.
      { apply (f_equal length) in Hs2.
        rewrite (Permutation_length (sortBy_perm (byId localeCompare) _)) in Hs2.
        rewrite <- (Permutation_length Hl) in Hs2. by destruct l1; [apply elem_of_nil in Hin1|]. }
      exists f2. split; [done|].
      assert (head (Peer.sortBy (byId localeCompare) l2) = Some f2) as Hh2 by (by rewrite Hs2).
      destruct (sortBy_head_least (byId localeCompare) _ _ Hc Hh2) as [Hin2 Hleast2].
      rewrite <- Hl in Hin2. rewrite Hl in Hin1.
      destruct (Hleast1 f2 Hin2) as [->|H12]; [done|].
      destruct (Hleast2 f1 Hin1) as [->|H21]; [done|].
      unfold byId in H12, H21. rewrite !id_or_empty_id in H12, H21.
      symmetry. by apply Hanti. }
    split; intros [Hgm (f & Hh & Hid)]; (split; [done|]).
    + destruct (Hsame _ _ f Hgs Hh) as (f2 & Hh2 & Hid2). exists f2. split; congruence.
    + destruct (Hsame _ _ f (symmetry Hgs) Hh) as (f1 & Hh1 & Hid1).
      exists f1. split; congruence.
Qed.

End PrimaryGM.

(** ** The WebSocket manager *)

Section ManagerTimers.
Import Manager.
Context (cfg : settings).

Lemma reconnectDelay_bound n : (reconnectDelay cfg n ≤ 30000)%Z.
Proof. unfold reconnectDelay. lia. Qed.

(** A step that keeps the two timer fields, does not raise the attempt
    counter, and arms or clears nothing but connect timers. *)
Lemma timers_ok_keep b b' :
  timers_ok cfg b →
  reconnectTimer (this b') = reconnectTimer (this b) →
  pingInterval (this b') = pingInterval (this b) →
  (reconnectAttempts (this b') ≤ reconnectAttempts (this b))%nat →
  (fresh b ≤ fresh b')%nat →
  (∀ id, timers b' !! id = timers b !! id
         ∨ timers b' !! id = None ∧ timers b !! id = Some ConnectTimeout
         ∨ timers b !! id = None ∧ timers b' !! id = Some ConnectTimeout
           ∧ id < fresh b') →
  (∀ n timeout, connectTimer b' !! n = Some timeout →
     connectTimer b !! n = Some timeout
     ∨ (timeout < fresh b')%nat ∧ (fresh b ≤ timeout)%nat
       ∧ timers b' !! timeout = Some ConnectTimeout) →
  timers_ok cfg b'.
Proof.
  intros (Hrt & Hpi & Hfresh & Hct & Hdelay & Hatt) Ert Epi Eatt Efresh Htm Hcts.
  split_and!.
  - intros id. rewrite Ert, <- Hrt.
    destruct (Htm id) as [->|[[-> ->]|(-> & -> & _)]]; [done|..];
      split; by intros [? ?].
  - intros id. rewrite Epi, <- Hpi.
    destruct (Htm id) as [->|[[-> ->]|(-> & -> & _)]]; [done|..];
      split; by intros [? ?].
  - intros id Hid. destruct (Htm id) as [Heq|[[Heq _]|(_ & _ & ?)]]; [| |done].
    + rewrite Heq in Hid. apply Hfresh in Hid. lia.
    + rewrite Heq in Hid. by destruct Hid.
  - intros n timeout [Hold|(Hlt & Hge & Hnew)]%Hcts; [|by split; [|right]].
    destruct (Hct n timeout Hold) as [Hlt Hkind]. split; [lia|].
    destruct (Htm timeout) as [->|[[-> _]|(_ & -> & _)]]; [done|by left|by right].
  - intros id delay Hid. destruct (Htm id) as [Heq|[[Heq _]|(_ & Heq & _)]];
      rewrite Heq in Hid; [by eapply Hdelay|done|done].
  - lia.
Qed.

Lemma scheduleReconnect_ok b : timers_ok cfg b → timers_ok cfg (scheduleReconnect cfg b).
Proof.
  intros Hok. pose proof Hok as (Hrt & Hpi & Hfresh & Hct & Hdelay & Hatt).
  unfold scheduleReconnect.
  destruct (reconnectTimer (this b)) as [id0|] eqn:Hfield; [exact Hok|].
  destruct (Z.of_nat (S (reconnectAttempts (this b))) >? reconnectMaxAttempts cfg)%Z
    eqn:Hmax.
  - apply (timers_ok_keep b); cbn; try done; try lia.
    + intros id. by left.
    + intros n timeout ?. by left.
  - split_and!; cbn.
    + intros id. rewrite lookup_insert. case_decide as Hid.
      * subst id. split; [done|]. intros _. by eexists.
      * rewrite Hrt. split; [done|]. by intros [= ?].
    + intros id. rewrite lookup_insert. case_decide as Hid.
      * subst id. split; [by intros [ms [=]]|]. intros Hp. apply Hpi in Hp as [ms Hp].
        assert (fresh b < fresh b) by (apply Hfresh; by eexists). lia.
      * apply Hpi.
    + intros id. rewrite lookup_insert. case_decide as Hid; [intros _; lia|].
      intros Hid'%Hfresh. lia.
    + intros n timeout Hn. destruct (Hct n timeout Hn) as [Hlt Hkind].
      split; [lia|]. rewrite lookup_insert_ne by lia. done.
    + intros id delay. rewrite lookup_insert. case_decide as Hid.
      * intros [= <-]. apply reconnectDelay_bound.
      * apply Hdelay.
    + rewrite Z.gtb_ltb, Z.ltb_ge in Hmax. lia.
Qed.

Lemma connect_ok fullGM urlOk b :
  timers_ok cfg b → timers_ok cfg (connect cfg fullGM urlOk b).
Proof.
  intros Hok. unfold connect.
  destruct (negb fullGM); [done|].
  destruct (negb (isPrimaryGM (this b))); [done|].
  destruct (isConnecting (this b)); [done|].
  destruct (_ || _); [done|].
  destruct urlOk.
  - pose proof Hok as (_ & _ & Hfresh & _).
    apply (timers_ok_keep b); cbn; try done; try lia.
    + intros id. rewrite lookup_insert. case_decide as Hid; [|by left].
      subst id. right; right. split_and!; [|done|lia].
      destruct (timers b !! S (fresh b)) eqn:Ht; [|done].
      assert (S (fresh b) < fresh b) by (apply Hfresh; by eexists). lia.
    + intros n timeout. rewrite lookup_insert. case_decide as Hn; [|by left].
      intros [= <-]. right. split_and!; [lia..|]. apply lookup_insert_eq.
  - apply scheduleReconnect_ok. apply (timers_ok_keep b); cbn; try done.
    + intros id. by left.
    + intros n timeout ?. by left.
Qed.

Lemma closeSocket_ok n b : timers_ok cfg b → timers_ok cfg (closeSocket n b).
Proof.
  intros Hok. apply (timers_ok_keep b); cbn; try done.
  - intros id. by left.
  - intros ? timeout ?. by left.
Qed.

Lemma set_this_ok f b :
  timers_ok cfg b →
  reconnectTimer (f (this b)) = reconnectTimer (this b) →
  pingInterval (f (this b)) = pingInterval (this b) →
  (reconnectAttempts (f (this b)) ≤ reconnectAttempts (this b))%nat →
  timers_ok cfg (set_this f b).
Proof.
  intros Hok Ert Epi Eatt. apply (timers_ok_keep b); cbn; try done.
  - intros id. by left.
  - intros ? timeout ?. by left.
Qed.

Lemma send_ok data b : timers_ok cfg b → timers_ok cfg (send data b).2.
Proof.
  intros Hok. unfold send. destruct (socket (this b)) as [n|]; [|done].
  case_bool_decide; [|done]. apply (timers_ok_keep b); cbn; try done.
  - intros id. by left.
  - intros ? timeout ?. by left.
Qed.

Lemma connectTimedOut_ok b : timers_ok cfg b → timers_ok cfg (connectTimedOut cfg b).
Proof.
  intros Hok. unfold connectTimedOut. destruct (socket (this b)) as [n|]; [|done].
  case_bool_decide; [|done].
  apply scheduleReconnect_ok, set_this_ok; [by apply closeSocket_ok|done..].
Qed.

(** Clearing the timer a field refers to, and the field with it. *)
Lemma clear_reconnect_ok b id f :
  timers_ok cfg b → reconnectTimer (this b) = Some id →
  reconnectTimer (f (this b)) = None →
  pingInterval (f (this b)) = pingInterval (this b) →
  (reconnectAttempts (f (this b)) ≤ reconnectAttempts (this b))%nat →
  timers_ok cfg (set_this f (clearTimer id b)).
Proof.
  intros (Hrt & Hpi & Hfresh & Hct & Hdelay & Hatt) Hfield Ert Epi Eatt.
  split_and!; cbn.
  - intros id'. rewrite Ert, lookup_delete. case_decide as Hid.
    + split; [by intros [? ?]|done].
    + rewrite Hrt, Hfield. split; [by intros [= ?]|done].
  - intros id'. rewrite Epi, lookup_delete. case_decide as Hid; [|apply Hpi].
    subst id'. split; [by intros [? ?]|]. intros [ms Hms]%Hpi.
    apply Hrt in Hfield as [delay Hd]. congruence.
  - intros id' Hid'. apply Hfresh. rewrite lookup_delete in Hid'.
    by case_decide; [destruct Hid'|].
  - intros n timeout Hn. destruct (Hct n timeout Hn) as [Hlt Hkind]. split; [done|].
    rewrite lookup_delete. case_decide; [by left|done].
  - intros id' delay. rewrite lookup_delete. case_decide; [done|apply Hdelay].
  - lia.
Qed.

Lemma clear_ping_ok b id f :
  timers_ok cfg b → pingInterval (this b) = Some id →
  pingInterval (f (this b)) = None →
  reconnectTimer (f (this b)) = reconnectTimer (this b) →
  (reconnectAttempts (f (this b)) ≤ reconnectAttempts (this b))%nat →
  timers_ok cfg (set_this f (clearTimer id b)).
Proof.
  intros (Hrt & Hpi & Hfresh & Hct & Hdelay & Hatt) Hfield Epi Ert Eatt.
  split_and!; cbn.
  - intros id'. rewrite Ert, lookup_delete. case_decide as Hid; [|apply Hrt].
    subst id'. split; [by intros [? ?]|]. intros [delay Hd]%Hrt.
    apply Hpi in Hfield as [ms Hms]. congruence.
  - intros id'. rewrite Epi, lookup_delete. case_decide as Hid.
    + split; [by intros [? ?]|done].
    + rewrite Hpi, Hfield. split; [by intros [= ?]|done].
  - intros id' Hid'. apply Hfresh. rewrite lookup_delete in Hid'.
    by case_decide; [destruct Hid'|].
  - intros n timeout Hn. destruct (Hct n timeout Hn) as [Hlt Hkind]. split; [done|].
    rewrite lookup_delete. case_decide; [by left|done].
  - intros id' delay. rewrite lookup_delete. case_decide; [done|apply Hdelay].
  - lia.
Qed.

Lemma disconnect_ok b : timers_ok cfg b → timers_ok cfg (disconnect b).
Proof.
  intros Hok. unfold disconnect.
  set (b1 := match socket (this b) with Some n => _ | None => b end).
  assert (timers_ok cfg b1) as Hok1.
  { subst b1. destruct (socket (this b)) as [n|]; [|done].
    apply set_this_ok; [by apply closeSocket_ok|done..]. }
  clearbody b1.
  set (b2 := match reconnectTimer (this b1) with Some id => _ | None => b1 end).
  assert (timers_ok cfg b2) as Hok2.
  { subst b2. destruct (reconnectTimer (this b1)) as [id|] eqn:Hfield; [|done].
    by apply clear_reconnect_ok. }
  clearbody b2.
  set (b3 := match pingInterval (this b2) with Some id => _ | None => b2 end).
  assert (timers_ok cfg b3) as Hok3.
  { subst b3. destruct (pingInterval (this b2)) as [id|] eqn:Hfield; [|done].
    by apply clear_ping_ok. }
  clearbody b3. apply set_this_ok; [done|done|done|cbn; lia].
Qed.

Lemma onOpen_ok b : timers_ok cfg b → timers_ok cfg (onOpen cfg b).
Proof.
  intros Hok. unfold onOpen.
  set (b2 := (send ping _).2).
  assert (timers_ok cfg b2) as Hok2.
  { subst b2. apply send_ok, set_this_ok; [done|done|done|cbn; lia]. }
  clearbody b2. pose proof Hok2 as (Hrt & Hpi & Hfresh & Hct & Hdelay & Hatt).
  destruct (pingInterval (this b2)) as [old|] eqn:Hfield; split_and!; cbn.
  - intros id. rewrite lookup_insert. case_decide as Hid.
    + subst id. split; [by intros [? [=]]|]. intros [delay Hd]%Hrt.
      assert (fresh b2 < fresh b2) by (apply Hfresh; by eexists). lia.
    + rewrite lookup_delete. case_decide as Hold; [|apply Hrt]. subst id.
      split; [by intros [? ?]|]. intros [delay Hd]%Hrt.
      assert (∃ ms, timers b2 !! old = Some (PingInterval ms)) as [ms Hms]
        by (by apply Hpi). congruence.
  - intros id. rewrite lookup_insert. case_decide as Hid.
    + subst id. split; [done|]. intros _. by eexists.
    + rewrite lookup_delete. case_decide as Hold.
      * split; [by intros [? ?]|]. by intros [= ?].
      * rewrite Hpi. split; [by intros [= ?]|by intros [= ?]].
  - intros id. rewrite lookup_insert. case_decide as Hid; [intros _; lia|].
    rewrite lookup_delete. case_decide; [by intros [? ?]|].
    intros ?%Hfresh. lia.
  - intros n timeout Hn. destruct (Hct n timeout Hn) as [Hlt Hkind]. split; [lia|].
    rewrite lookup_insert_ne by lia. rewrite lookup_delete.
    case_decide; [by left|done].
  - intros id delay. rewrite lookup_insert. case_decide; [done|].
    rewrite lookup_delete. case_decide; [done|apply Hdelay].
  - done.
  - intros id. rewrite lookup_insert. case_decide as Hid; [|apply Hrt].
    subst id. split; [by intros [? [=]]|]. intros [delay Hd]%Hrt.
    assert (fresh b2 < fresh b2) by (apply Hfresh; by eexists). lia.
  - intros id. rewrite lookup_insert. case_decide as Hid.
    + subst id. split; [done|]. intros _. by eexists.
    + rewrite Hpi. split; [done|by intros [= ?]].
  - intros id. rewrite lookup_insert. case_decide as Hid; [intros _; lia|].
    intros ?%Hfresh. lia.
  - intros n timeout Hn. destruct (Hct n timeout Hn) as [Hlt Hkind]. split; [lia|].
    by rewrite lookup_insert_ne by lia.
  - intros id delay. rewrite lookup_insert. case_decide; [done|apply Hdelay].
  - done.
Qed.

Lemma onClose_ok code b : timers_ok cfg b → timers_ok cfg (onClose cfg code b).
Proof.
  intros Hok. unfold onClose.
  set (b1 := set_this _ b).
  assert (timers_ok cfg b1) as Hok1 by (by apply set_this_ok).
  clearbody b1.
  set (b2 := match pingInterval (this b1) with Some id => _ | None => b1 end).
  assert (timers_ok cfg b2) as Hok2.
  { subst b2. destruct (pingInterval (this b1)) as [id|] eqn:Hfield; [|done].
    by apply clear_ping_ok. }
  clearbody b2. destruct (_ && _); [by apply scheduleReconnect_ok|done].
Qed.

Lemma onError_ok b : timers_ok cfg b → timers_ok cfg (onError b).
Proof. intros Hok. by apply set_this_ok. Qed.

Lemma pingFired_ok b : timers_ok cfg b → timers_ok cfg (pingFired b).
Proof. intros Hok. unfold pingFired. destruct (isConnected b); [by apply send_ok|done]. Qed.

Lemma reevaluatePrimaryGM_ok fullGM urlOk primary b :
  timers_ok cfg b → timers_ok cfg (reevaluatePrimaryGM cfg fullGM urlOk primary b).
Proof.
  intros Hok. unfold reevaluatePrimaryGM.
  set (b1 := set_this _ b).
  assert (timers_ok cfg b1) as Hok1 by (by apply set_this_ok).
  clearbody b1. case_bool_decide; [done|].
  destruct (_ && _); [by apply connect_ok|].
  destruct (_ && _); [by apply disconnect_ok|done].
Qed.

Lemma clearConnectTimer_ok n b : timers_ok cfg b → timers_ok cfg (clearConnectTimer n b).
Proof.
  intros Hok. unfold clearConnectTimer.
  destruct (connectTimer b !! n) as [timeout|] eqn:Hn; [|done].
  pose proof Hok as (_ & _ & _ & Hct & _). destruct (Hct n timeout Hn) as [_ Hkind].
  apply (timers_ok_keep b); cbn; try done.
  - intros id. rewrite lookup_delete. case_decide as Hid; [|by left]. subst id.
    destruct Hkind as [-> | ->]; [by left|right; by left].
  - intros ? ? ?. by left.
Qed.

Lemma setReadyState_ok n r b : timers_ok cfg b → timers_ok cfg (setReadyState n r b).
Proof.
  intros Hok. apply (timers_ok_keep b); cbn; try done.
  - intros id. by left.
  - intros ? ? ?. by left.
Qed.

Lemma step_ok b ev : timers_ok cfg b → timers_ok cfg (step cfg b ev).
Proof.
  intros Hok. destruct ev as [fullGM urlOk| |fullGM urlOk primary|n|n code|n|id fullGM urlOk];
    cbn [step].
  - by apply connect_ok.
  - by apply disconnect_ok.
  - by apply reevaluatePrimaryGM_ok.
  - case_bool_decide; [|done]. by apply onOpen_ok, clearConnectTimer_ok, setReadyState_ok.
  - case_bool_decide; [|done]. by apply onClose_ok, clearConnectTimer_ok, setReadyState_ok.
  - case_bool_decide; [|done]. by apply onError_ok, clearConnectTimer_ok.
  - destruct (timers b !! id) as [[|delay|ms]|] eqn:Hid; [| | |done].
    + apply connectTimedOut_ok. apply (timers_ok_keep b); cbn; try done.
      * intros id'. rewrite lookup_delete. case_decide as Heq; [|by left].
        subst id'. right; by left.
      * intros ? ? ?. by left.
    + pose proof Hok as (Hrt & _).
      assert (reconnectTimer (this b) = Some id) as Hfield by (apply Hrt; by eexists).
      unfold reconnectFired.
      set (b1 := set_this _ (clearTimer id b)).
      assert (timers_ok cfg b1) as Hok1 by (by apply clear_reconnect_ok).
      clearbody b1. destruct (isPrimaryGM (this b1)); [by apply connect_ok|].
      apply set_this_ok; [done|done|done|cbn; lia].
    + by apply pingFired_ok.
Qed.

Lemma start_ok primary : timers_ok cfg (start primary).
Proof.
  split_and!; cbn.
  - intros id. rewrite lookup_empty. split; [by intros [? ?]|done].
  - intros id. rewrite lookup_empty. split; [by intros [? ?]|done].
  - intros id. rewrite lookup_empty. by intros [? ?].
  - intros n timeout. by rewrite lookup_empty.
  - intros id delay. by rewrite lookup_empty.
  - lia.
Qed.

Lemma run_ok b evs : timers_ok cfg b → timers_ok cfg (run cfg b evs).
Proof.
  revert b. induction evs as [|ev evs IH]; intros b Hok; [done|].
  cbn. apply IH. by apply step_ok.
Qed.


(** X14.  Whatever happens to the manager after its construction (calls
    of [connect] and [disconnect], changes of the users, events of its
    sockets, timers firing, in any order): a reconnect timer is armed
    exactly when [reconnectTimer] holds its handle, and a ping interval
    exactly when [pingInterval] does, so at most one of each is armed; no
    reconnect delay is above 30 seconds; and the attempt counter never
    exceeds the configured maximum. *)
Theorem manager_timers_never_pile_up primary evs :
  let b := run cfg (start primary) evs in
  timers_ok cfg b
  ∧ (∀ id1 id2 delay1 delay2,
       timers b !! id1 = Some (ReconnectTimer delay1) →
       timers b !! id2 = Some (ReconnectTimer delay2) → id1 = id2)
  ∧ (∀ id1 id2 ms1 ms2,
       timers b !! id1 = Some (PingInterval ms1) →
       timers b !! id2 = Some (PingInterval ms2) → id1 = id2).
Proof.
  cbn zeta. pose proof (run_ok _ evs (start_ok primary)) as Hok.
  split; [done|]. destruct Hok as (Hrt & Hpi & _). split.
  - intros id1 id2 d1 d2 H1 H2.
    assert (reconnectTimer (this (run cfg (start primary) evs)) = Some id1) as E1
      by (apply Hrt; by eexists).
    assert (reconnectTimer (this (run cfg (start primary) evs)) = Some id2) as E2
      by (apply Hrt; by eexists).
    congruence.
  - intros id1 id2 d1 d2 H1 H2.
    assert (pingInterval (this (run cfg (start primary) evs)) = Some id1) as E1
      by (apply Hpi; by eexists).
    assert (pingInterval (this (run cfg (start primary) evs)) = Some id2) as E2
      by (apply Hpi; by eexists).
    congruence.
Qed.

(** X15.  The back-off of [scheduleReconnect].  While a reconnect timer is
    pending the call does nothing.  Otherwise the attempt counter [n]
    becomes [n + 1]; when that exceeds the configured maximum the counter
    is reset to 0 and no timer is armed; else one timer is armed, with the
    delay [min(30000, baseDelay * 2^n)].  For a base delay that is not
    negative the delay never decreases from one attempt to the next, and
    it is never above 30 seconds. *)
Theorem reconnect_backs_off b :
  let n := reconnectAttempts (this b) in
  let b' := scheduleReconnect cfg b in
  (is_Some (reconnectTimer (this b)) → b' = b)
  ∧ (reconnectTimer (this b) = None →
     (Z.of_nat (S n) > reconnectMaxAttempts cfg)%Z →
     reconnectAttempts (this b') = 0 ∧ reconnectTimer (this b') = None
     ∧ timers b' = timers b)
  ∧ (reconnectTimer (this b) = None →
     (Z.of_nat (S n) ≤ reconnectMaxAttempts cfg)%Z →
     reconnectAttempts (this b') = S n
     ∧ reconnectTimer (this b') = Some (fresh b)
     ∧ timers b'
       = <[fresh b := ReconnectTimer
                        (Z.min 30000 (reconnectBaseDelay cfg * 2 ^ Z.of_nat n))]>
           (timers b))
  ∧ (∀ k, (reconnectDelay cfg k ≤ 30000)%Z)
  ∧ ((0 ≤ reconnectBaseDelay cfg)%Z →
     ∀ k, (reconnectDelay cfg k ≤ reconnectDelay cfg (S k))%Z).
Proof.
  cbn zeta. unfold scheduleReconnect. split_and!.
  - by intros [id ->].
  - intros Hnone Hmax. rewrite Hnone.
    destruct (Z.of_nat (S (reconnectAttempts (this b))) >? reconnectMaxAttempts cfg)%Z
      eqn:Hgt; [cbn; by split_and!|].
    rewrite Z.gtb_ltb, Z.ltb_ge in Hgt. lia.
  - intros Hnone Hmax. rewrite Hnone.
    destruct (Z.of_nat (S (reconnectAttempts (this b))) >? reconnectMaxAttempts cfg)%Z
      eqn:Hgt; [|cbn; by split_and!].
    rewrite Z.gtb_ltb, Z.ltb_lt in Hgt. lia.
  - apply reconnectDelay_bound.
  - intros Hbase k. unfold reconnectDelay.
    assert (reconnectBaseDelay cfg * 2 ^ Z.of_nat k
            ≤ reconnectBaseDelay cfg * 2 ^ Z.of_nat (S k))%Z; [|lia].
    apply Z.mul_le_mono_nonneg_l; [done|].
    apply Z.pow_le_mono_r; lia.
Qed.

(** X16.  [disconnect()] stops everything: afterwards the manager has no
    socket and is not connected, the socket it had is closing or closed,
    no reconnect timer and no ping interval is armed, the attempt counter
    is 0, nothing has been written, a pending connect timeout does
    nothing, and a second [disconnect()] changes nothing. *)
Theorem disconnect_stops_everything b :
  timers_ok cfg b →
  let b' := disconnect b in
  socket (this b') = None ∧ isConnected b' = false
  ∧ isConnecting (this b') = false
  ∧ reconnectTimer (this b') = None ∧ pingInterval (this b') = None
  ∧ reconnectAttempts (this b') = 0
  ∧ (∀ id, timers b' !! id = None ∨ timers b' !! id = Some ConnectTimeout)
  ∧ (∀ n r, socket (this b) = Some n → readyStates b' !! n = Some r →
            r = CLOSING ∨ r = CLOSED)
  ∧ written b' = written b
  ∧ connectTimedOut cfg b' = b'
  ∧ disconnect b' = b'.
Proof.
  intros Hok. cbn zeta. pose proof (disconnect_ok b Hok) as (Hrt' & Hpi' & _).
  assert (socket (this (disconnect b)) = None
          ∧ reconnectTimer (this (disconnect b)) = None
          ∧ pingInterval (this (disconnect b)) = None
          ∧ reconnectAttempts (this (disconnect b)) = 0
          ∧ isConnecting (this (disconnect b)) = false
          ∧ written (disconnect b) = written b
          ∧ readyStates (disconnect b)
            = match socket (this b) with
              | Some n => readyStates (closeSocket n b)
              | None => readyStates b
              end) as (Hs & Hr & Hp & Ha & Hc & Hw & Hrs).
  { unfold disconnect.
    destruct b as [[sock rt att pi conn prim] rs ct tm fr wr]; cbn.
    destruct sock, rt, pi; cbn; by split_and!. }
  split_and!; try done.
  - unfold isConnected, readyStateOf. by rewrite Hs.
  - intros id. destruct (timers (disconnect b) !! id) as [[|delay|ms]|] eqn:Hid;
      [by right| | |by left].
    + assert (reconnectTimer (this (disconnect b)) = Some id)
        by (apply Hrt'; by eexists). congruence.
    + assert (pingInterval (this (disconnect b)) = Some id)
        by (apply Hpi'; by eexists). congruence.
  - intros n r Hn. rewrite Hrs, Hn. unfold closeSocket. cbn.
    destruct (readyStates b !! n) as [[]|] eqn:Hrn;
      rewrite ?lookup_insert_eq, ?Hrn; intros [= <-]; auto.
  - unfold connectTimedOut. by rewrite Hs.
  - revert Hs Hr Hp Ha Hc. generalize (disconnect b). clear.
    intros [[sock rt att pi conn prim] rs ct tm fr wr]; cbn.
    by intros -> -> -> -> ->.
Qed.

End ManagerTimers.

(** ** The two hooks of the module *)

Section Hooks.
Import Peer.

(** X20.  What the two [createChatMessage] hooks do with one message.  A
    message that is not a roll goes to the chat list only; a roll message
    with at least one roll goes to the roll list only, and its data is
    pushed to the relay as a [roll-data] frame exactly when the socket is
    connected; a roll message without rolls is stored nowhere and nothing
    is pushed.  So no message lands in both lists, and nothing but
    [roll-data] frames is pushed. *)
Theorem message_goes_to_one_list message now maxSetting connected s :
  let s' := createChatMessage message now maxSetting connected s in
  (msg_isRoll message = false →
     recentRolls s' = recentRolls s ∧ sent s' = sent s
     ∧ recentChatMessages s'
       = truncateTo (effectiveMax maxSetting)
           (store cd_id (chatDataOf message now) (recentChatMessages s)))
  ∧ (msg_isRoll message = true →
     recentChatMessages s' = recentChatMessages s
     ∧ match msg_rolls message with
       | Some (roll :: _) =>
           recentRolls s'
           = truncateTo MAX_ROLLS_STORED
               (store rd_id (rollDataOf message roll now) (recentRolls s))
           ∧ sent s' = (if connected
                        then sent s ++ [RollDataFrame (rollDataOf message roll now)]
                        else sent s)%list
       | _ => s' = s
       end)
  ∧ (recentChatMessages s' = recentChatMessages s ∨ recentRolls s' = recentRolls s).
Proof.
  cbn zeta. unfold createChatMessage, collectRoll, collectChat.
  destruct (msg_isRoll message), (msg_rolls message) as [[|roll rolls]|];
    cbn; split_and!; try done; try (intros _; by split_and!); auto.
  all: try (by destruct s).
Qed.

End Hooks.

(** ** The module on the wire *)

Section WireAnswers.
Import Peer Wire.

Lemma messageHandlers_lookup type :
  messageHandlers !! type
  = if bool_decide (type = "ping") then Some PingRoute
    else if bool_decide (type = "pong") then Some PongRoute
    else if bool_decide (type = "chat-messages") then Some ChatMessagesRoute
    else if bool_decide (type = "rolls") then Some RollsRoute
    else if bool_decide (type = "last-roll") then Some LastRollRoute
    else None.
Proof.
  unfold messageHandlers, routes. cbn [foldl fst snd].
  repeat (case_bool_decide;
          [subst type; repeat (rewrite lookup_insert_ne by done);
           by rewrite lookup_insert_eq|]).
  rewrite !lookup_insert_ne by congruence. apply lookup_empty.
Qed.

Lemma request_of_fields data q :
  request_of data = Some q →
  q_requestId q = data !! "requestId" ∧ q_sort q = data !! "sort"
  ∧ q_order q = data !! "order".
Proof.
  unfold request_of. destruct (data !! "limit") as [[]|]; intros [= <-]; done.
Qed.

(** X17.  What the module answers to a message from the relay.  A [ping]
    is answered with [{type: "pong"}]; a [pong], a message without a
    [type] and a message of any other type are not answered.  The answer
    to a [chat-messages], [rolls] or [last-roll] request has the type of
    the request followed by [-result] and the [requestId] of the request.
    The answer depends on no property of the message other than [type],
    [requestId], [limit], [sort] and [order]: the [user] and [type]
    filters of GET /messages have no effect on it. *)
Theorem module_answers_echo_the_requestId limitSetting s :
  (∀ data, data !! "type" = Some (JStr "ping") →
     onMessage data limitSetting s = Some (Some {["type" := JStr "pong"]}))
  ∧ (∀ data, data !! "type" = None →
       onMessage data limitSetting s = Some None)
  ∧ (∀ data type, data !! "type" = Some (JStr type) →
       type ∉ ["ping"; "chat-messages"; "rolls"; "last-roll"] →
       onMessage data limitSetting s = Some None)
  ∧ (∀ data type answer,
       data !! "type" = Some (JStr type) →
       type ∈ ["chat-messages"; "rolls"; "last-roll"] →
       onMessage data limitSetting s = Some (Some answer) →
       answer !! "type" = Some (JStr (type +:+ "-result"))
       ∧ answer !! "requestId" = data !! "requestId")
  ∧ (∀ data data' : object,
       (∀ k, k ∈ ["type"; "requestId"; "limit"; "sort"; "order"] →
             data !! k = data' !! k) →
       onMessage data limitSetting s = onMessage data' limitSetting s).
Proof.
  split_and!.
  - intros data Htype. unfold onMessage. rewrite Htype. cbn [truthy].
    by rewrite messageHandlers_lookup.
  - intros data Htype. unfold onMessage. by rewrite Htype.
  - intros data type Htype Hother. unfold onMessage. rewrite Htype.
    destruct (truthy (Some (JStr type))); [|done].
    rewrite messageHandlers_lookup. rewrite !not_elem_of_cons in Hother.
    destruct Hother as (? & ? & ? & ? & _).
    repeat (case_bool_decide; [done|]). done.
  - intros data type answer Htype Hin. unfold onMessage. rewrite Htype.
    rewrite !elem_of_cons in Hin.
    destruct Hin as [->|[->|[->|?%elem_of_nil]]]; [| | |done];
      cbn [truthy bool_decide negb]; rewrite messageHandlers_lookup; cbn.
    + destruct (request_of data) as [q|] eqn:Hq; [|done]. cbn. intros [= <-].
      apply request_of_fields in Hq as (-> & _ & _).
      unfold chatMessagesHandler. cbn [frame_json obj_of].
      split; [apply lookup_insert_eq|]. rewrite lookup_insert_ne by done.
      destruct (data !! "requestId");
        [apply lookup_insert_eq|by rewrite !lookup_insert_ne].
    + destruct (request_of data) as [q|] eqn:Hq; [|done]. cbn. intros [= <-].
      apply request_of_fields in Hq as (-> & _ & _).
      unfold rollsHandler. cbn [frame_json obj_of].
      split; [apply lookup_insert_eq|]. rewrite lookup_insert_ne by done.
      destruct (data !! "requestId");
        [apply lookup_insert_eq|by rewrite !lookup_insert_ne].
    + intros [= <-]. unfold lastRollHandler. cbn [frame_json obj_of q_requestId].
      split; [apply lookup_insert_eq|]. rewrite lookup_insert_ne by done.
      destruct (data !! "requestId");
        [apply lookup_insert_eq|by rewrite !lookup_insert_ne].
  - intros data data' Hsame. unfold onMessage, request_of.
    rewrite <- !(Hsame "type"), <- !(Hsame "requestId"), <- !(Hsame "limit"),
      <- !(Hsame "sort"), <- !(Hsame "order");
      by (try done); apply (bool_decide_unpack _).
Qed.

End WireAnswers.

Section RoundTrip.
Import Peer Wire.
Context `{Platform}.

Lemma processParams_lastroll req c :
  req_query req ≫= (λ o, o !! "clientId") = Some (JStr c) →
  processParams route_lastroll req = inr {["clientId" := JStr c]}.
Proof.
  intros Hc. unfold processParams, extractParams.
  cbn [cfg_requiredParams cfg_optionalParams route_lastroll app foldl p_name p_from
       firstDefined req_source].
  rewrite Hc. reflexivity.
Qed.

Lemma relayed_lastroll c client req res now st :
  req_query req ≫= (λ o, o !! "clientId") = Some (JStr c) →
  clients st !! c = Some client → c_open client = true →
  createApiRoute route_lastroll req res now st
  = (mkState
       (<[requestId_of "last-roll" now :=
            mkPending res "last-roll" (Some (JStr c)) None None None None now
                      None None None None]> (pendingRequests st))
       (clients st) (responses st)
       (outbox st ++ [(c_id client,
          {["type" := JStr "last-roll";
            "requestId" := JStr (requestId_of "last-roll" now);
            "data" := JObj ∅]})]),
     Some (mkTimer 10000 (requestId_of "last-roll" now) res)).
Proof.
  intros Hq Hc Hopen. unfold createApiRoute. rewrite (processParams_lastroll _ _ Hq).
  replace (({["clientId" := JStr c]} : object) !! "clientId")
    with (Some (JStr c)) by (vm_compute; reflexivity).
  cbn [getClient]. rewrite Hc. cbn [cfg_buildPayload route_lastroll cfg_type].
  unfold client_send. rewrite Hopen.
  replace (relayMessage _ _ _)
    with ({["type" := JStr "last-roll";
            "requestId" := JStr (requestId_of "last-roll" now);
            "data" := JObj ∅]} : object) by (vm_compute; reflexivity).
  reflexivity.
Qed.

(** X18.  GET /lastroll, from the request to the response, when the module
    of the target client answers the frame it is sent.  The relay sends
    [{type: "last-roll", requestId, data: {}}]; the module answers with
    the first roll of its stored list ([recentRolls[0]], which is not the
    roll with the latest timestamp once a stored id has been stored again)
    or [null]; and the
    caller receives 200 with [{type: "last-roll-result", requestId,
    clientId, data}], where [data] is that roll without its sensitive keys,
    or [null].  The waiter is gone. *)
Theorem lastroll_round_trip c client req res now st limitSetting s :
  req_query req ≫= (λ o, o !! "clientId") = Some (JStr c) →
  clients st !! c = Some client → c_open client = true → c ≠ "" →
  responses st !! res = None →
  let requestId := requestId_of "last-roll" now in
  let relayed := (createApiRoute route_lastroll req res now st).1 in
  ∃ frame answer,
    outbox relayed = (outbox st ++ [(c_id client, frame)])%list
    ∧ onMessage frame limitSetting s = Some (Some answer)
    ∧ handleMessage client answer relayed
      = mkState (delete requestId (pendingRequests st)) (clients st)
          (<[res := mkResponse 200 []
               (BJson (Some (JObj
                  {["type" := JStr "last-roll-result";
                    "requestId" := JStr requestId;
                    "clientId" := JStr c;
                    "data" := match head (recentRolls s) with
                              | Some roll => removeSensitiveKeys (rollData_json roll)
                              | None => JNull
                              end]})))]> (responses st))
          (outbox relayed).
Proof.
  intros Hq Hc Hopen Hne Hres. cbn zeta.
  rewrite (relayed_lastroll _ _ _ _ _ _ Hq Hc Hopen). cbn [fst outbox].
  eexists _, _. split; [reflexivity|]. split.
  { unfold onMessage.
    replace (({["type" := JStr "last-roll";
                "requestId" := JStr (requestId_of "last-roll" now);
                "data" := JObj ∅]} : object) !! "type")
      with (Some (JStr "last-roll")) by (vm_compute; reflexivity).
    cbn [truthy bool_decide negb]. rewrite messageHandlers_lookup. cbn.
    reflexivity. }
  unfold lastRollHandler. cbn [frame_json q_requestId].
  set (data := match head (recentRolls s) with
               | Some roll => rollData_json roll
               | None => JNull
               end).
  replace (({["type" := JStr "last-roll";
              "requestId" := JStr (requestId_of "last-roll" now);
              "data" := JObj ∅]} : object) !! "requestId")
    with (Some (JStr (requestId_of "last-roll" now))) by (vm_compute; reflexivity).
  cbn [obj_of].
  set (answer := <["type" := JStr "last-roll-result"]>
                   (<["requestId" := JStr (requestId_of "last-roll" now)]>
                      (<["data" := data]> ∅)) : object).
  unfold handleMessage.
  replace (answer !! "type") with (Some (JStr "last-roll-result"))
    by (vm_compute; reflexivity).
  replace (handlerFor "last-roll-result") with (Some (ResultHandler "last-roll"))
    by (vm_compute; reflexivity).
  assert (answer !! "requestId" = Some (JStr (requestId_of "last-roll" now))) as Hrid.
  { unfold answer. rewrite lookup_insert_ne by done. apply lookup_insert_eq. }
  erewrite (resultHandler_completes _ _ _ _ _ Hrid);
    [|apply requestId_of_nonempty|cbn; apply lookup_insert_eq|done
     |unfold answer; rewrite !lookup_insert_ne by done; apply lookup_empty].
  clear Hrid.
  cbn [pendingRequests responses clients outbox pr_res pr_clientId].
  rewrite delete_insert_eq.
  replace (truthy (answer !! "error")) with false by (vm_compute; reflexivity).
  rewrite or_default_string by done.
  f_equal. f_equal. f_equal. f_equal. f_equal.
  rewrite removeSensitiveKeys_obj. f_equal.
  apply map_eq. intros k. rewrite map_lookup_imap.
  subst answer data.
  destruct (decide (k = "type")) as [->|?];
    [by destruct (head (recentRolls s))|].
  destruct (decide (k = "requestId")) as [->|?];
    [by destruct (head (recentRolls s))|].
  destruct (decide (k = "clientId")) as [->|?];
    [by destruct (head (recentRolls s))|].
  destruct (decide (k = "data")) as [->|?];
    [by destruct (head (recentRolls s))|].
  rewrite lookup_union, !lookup_insert_ne, lookup_empty by done.
  by rewrite !lookup_singleton_ne.
Qed.

Lemma relayed_rolls c client req res now st l n :
  req_query req ≫= (λ o, o !! "clientId") = Some (JStr c) →
  req_query req ≫= (λ o, o !! "limit") = Some (JStr l) →
  req_query req ≫= (λ o, o !! "clear") = None →
  req_query req ≫= (λ o, o !! "refresh") = None →
  parseFloat l = Some n → n ≠ 0%Z →
  clients st !! c = Some client → c_open client = true →
  createApiRoute route_rolls req res now st
  = (mkState
       (<[requestId_of "rolls" now :=
            mkPending res "rolls" (Some (JStr c)) None None None None now
                      None None None None]> (pendingRequests st))
       (clients st) (responses st)
       (outbox st ++ [(c_id client,
          {["type" := JStr "rolls";
            "requestId" := JStr (requestId_of "rolls" now);
            "limit" := JNum n;
            "data" := JObj ∅]})]),
     Some (mkTimer 10000 (requestId_of "rolls" now) res)).
Proof.
  intros Hq Hl Hclear Hrefresh Hparse Hn Hc Hopen.
  assert (processParams route_rolls req
          = inr {["clientId" := JStr c; "limit" := JNum n]}) as Hp.
  { unfold processParams, extractParams.
    cbn [cfg_requiredParams cfg_optionalParams route_rolls app foldl p_name p_from
         firstDefined req_source].
    rewrite Hq, Hl, Hclear, Hrefresh.
    cbn [params_set coerceParams p_name p_type].
    replace ((delete "refresh" (delete "clear"
                (<["limit" := JStr l]> (<["clientId" := JStr c]> ∅))) : object)
               !! "clientId")
      with (Some (JStr c)) by (vm_compute; reflexivity).
    cbn [coerce].
    replace ((<["clientId" := JStr c]>
                (delete "refresh" (delete "clear"
                   (<["limit" := JStr l]> (<["clientId" := JStr c]> ∅)))) : object)
               !! "limit")
      with (Some (JStr l)) by (vm_compute; reflexivity).
    cbn [coerce js_String]. rewrite Hparse.
    reflexivity. }
  unfold createApiRoute. rewrite Hp.
  replace (({["clientId" := JStr c; "limit" := JNum n]} : object) !! "clientId")
    with (Some (JStr c)) by (vm_compute; reflexivity).
  cbn [getClient]. rewrite Hc. cbn [cfg_buildPayload route_rolls cfg_type].
  unfold client_send. rewrite Hopen.
  assert (rolls_buildPayload {["clientId" := JStr c; "limit" := JNum n]} req
          = {["limit" := JNum n]}) as ->.
  { unfold rolls_buildPayload.
    replace (({["clientId" := JStr c; "limit" := JNum n]} : object) !! "limit")
      with (Some (JNum n)) by (vm_compute; reflexivity).
    replace (({["clientId" := JStr c; "limit" := JNum n]} : object) !! "clear")
      with (@None json) by (vm_compute; reflexivity).
    replace (({["clientId" := JStr c; "limit" := JNum n]} : object) !! "refresh")
      with (@None json) by (vm_compute; reflexivity).
    cbn [truthy orb]. apply Z.eqb_neq in Hn. by rewrite Hn. }
  replace (relayMessage _ _ _)
    with ({["type" := JStr "rolls";
            "requestId" := JStr (requestId_of "rolls" now);
            "limit" := JNum n;
            "data" := JObj ∅]} : object) by (vm_compute; reflexivity).
  reflexivity.
Qed.

(** X19.  GET /rolls?limit=n with a positive limit, from the request to
    the response, when the module of the target client answers the frame
    it is sent.  The relay sends [{type: "rolls", requestId, limit: n,
    data: {}}]; the module answers with the first [n] of the rolls it has
    stored; and the caller receives 200 with [{type: "rolls-result",
    requestId, clientId, data}], where [data] is the array of these rolls
    without their sensitive keys.  The waiter is gone. *)
Theorem rolls_round_trip c client req res now st l n limitSetting s :
  req_query req ≫= (λ o, o !! "clientId") = Some (JStr c) →
  req_query req ≫= (λ o, o !! "limit") = Some (JStr l) →
  req_query req ≫= (λ o, o !! "clear") = None →
  req_query req ≫= (λ o, o !! "refresh") = None →
  parseFloat l = Some n → (0 < n)%Z →
  clients st !! c = Some client → c_open client = true → c ≠ "" →
  responses st !! res = None →
  let requestId := requestId_of "rolls" now in
  let relayed := (createApiRoute route_rolls req res now st).1 in
  ∃ frame answer,
    outbox relayed = (outbox st ++ [(c_id client, frame)])%list
    ∧ onMessage frame limitSetting s = Some (Some answer)
    ∧ handleMessage client answer relayed
      = mkState (delete requestId (pendingRequests st)) (clients st)
          (<[res := mkResponse 200 []
               (BJson (Some (JObj
                  {["type" := JStr "rolls-result";
                    "requestId" := JStr requestId;
                    "clientId" := JStr c;
                    "data" := JArr (map (λ roll, removeSensitiveKeys (rollData_json roll))
                                        (take (Z.to_nat n) (recentRolls s)))]})))]>
             (responses st))
          (outbox relayed).
Proof.
  intros Hq Hl Hclear Hrefresh Hparse Hn Hc Hopen Hne Hres. cbn zeta.
  rewrite (relayed_rolls _ _ _ _ _ _ _ _ Hq Hl Hclear Hrefresh Hparse) by (done || lia).
  cbn [fst outbox].
  set (frame := {["type" := JStr "rolls";
                  "requestId" := JStr (requestId_of "rolls" now);
                  "limit" := JNum n; "data" := JObj ∅]} : object).
  set (data := JArr (map rollData_json (take (Z.to_nat n) (recentRolls s)))).
  set (answer := <["type" := JStr "rolls-result"]>
                   (<["requestId" := JStr (requestId_of "rolls" now)]>
                      (<["data" := data]> ∅)) : object).
  assert (frame !! "type" = Some (JStr "rolls")) as Htype by done.
  assert (frame !! "limit" = Some (JNum n)) as Hlimit.
  { unfold frame. rewrite !lookup_insert_ne by done. apply lookup_insert_eq. }
  assert (frame !! "requestId" = Some (JStr (requestId_of "rolls" now))) as Hframe.
  { unfold frame. rewrite lookup_insert_ne by done. apply lookup_insert_eq. }
  assert (answer !! "requestId" = Some (JStr (requestId_of "rolls" now))) as Hrid.
  { unfold answer. rewrite lookup_insert_ne by done. apply lookup_insert_eq. }
  assert (answer !! "type" = Some (JStr "rolls-result")) as Hanswer by done.
  assert (answer !! "error" = None) as Herror.
  { unfold answer. rewrite !lookup_insert_ne by done. apply lookup_empty. }
  exists frame, answer. split; [reflexivity|]. split.
  { unfold onMessage. rewrite Htype.
    cbn [truthy bool_decide negb]. rewrite messageHandlers_lookup.
    cbn [bool_decide decide_rel]. unfold request_of. rewrite Hlimit, Hframe.
    cbn [fmap option_fmap option_map]. unfold rollsHandler.
    cbn [frame_json q_requestId q_limit].
    assert (num_or (Some n) 20 = n) as ->.
    { unfold num_or. destruct (n =? 0)%Z eqn:?; [lia|done]. }
    rewrite slice0_positive by done. reflexivity. }
  unfold handleMessage. rewrite Hanswer.
  replace (handlerFor "rolls-result") with (Some (ResultHandler "rolls"))
    by (vm_compute; reflexivity).
  erewrite (resultHandler_completes _ _ _ _ _ Hrid);
    [|apply requestId_of_nonempty|cbn; apply lookup_insert_eq|done
     |unfold answer; rewrite !lookup_insert_ne by done; apply lookup_empty].
  cbn [pendingRequests responses clients outbox pr_res pr_clientId].
  rewrite delete_insert_eq, Herror. cbn [truthy].
  rewrite or_default_string by done.
  f_equal. f_equal. f_equal. f_equal. f_equal.
  rewrite removeSensitiveKeys_obj. f_equal.
  apply map_eq. intros k. rewrite map_lookup_imap.
  clear Hrid Hanswer Herror. subst answer data.
  destruct (decide (k = "type")) as [->|?]; [done|].
  destruct (decide (k = "requestId")) as [->|?]; [done|].
  destruct (decide (k = "clientId")) as [->|?]; [done|].
  destruct (decide (k = "data")) as [->|?].
  { rewrite lookup_union_l by done.
    rewrite !lookup_insert_ne, lookup_insert_eq by done. cbn [mbind option_bind].
    replace (sensitive "data") with false by (vm_compute; reflexivity).
    replace (sets_prototype "data") with false by (vm_compute; reflexivity).
    rewrite removeSensitiveKeys_arr, !lookup_insert_ne, lookup_singleton_eq by done.
    by rewrite <- list_fmap_compose. }
  rewrite lookup_union, !lookup_insert_ne, lookup_empty by done.
  by rewrite !lookup_singleton_ne.
Qed.

End RoundTrip.

(** X21.  A relayed request whose type the module has no handler for is
    not answered by the module: the frame of an accepted request of any
    type other than [ping], [chat-messages], [rolls] and [last-roll] (so
    the frames of POST /roll and POST /chat) is sent to the client, and
    [onMessage] of the module sends nothing back for it. *)
Theorem module_has_no_handler_for_roll_or_chat `{Platform}
    config req res now st st' armed limitSetting s :
  cfg_type config ∉ ["ping"; "chat-messages"; "rolls"; "last-roll"] →
  createApiRoute config req res now st = (st', Some armed) →
  ∃ c frame,
    outbox st' = (outbox st ++ [(c, frame)])%list
    ∧ frame !! "type" = Some (JStr (cfg_type config))
    ∧ Wire.onMessage frame limitSetting s = Some None.
Proof.
  intros Hother. unfold createApiRoute.
  destruct (processParams config req) as [|params]; [done|].
  destruct (getClient _ st) as [client|]; [|done].
  unfold client_send. destruct (c_open client); [|done]. intros [= <- _].
  eexists _, _. cbn [outbox]. split; [reflexivity|].
  split; [apply relayMessage_type|].
  unfold Wire.onMessage. rewrite relayMessage_type.
  destruct (truthy (Some (JStr (cfg_type config)))); [|done].
  rewrite messageHandlers_lookup. rewrite !not_elem_of_cons in Hother.
  destruct Hother as (? & ? & ? & ? & _).
  repeat (case_bool_decide; [done|]). done.
Qed.

(** ** A silent peer: the caller receives 408 *)

Lemma advance_clock fuel target : ∀ w w',
  advance fuel target w = Some w' → w_clock w' = target.
Proof.
  induction fuel as [|fuel IH]; intros [clock st agenda next] w'; cbn;
    destruct agenda as [|[d t] rest]; try (by intros [= <-]);
    destruct (d <=? target)%Z; try done; try (by intros [= <-]).
  destruct (runTask d t st rest) as [relay agenda']. apply IH.
Qed.

Section Silent.
Context `{Platform}.
Context (requestId : string) (res : nat) (due : Z).

(** What the proof carries along a run: the response handles and the
    timers are in order, and the request is waiting or has been answered
    by its timeout. *)
Let carried (w : world) : Prop :=
  handles_ok w ∧ timers_cover None w
  ∧ (awaits requestId res due w ∨ answered408 requestId res w).

Lemma answered408_keep w w' :
  answered408 requestId res w →
  (∀ r, responses (w_relay w) !! res = Some r → responses (w_relay w') !! res = Some r) →
  (pendingRequests (w_relay w) !! requestId = None →
   pendingRequests (w_relay w') !! requestId = None) →
  answered408 requestId res w'.
Proof. intros [Hr Hp] Hkeep Hnone. split; [by apply Hkeep|by apply Hnone]. Qed.

Lemma runTask_carried clock d t st agenda next :
  carried (mkWorld clock st ((d, t) :: agenda) next) →
  carried (mkWorld d (runTask d t st agenda).1 (runTask d t st agenda).2 next).
Proof.
  intros (Hok & Hcover & Hstate).
  pose proof (runTask_handles_ok clock d t st agenda next Hok) as Hok'.
  pose proof (runTask_timers_cover None clock d t st agenda next Hcover) as Hcover'.
  split; [done|]. split; [done|].
  destruct Hstate as [((p & Hp & Hpres & Hdue) & Hres & Htimer & Honly)|Hdone];
    cbn [w_relay w_agenda] in *.
  2:{ right. destruct t as [rid res1|]; cbn [runTask fst snd].
      - eapply answered408_keep; [exact Hdone| |]; cbn [w_relay].
        + intros r Hr.
          destruct (timeoutCallback_outcome rid res1 st) as [->|(p & Ht)]; [done|].
          by eapply taken_keeps.
        + intros Hnone.
          destruct (timeoutCallback_outcome rid res1 st) as [->|(p & _ & Hdel & _)];
            [done|]. rewrite Hdel, lookup_delete_None. by right.
      - eapply answered408_keep; [exact Hdone| |]; cbn [w_relay];
          unfold sweepPending; simpl_state; [done|].
        intros Hnone. apply map_lookup_filter_None. by left. }
  destruct Hcover as [Hsorted _]. cbn in Hsorted.
  apply StronglySorted_inv in Hsorted as [_ Hhead]. rewrite Forall_forall in Hhead.
  destruct t as [rid res1|]; cbn [runTask fst snd].
  - destruct (decide (rid = requestId)) as [->|Hne].
    + (* a timer of the request: it answers *)
      assert (res1 = res) as -> by (eapply Honly; apply list_elem_of_here).
      right. split; cbn [w_relay].
      * rewrite (timeoutCallback_answers _ _ _ _ Hp Hres). cbn. apply lookup_insert_eq.
      * rewrite (timeoutCallback_answers _ _ _ _ Hp Hres). cbn. apply lookup_delete_eq.
    + (* another timer: it leaves the request alone *)
      left.
      assert (res1 ≠ res) as Hres1.
      { intros ->. destruct Hok as (_ & _ & Hc & _).
        destruct (Hc d rid res) as [_ Hown]; [apply list_elem_of_here|].
        apply Hne. symmetry. by eapply (Hown requestId p). }
      apply elem_of_cons in Htimer as [[= _ ? _]|Htimer]; [done|].
      unfold awaits. cbn [w_relay w_agenda]. split_and!.
      * exists p. split; [|done].
        destruct (timeoutCallback_outcome rid res1 st) as [->|(p1 & _ & Hdel & _)];
          [done|]. by rewrite Hdel, lookup_delete_ne.
      * destruct (timeoutCallback_outcome rid res1 st)
          as [->|(p1 & _ & _ & _ & _ & [Hsame|(r & _ & Hins)])]; [done| |].
        -- by rewrite Hsame.
        -- by rewrite Hins, lookup_insert_ne.
      * done.
      * intros d' res' Hin. eapply Honly. by apply list_elem_of_further.
  - (* the sweep: the waiter is not older than 30 seconds *)
    left.
    apply elem_of_cons in Htimer as [[=]|Htimer].
    specialize (Hhead _ Htimer). cbn in Hhead.
    unfold awaits, sweepPending. cbn [w_relay w_agenda]. simpl_state. split_and!.
    + exists p. split; [|done]. apply map_lookup_filter_Some. split; [done|]. cbn. lia.
    + done.
    + apply elem_of_schedule. by right.
    + intros d' res' [[=]|Hin]%elem_of_schedule. eapply Honly.
      by apply list_elem_of_further.
Qed.

Lemma advance_carried fuel target : ∀ w w',
  carried w → advance fuel target w = Some w' →
  carried w' ∧ (awaits requestId res due w' → (target < due)%Z).
Proof.
  assert (∀ clock st agenda next,
            (match agenda with
             | (d, _) :: _ => (target < d)%Z
             | [] => True
             end) →
            carried (mkWorld clock st agenda next) →
            carried (mkWorld target st agenda next)
            ∧ (awaits requestId res due (mkWorld target st agenda next) →
               (target < due)%Z)) as Hstop.
  { intros clock st agenda next Hlate (Hok & Hcover & Hstate).
    split; [done|]. intros (_ & _ & Htimer & _). cbn in *.
    destruct Hcover as [Hsorted _]. cbn in Hsorted.
    destruct agenda as [|[d t] rest]; [by apply elem_of_nil in Htimer|].
    apply StronglySorted_inv in Hsorted as [_ Hhead]. rewrite Forall_forall in Hhead.
    apply elem_of_cons in Htimer as [[= <- _]|Htimer]; [lia|].
    specialize (Hhead _ Htimer). cbn in Hhead. lia. }
  induction fuel as [|fuel IH]; intros [clock st agenda next] w' Hc; cbn.
  - destruct agenda as [|[d t] rest]; [intros [= <-]; by eapply Hstop|].
    destruct (d <=? target)%Z eqn:Hd; [done|]. intros [= <-].
    eapply Hstop; [|exact Hc]. cbn. lia.
  - destruct agenda as [|[d t] rest]; [intros [= <-]; by eapply Hstop|].
    destruct (d <=? target)%Z eqn:Hd.
    + pose proof (runTask_carried clock d t st rest next Hc) as Hc'.
      destruct (runTask d t st rest) as [relay agenda']. by apply IH.
    + intros [= <-]. eapply Hstop; [|exact Hc]. cbn. lia.
Qed.

(** A request changes the table only under its own ID, and the responses
    only at its own handle. *)
Lemma createApiRoute_elsewhere config req res0 now st :
  (∀ k, k ≠ requestId_of (cfg_type config) now →
        pendingRequests (createApiRoute config req res0 now st).1 !! k
        = pendingRequests st !! k)
  ∧ (∀ r, r ≠ res0 →
          responses (createApiRoute config req res0 now st).1 !! r = responses st !! r).
Proof.
  assert (∀ code data (rs : responses_t) r, r ≠ res0 →
            safeResponse res0 code data rs !! r = rs !! r) as Hsafe.
  { intros code data rs r Hr. unfold safeResponse.
    destruct (rs !! res0); [done|]. by rewrite lookup_insert_ne. }
  unfold createApiRoute.
  destruct (processParams config req) as [err|params]; cbn [fst snd].
  { simpl_state. split; [done|]. intros r Hr. by apply Hsafe. }
  destruct (getClient _ st) as [client|]; cbn [fst snd].
  2:{ simpl_state. split; [done|]. intros r Hr. by apply Hsafe. }
  unfold client_send. destruct (c_open client); cbn [fst snd]; simpl_state.
  - split; [|done]. intros k Hk. by rewrite lookup_insert_ne.
  - split.
    + intros k Hk. by rewrite lookup_delete_ne, lookup_insert_ne.
    + intros r Hr. by apply Hsafe.
Qed.

Lemma world_step_carried w i w' :
  carried w ∧ (awaits requestId res due w → (w_clock w < due)%Z) →
  quiet_at requestId w i →
  world_step w i = Some w' →
  carried w' ∧ (awaits requestId res due w' → (w_clock w' < due)%Z).
Proof.
  intros [Hc Hclock] Hquiet Hstep.
  destruct i as [config req|client data|dt]; cbn [quiet_at] in Hquiet.
  - (* a request under another ID *)
    pose proof Hc as (Hok & Hcover & Hstate).
    pose proof (world_step_handles_ok _ _ _ Hok Hstep) as Hok'.
    pose proof (world_step_timers_cover None w (InRequest config req) w' Hcover I Hstep)
      as Hcover'.
    destruct w as [clock st agenda next]. cbn [world_step] in Hstep.
    cbn [w_clock w_relay w_agenda w_nextRes] in *.
    destruct (createApiRoute_elsewhere config req next clock st) as [Hp Hr].
    pose proof (createApiRoute_arms_timeout config req next clock st) as Harm.
    destruct (createApiRoute config req next clock st) as [relay armed].
    cbn [fst snd] in Hp, Hr. injection Hstep as <-.
    assert (res ≠ next) as Hnext.
    { destruct Hok as (Ha & _ & _ & He & _). cbn in Ha, He.
      destruct Hstate as [((p & Hw & <- & _) & _)|[Hdone _]].
      - destruct (Ha _ _ Hw) as [_ ?]. lia.
      - intros ->. rewrite He in Hdone by lia. done. }
    assert (awaits requestId res due (mkWorld clock st agenda next)
            ∨ answered408 requestId res (mkWorld clock st agenda next) →
            awaits requestId res due
              (mkWorld clock relay
                 match armed with
                 | Some t => schedule (clock + t_delay t)
                               (TimeoutTask (t_requestId t) (t_res t)) agenda
                 | None => agenda
                 end (S next))
            ∨ answered408 requestId res
                (mkWorld clock relay
                   match armed with
                   | Some t => schedule (clock + t_delay t)
                                 (TimeoutTask (t_requestId t) (t_res t)) agenda
                   | None => agenda
                   end (S next))) as Hnew.
    { intros [((p & Hw & Hres & Hdue) & Hnone & Htimer & Honly)|[Hdone Hgone]];
        cbn [w_relay w_agenda] in *; [left|right].
      - unfold awaits. cbn [w_relay w_agenda]. split_and!.
        + exists p. by rewrite Hp.
        + by rewrite Hr.
        + destruct armed; [apply elem_of_schedule; by right|done].
        + intros d res'. destruct armed as [t|]; [|by apply Honly].
          rewrite (Harm relay t eq_refl). cbn [t_delay t_requestId t_res].
          intros [[= _ Hrid _]|Hin]%elem_of_schedule; [done|]. by eapply Honly.
      - split; cbn [w_relay]; [by rewrite Hr|by rewrite Hp]. }
    split; [split_and!; [done..|by apply Hnew]|]. cbn [w_clock].
    intros ((p & Hw & Hres & Hdue) & Hnone & _). cbn [w_relay] in *.
    rewrite Hp in Hw by done. rewrite Hr in Hnone by done.
    destruct Hstate as [Hawaits|[Hdone _]]; [by apply Hclock|]. cbn in Hdone. congruence.
  - (* a message for another request *)
    pose proof Hc as (Hok & Hcover & Hstate).
    pose proof (world_step_handles_ok _ _ _ Hok Hstep) as Hok'.
    pose proof (world_step_timers_cover None w (InMessage client data) w' Hcover I Hstep)
      as Hcover'.
    destruct w as [clock st agenda next]. cbn [world_step] in Hstep.
    cbn [w_clock w_relay w_agenda w_nextRes] in *. injection Hstep as <-.
    destruct (handleMessage_outcome client data st) as [Hsame|(rid & p1 & Hrid & Ht)].
    { rewrite Hsame in *. split; [done|]. by cbn [w_clock]. }
    assert (rid ≠ requestId) as Hne by congruence.
    destruct Ht as (Hp1 & Hdel & _ & _ & Hw).
    assert (awaits requestId res due (mkWorld clock st agenda next) →
            awaits requestId res due
              (mkWorld clock (handleMessage client data st) agenda next)) as Hnew.
    { intros ((p & Hwait & Hres & Hdue) & Hnone & Htimer & Honly).
      cbn [w_relay w_agenda] in *. unfold awaits. cbn [w_relay w_agenda]. split_and!.
      - exists p. by rewrite Hdel, lookup_delete_ne.
      - destruct Hw as [->|(r & _ & ->)]; [done|]. rewrite lookup_insert_ne; [done|].
        intros Heq. destruct Hok as (_ & Hb & _). cbn in Hb.
        apply Hne. apply (Hb rid p1 requestId p); congruence.
      - done.
      - done. }
    split.
    + split_and!; [done..|]. destruct Hstate as [Hawaits|[Hdone Hgone]];
        [left; by apply Hnew|right]. unfold answered408. cbn [w_relay] in *. split.
      * destruct Hw as [->|(r & Hfree & ->)]; [done|].
        rewrite lookup_insert_ne; [done|congruence].
      * rewrite Hdel, lookup_delete_None. by right.
    + cbn [w_clock]. intros ((p & Hwait & Hres & Hdue) & Hnone & _).
      cbn [w_relay] in *. destruct Hstate as [Hawaits|[Hdone _]]; [by apply Hclock|].
      cbn in Hdone. exfalso.
      destruct Hw as [Hsame|(r & Hfree & Hins)]; [congruence|].
      rewrite Hins in Hnone. apply lookup_insert_None in Hnone as [? _]. congruence.
  - (* time passes *)
    cbn [world_step] in Hstep.
    destruct (advance_carried _ _ _ _ Hc Hstep) as [Hc' Hlate]. split; [done|].
    intros Hawaits. rewrite (advance_clock _ _ _ _ Hstep). by apply Hlate.
Qed.

Lemma world_run_carried inputs : ∀ w w',
  carried w ∧ (awaits requestId res due w → (w_clock w < due)%Z) →
  quiet requestId w inputs →
  world_run w inputs = Some w' →
  carried w' ∧ (awaits requestId res due w' → (w_clock w' < due)%Z).
Proof.
  induction inputs as [|i rest IH]; intros w w' Hc; cbn.
  - by intros _ [= <-].
  - intros [Hq Hrest]. destruct (world_step w i) as [w1|] eqn:Hstep; [|done]. cbn.
    apply IH; [by eapply world_step_carried|done].
Qed.
End Silent.

(** X22 (silent peer, whole run): in a world the relay has reached from its
    start, a request that is accepted with a timeout between 1 ms and 30 s,
    under an ID for which no timer is armed, is answered with 408 Request
    timed out, and its waiter is gone, once the clock has reached the
    deadline, whatever else happens in between (other requests, messages
    for other requests, sweeps, other timeouts), as long as no later request
    is given the same ID and no peer message carries it. *)
Theorem silent_peer_gets_408 `{Platform} t0 clients before w0 config req w1 after w2 :
  world_run (startRelay t0 clients) before = Some w0 →
  (0 < timeoutDuration config ≤ 30000)%Z →
  (∀ d res', (d, TimeoutTask (requestId_of (cfg_type config) (w_clock w0)) res')
             ∉ w_agenda w0) →
  (createApiRoute config req (w_nextRes w0) (w_clock w0) (w_relay w0)).2 ≠ None →
  world_step w0 (InRequest config req) = Some w1 →
  quiet (requestId_of (cfg_type config) (w_clock w0)) w1 after →
  world_run w1 after = Some w2 →
  (w_clock w0 + timeoutDuration config ≤ w_clock w2)%Z →
  responses (w_relay w2) !! w_nextRes w0 = Some timedOut
  ∧ pendingRequests (w_relay w2) !! requestId_of (cfg_type config) (w_clock w0) = None.
Proof.
  intros Hreach Htimeout Hfresh Haccepted Hstep Hquiet Hrun Hlate.
  pose proof (world_run_handles_ok _ _ _ (handles_ok_start t0 clients) Hreach) as Hok.
  pose proof (world_run_timers_cover None _ _ _ (timers_cover_start None t0 clients)
                ltac:(apply Forall_forall; intros [] _; exact I) Hreach) as Hcover.
  pose proof (world_step_handles_ok _ _ _ Hok Hstep) as Hok1.
  pose proof (world_step_timers_cover None w0 (InRequest config req) w1 Hcover I Hstep)
    as Hcover1.
  set (requestId := requestId_of (cfg_type config) (w_clock w0)) in *.
  set (due := (w_clock w0 + timeoutDuration config)%Z) in *.
  assert (awaits requestId (w_nextRes w0) due w1 ∧ w_clock w1 = w_clock w0)
    as [Hawaits Hclock].
  { destruct w0 as [clock st agenda next]. cbn [world_step] in Hstep.
    cbn [w_clock w_relay w_agenda w_nextRes] in *.
    destruct (createApiRoute config req next clock st) as [relay [t|]] eqn:Hroute;
      [|done].
    pose proof (createApiRoute_arms_timeout _ _ _ _ _ _ _ Hroute) as ->.
    pose proof (createApiRoute_registers _ _ _ _ _ _ _ Hroute) as Hwaiter.
    injection Hstep as <-. cbn [t_delay t_requestId t_res] in *.
    split; [|done]. unfold awaits. cbn [w_relay w_agenda]. split_and!.
    - eexists. split; [exact Hwaiter|]. split; [done|]. cbn. subst due. lia.
    - destruct Hok1 as (Ha & _). by destruct (Ha _ _ Hwaiter).
    - apply elem_of_schedule. by left.
    - intros d res' [[= _ ?]|Hin]%elem_of_schedule; [done|].
      by destruct (Hfresh d res'). }
  destruct (world_run_carried requestId (w_nextRes w0) due after w1 w2) as [Hc Hbefore];
    [|done|done|].
  { split; [split_and!; [done..|by left]|]. intros _. rewrite Hclock. subst due. lia. }
  destruct Hc as (_ & _ & [Hstill|Hdone]); [|done].
  specialize (Hbefore Hstill). lia.
Qed.

(** ** The properties at concrete inputs *)

(** X2 at [POST /roll?clientId=c1] with body [{formula: "1d20"}]. *)
Lemma validated_params_are_typed_witness :
  let params : object := {["clientId" := JStr "c1"; "formula" := JStr "1d20"]} in
  @processParams examplePlatform route_roll roll_request = inr params
  ∧ (∀ p, p ∈ cfg_requiredParams route_roll → nullish (params !! p_name p) = false)
  ∧ (∀ k, is_Some (params !! k) → k ∈ paramNames route_roll).
Proof.
  cbn zeta.
  assert (@processParams examplePlatform route_roll roll_request
          = inr ({["clientId" := JStr "c1"; "formula" := JStr "1d20"]} : object))
    as Hparams by (vm_compute; reflexivity).
  assert (NoDup (paramNames route_roll)) as Hnames
    by (apply (bool_decide_unpack _); vm_compute; reflexivity).
  pose proof (@validated_params_are_typed examplePlatform route_roll roll_request _
                Hparams Hnames) as (Hrequired & _ & Hdeclared).
  split_and!; assumption.
Defined.


(** X4 at the same request: the frame goes to [c1], with type [roll] and
    the generated ID. *)
Lemma endpoint_frame_witness :
  ∃ client frame,
    clients (w_relay relay_with_c1) !! "c1" = Some client
    ∧ outbox roll_waiting = [(c_id client, frame)]
    ∧ frame !! "type" = Some (JStr "roll")
    ∧ frame !! "requestId" = Some (JStr "roll_1000")
    ∧ frame !! "clientId" = None.
Proof.
  assert (("POST", "/roll", route_roll) ∈ endpoints) as Hin
    by (repeat first [apply list_elem_of_here|apply list_elem_of_further]).
  assert (@createApiRoute examplePlatform route_roll roll_request 0 1000
            (w_relay relay_with_c1)
          = (roll_waiting, Some (mkTimer 10000 "roll_1000" 0))) as Hroute
    by (vm_compute; reflexivity).
  destruct (@endpoint_frame examplePlatform _ _ _ _ _ _ _ _ _ Hin Hroute)
    as (c & client & frame & Hc & Hclient & Hout & Htype & Hrid & Hnone & _).
  injection Hc as <-. by exists client, frame.
Defined.


(** X6 at the relay after one [POST /roll]. *)
Lemma reachable_worlds_are_in_order_witness :
  handles_ok roll_world ∧ timers_cover None roll_world.
Proof.
  apply (@reachable_worlds_are_in_order examplePlatform 1000 {["c1" := peer_c1]}
           [InRequest route_roll roll_request]).
  vm_compute. reflexivity.
Defined.

(** X7 at the same world: the sweep that fires at 11000 finds the waiter
    of age 10 seconds and leaves it. *)
Lemma sweep_removes_nothing_within_30s_witness :
  sweepPending 11000 roll_waiting = roll_waiting.
Proof.
  apply (@sweep_removes_nothing_within_30s examplePlatform 1000 {["c1" := peer_c1]}
           [InRequest route_roll roll_request] roll_world 10000).
  - repeat constructor. vm_compute. discriminate.
  - vm_compute. reflexivity.
  - replace (firedTasks _ _ _)
      with [(11000%Z, SweepTask, roll_waiting);
            (11000%Z, TimeoutTask "roll_1000" 0, roll_waiting)]
      by (vm_compute; reflexivity).
    apply list_elem_of_here.
Defined.

(** X8 at a sheet response for a request ID that nobody waits for. *)
Lemma sheet_response_is_ignored_witness :
  @handleMessage examplePlatform peer_c1
    {["type" := JStr "get-sheet-response"; "requestId" := JStr "get-sheet_999"]}
    sheet_waiting
  = sheet_waiting.
Proof.
  apply (@sheet_response_is_ignored examplePlatform); [reflexivity|].
  right. left. vm_compute. reflexivity.
Defined.

(** X9 at a sheet response for the waiting request, format [json]. *)
Lemma sheet_response_is_answered_witness :
  @handleMessage examplePlatform peer_c1 sheet_result sheet_waiting
  = mkState ∅ {["c1" := peer_c1]}
      {[ 0%nat := mkResponse 200 []
           (BJson (Some (JObj {["requestId" := JStr "get-sheet_1000";
                                "clientId" := JStr "c1";
                                "uuid" := JStr "Actor.a1";
                                "html" := JStr "<p>a1</p>";
                                "css" := JStr ""]}))) ]}
      [].
Proof.
  rewrite (@sheet_response_is_answered examplePlatform peer_c1 sheet_result sheet_waiting
             "get-sheet_1000" sheet_waiter eq_refl eq_refl
             (λ e, ltac:(discriminate e)) eq_refl eq_refl eq_refl eq_refl).
  vm_compute. reflexivity.
Defined.

(** X10 at a download result that reports an error: 500. *)
Lemma download_error_or_malformed_witness :
  @handleMessage examplePlatform peer_c1 download_failed (download_waiting None)
  = mkState ∅ {["c1" := peer_c1]}
      {[ 0%nat := mkResponse 500 []
           (BJson (Some (JObj {["clientId" := JStr "c1";
                                "requestId" := JStr "download-file_1000";
                                "error" := JStr "File not found"]}))) ]}
      [].
Proof.
  destruct (@download_error_or_malformed examplePlatform peer_c1 download_failed
              (download_waiting None) "download-file_1000" (download_waiter None)
              eq_refl eq_refl (λ e, ltac:(discriminate e)) eq_refl eq_refl)
    as [Herror _].
  rewrite (Herror eq_refl). vm_compute. reflexivity.
Defined.

(** X12 at a module that has stored [m1] (timestamp 1) before [m2]
    (timestamp 2), for a request with limit 1 and the default order. *)
Lemma chat_messages_are_the_first_by_timestamp_witness :
  let data := Peer.mkRequestFrame None (Some 1%Z) None None in
  ∃ messages rest,
    Peer.chatMessagesHandler data 100 stored = Peer.ChatMessagesResult None messages 2
    ∧ Peer.recentChatMessages stored ≡ₚ (messages ++ rest)%list
    ∧ StronglySorted (λ a b, (Peer.cd_timestamp b ≤ Peer.cd_timestamp a)%Z) messages.
Proof.
  destruct (chat_messages_are_the_first_by_timestamp
              (Peer.mkRequestFrame None (Some 1%Z) None None) 100 stored eq_refl)
    as (messages & rest & Hanswer & Hperm & _ & _ & Hdesc & _).
  exists messages, rest. split; [exact Hanswer|]. split; [exact Hperm|].
  apply Hdesc. reflexivity.
Defined.

Lemma byLength_consistent : consistent (byId byLength).
Proof. unfold consistent, byId, byLength. split; intros; lia. Qed.

(** X13 for the collation by length, with the active full GMs [gm] and
    [gamemaster] and a player: [gm] is primary, [gamemaster] is not. *)
Lemma primary_gm_election_witness :
  let gm := mkUser "gm" 4 true true in
  let gamemaster := mkUser "gamemaster" 4 true true in
  let player := mkUser "p" 1 true false in
  let users := Some [player; gamemaster; gm] in
  checkIfPrimaryGM byLength (Some gm) users = true
  ∧ checkIfPrimaryGM byLength (Some gamemaster) users = false
  ∧ checkIfPrimaryGM byLength (Some player) users = false.
Proof.
  cbn zeta.
  destruct (primary_gm_election byLength
              (Some [mkUser "p" 1 true false;
                     mkUser "gamemaster" 4 true true;
                     mkUser "gm" 4 true true])
              byLength_consistent)
    as (Hplayer & _ & _ & Hsame & _).
  split; [vm_compute; reflexivity|]. split; [|by apply Hplayer].
  destruct (checkIfPrimaryGM byLength (Some (mkUser "gamemaster" 4 true true)) _)
    eqn:Hother; [|done].
  exfalso.
  assert ("gamemaster" = "gm") as Heq; [|discriminate Heq].
  apply (Hsame (mkUser "gamemaster" 4 true true) (mkUser "gm" 4 true true));
    [exact Hother|vm_compute; reflexivity].
Defined.

(** X16 for a manager that is connected (socket 0 open, the ping interval
    armed) when [disconnect()] is called. *)
Lemma disconnect_stops_everything_witness :
  let b := Manager.run defaultSettings (Manager.start true)
             [Manager.Connect true true; Manager.SocketOpen 0] in
  Manager.isConnected b = true
  ∧ Manager.socket (Manager.this (Manager.disconnect b)) = None
  ∧ Manager.isConnected (Manager.disconnect b) = false
  ∧ Manager.pingInterval (Manager.this (Manager.disconnect b)) = None
  ∧ Manager.disconnect (Manager.disconnect b) = Manager.disconnect b.
Proof.
  cbn zeta.
  destruct (disconnect_stops_everything defaultSettings
              (Manager.run defaultSettings (Manager.start true)
                 [Manager.Connect true true; Manager.SocketOpen 0])
              (run_ok defaultSettings _ _ (start_ok defaultSettings true)))
    as (Hsocket & Hconnected & _ & _ & Hping & _ & _ & _ & _ & _ & Hagain).
  split; [vm_compute; reflexivity|]. by split_and!.
Defined.

(** X18 at [GET /lastroll?clientId=c1], for a module that has stored one
    roll. *)
Lemma lastroll_round_trip_witness :
  ∃ frame answer,
    outbox (@createApiRoute examplePlatform route_lastroll query_c1 0 1000
              (w_relay relay_with_c1)).1
    = [("c1", frame)]
    ∧ Wire.onMessage frame 100 stored = Some (Some answer)
    ∧ responses
        (@handleMessage examplePlatform peer_c1 answer
           (@createApiRoute examplePlatform route_lastroll query_c1 0 1000
              (w_relay relay_with_c1)).1) !! 0%nat
      = Some (mkResponse 200 []
                (BJson (Some (JObj
                   {["type" := JStr "last-roll-result";
                     "requestId" := JStr "last-roll_1000";
                     "clientId" := JStr "c1";
                     "data" := removeSensitiveKeys (Wire.rollData_json (roll_at "r1" 5))]})))).
Proof.
  destruct (@lastroll_round_trip examplePlatform "c1" peer_c1 query_c1 0 1000
              (w_relay relay_with_c1) 100 stored eq_refl eq_refl eq_refl
              (λ e, ltac:(discriminate e)) eq_refl)
    as (frame & answer & Hout & Hanswer & Hdone).
  exists frame, answer. split; [exact Hout|]. split; [exact Hanswer|].
  rewrite Hdone. cbn [responses]. apply lookup_insert_eq.
Defined.

(** X19 at [GET /rolls?clientId=c1&limit=2], for the same module. *)
Lemma rolls_round_trip_witness :
  ∃ frame answer,
    outbox (@createApiRoute examplePlatform route_rolls rolls_request 0 1000
              (w_relay relay_with_c1)).1
    = [("c1", frame)]
    ∧ Wire.onMessage frame 100 stored = Some (Some answer)
    ∧ responses
        (@handleMessage examplePlatform peer_c1 answer
           (@createApiRoute examplePlatform route_rolls rolls_request 0 1000
              (w_relay relay_with_c1)).1) !! 0%nat
      = Some (mkResponse 200 []
                (BJson (Some (JObj
                   {["type" := JStr "rolls-result";
                     "requestId" := JStr "rolls_1000";
                     "clientId" := JStr "c1";
                     "data" := JArr [removeSensitiveKeys
                                       (Wire.rollData_json (roll_at "r1" 5))]]})))).
Proof.
  destruct (@rolls_round_trip examplePlatform "c1" peer_c1 rolls_request 0 1000
              (w_relay relay_with_c1) "2" 2 100 stored eq_refl eq_refl eq_refl eq_refl
              eq_refl eq_refl eq_refl eq_refl (λ e, ltac:(discriminate e)) eq_refl)
    as (frame & answer & Hout & Hanswer & Hdone).
  exists frame, answer. split; [exact Hout|]. split; [exact Hanswer|].
  rewrite Hdone. cbn [responses]. apply lookup_insert_eq.
Defined.

(** X21 at [POST /roll]: the module sends nothing back for the frame. *)
Lemma module_has_no_handler_for_roll_or_chat_witness :
  ∃ c frame,
    outbox roll_waiting = [(c, frame)]
    ∧ frame !! "type" = Some (JStr "roll")
    ∧ Wire.onMessage frame 100 stored = Some None.
Proof.
  apply (@module_has_no_handler_for_roll_or_chat examplePlatform route_roll roll_request
           0 1000 (w_relay relay_with_c1) roll_waiting (mkTimer 10000 "roll_1000" 0)).
  - apply (bool_decide_unpack _). vm_compute. reflexivity.
  - vm_compute. reflexivity.
Defined.

(** X22 at [POST /roll] on the relay with [c1] connected and silent: ten
    seconds later the caller has its 408. *)
Lemma silent_peer_gets_408_witness :
  ∃ w,
    @world_run examplePlatform relay_with_c1
      [InRequest route_roll roll_request; InWait 10000] = Some w
    ∧ responses (w_relay w) !! 0%nat = Some timedOut
    ∧ pendingRequests (w_relay w) !! "roll_1000" = None.
Proof.
  eexists. split; [vm_compute; reflexivity|].
  apply (@silent_peer_gets_408 examplePlatform 1000 {["c1" := peer_c1]} []
           relay_with_c1 route_roll roll_request roll_world [InWait 10000]).
  - reflexivity.
  - change (0 < 10000 ≤ 30000)%Z. lia.
  - intros d res'. unfold relay_with_c1, startRelay. cbn [w_agenda].
    intros [[=]|Hin%elem_of_nil]%elem_of_cons. exact Hin.
  - vm_compute. discriminate.
  - vm_compute. reflexivity.
  - vm_compute. split; exact I.
  - vm_compute. reflexivity.
  - change (w_clock relay_with_c1 + timeoutDuration route_roll)%Z with 11000%Z.
    vm_compute. discriminate.
Defined.
